(** * The FTP synchronisation engine of Admin-Tools (ftp-tool)

    A shallow embedding of [src/core/ftp_worker.py] (class [FtpWorker]) and
    the properties of its specification.

    The worker talks to three things it does not own: the remote FTP server
    (through [ftplib.FTP]), the local file system (through [os] and [open])
    and the wall clock / stop request of the controlling thread.  The remote
    side and the clock are an interface, [FtpEnv], over an abstract state; the
    local file system is a finite map from path strings to nodes.  Python
    exceptions are the [Raise] case of [result]; [try/except] is
    [try_except].  Every FTP command sent, every mutation of the local file
    system and every log event is recorded in the worker state, so that
    statements about what the code does (and does not do) can be made on the
    traces. *)

From Stdlib Require Import ZArith Lia Ascii String QArith.
From Stdlib.Strings Require Import Byte.
From stdpp Require Import base gmap strings list.

Local Open Scope string_scope.
Local Open Scope Z_scope.
Local Open Scope list_scope.

(** ** Python values and exceptions *)

(** The exception classes that the worker distinguishes or that the modelled
    library calls raise.  All of them derive from [Exception], which is what
    every handler of the worker catches. *)
Inductive exn : Type :=
| error_perm          (* ftplib.error_perm: a 5xx reply *)
| error_temp          (* ftplib.error_temp, socket.timeout, EOFError, ... *)
| InterruptedError    (* raised by the write callback on a stop request *)
| OSError             (* local file system errors *)
| ValueError          (* int() of a setting that is not a number *)
| KeyError            (* settings[...] of a missing key *)
| OverflowError       (* a timeout beyond what the platform's lock takes *)
| RecursionError.     (* the interpreter's stack is exhausted *)

Inductive result (A : Type) : Type :=
| Ok (a : A)
| Raise (e : exn).
Arguments Ok {A} a.
Arguments Raise {A} e.

(** A settings entry that the code passes through [int(settings.get(k, d))]:
    the key may be absent (the default applies), hold something [int]
    accepts, or hold something on which [int] raises. *)
Inductive pyint : Type :=
| Unset
| IntVal (z : Z)
| NotInt.

Definition int_get (v : pyint) (default : Z) : result Z :=
  match v with
  | Unset => Ok default
  | IntVal z => Ok z
  | NotInt => Raise ValueError
  end.

(** The configuration snapshot ([self.settings]), restricted to the keys the
    synchronisation engine reads. *)
Record Settings : Type := mkSettings {
  remote_path : option string;          (* settings['remote_path'] *)
  local_path : option string;           (* settings['local_path'] *)
  interval : pyint;
  skip_log_limit : pyint;
  per_file_timeout : pyint;
  EnableFileStability : bool;
  FileStabilityWait : pyint;
  delete_after_download : bool
}.

(** ** Remote entries *)

(** [facts.get('type')]: the code looks only for ['dir'] and ['file']. *)
Inductive ftype : Type := TFile | TDir | TOther.

(** [facts.get('size')]: absent, present and accepted by [int], or present
    and rejected by [int]. *)
Inductive size_fact : Type :=
| NoSizeFact
| SizeFact (n : Z)
| BadSizeFact.

Record facts : Type := mkFacts {
  fact_type : ftype;
  fact_size : size_fact
}.

Definition item : Type := (string * facts)%type.

(** ** Paths *)

(** [s.replace('//', '/')]: left to right, non-overlapping. *)
Fixpoint replace_dslash (s : string) : string :=
  match s with
  | String c r =>
      match r with
      | String c' r' =>
          if Ascii.eqb c "/"%char && Ascii.eqb c' "/"%char
          then String "/"%char (replace_dslash r')
          else String c (replace_dslash r)
      | EmptyString => String c EmptyString
      end
  | EmptyString => EmptyString
  end.

(** [f"{remote_path}/{name}".replace('//', '/')] *)
Definition remote_join (remote_path name : string) : string :=
  replace_dslash (remote_path +:+ "/" +:+ name).

Definition starts_with_slash (s : string) : bool :=
  match s with
  | String c _ => Ascii.eqb c "/"%char
  | EmptyString => false
  end.

Fixpoint ends_with_slash (s : string) : bool :=
  match s with
  | EmptyString => false
  | String c EmptyString => Ascii.eqb c "/"%char
  | String _ r => ends_with_slash r
  end.

(** [os.path.join(a, b)] for two arguments, as [posixpath] defines it. *)
Definition os_path_join (a b : string) : string :=
  if starts_with_slash b then b
  else if bool_decide (a = "") || ends_with_slash a then a +:+ b
  else a +:+ "/" +:+ b.

Fixpoint has_slash (s : string) : bool :=
  match s with
  | EmptyString => false
  | String c r => Ascii.eqb c "/"%char || has_slash r
  end.

Fixpoint all_slashes (s : string) : bool :=
  match s with
  | EmptyString => true
  | String c r => Ascii.eqb c "/"%char && all_slashes r
  end.

(** [s.rstrip('/')] *)
Fixpoint rstrip_slashes (s : string) : string :=
  match s with
  | EmptyString => EmptyString
  | String c r => if all_slashes s then EmptyString
                  else String c (rstrip_slashes r)
  end.

(** [p[:p.rfind('/') + 1]]: the path up to its last slash, the slash
    included. *)
Fixpoint upto_last_slash (p : string) : string :=
  match p with
  | EmptyString => EmptyString
  | String c r => if has_slash p then String c (upto_last_slash r)
                  else EmptyString
  end.

(** [os.path.dirname(p)], as [posixpath] defines it: the head is stripped
    of its trailing slashes unless it consists of slashes only. *)
Definition os_path_dirname (p : string) : string :=
  let head := upto_last_slash p in
  if all_slashes head then head else rstrip_slashes head.

(** The directories above [p], the nearest first, up to the root or the
    current directory: [n] bounds their number. *)
Fixpoint ancestors_upto (n : nat) (p : string) : list string :=
  match n with
  | O => []
  | Datatypes.S n' =>
      let d := os_path_dirname p in
      if all_slashes d then [] else d :: ancestors_upto n' d
  end.

Definition ancestors (p : string) : list string :=
  ancestors_upto (String.length p) p.

(** [s.split('/')] *)
Fixpoint split_raw (s : string) : list string :=
  match s with
  | EmptyString => [EmptyString]
  | String c r =>
      if Ascii.eqb c "/"%char then EmptyString :: split_raw r
      else match split_raw r with
           | [] => [String c EmptyString]
           | h :: t => String c h :: t
           end
  end.

(** A component that leads nowhere else: an empty one, or [.]. *)
Definition stays (c : string) : bool :=
  bool_decide (c = "") || bool_decide (c = ".").

(** One step of [..] from the place that the names [cur] lead to: the last
    name goes; at the root the step has no effect, and above the current
    directory it is kept. *)
Definition step_up (absolute : bool) (cur : list string) : list string :=
  match last cur with
  | Some l => if bool_decide (l = "..") then cur ++ [".."] else removelast cur
  | None => if absolute then [] else [".."]
  end.

(** Where components lead from [cur]. *)
Fixpoint follow (absolute : bool) (cur comps : list string) : list string :=
  match comps with
  | [] => cur
  | c :: rest =>
      if stays c then follow absolute cur rest
      else if bool_decide (c = "..") then follow absolute (step_up absolute cur) rest
      else follow absolute (cur ++ [c]) rest
  end.

(** The place that a path names: whether it starts at the root, and the
    names that lead there. *)
Definition place (p : string) : bool * list string :=
  (starts_with_slash p, follow (starts_with_slash p) [] (split_raw p)).

(** [local_item_path + '.part'] *)
Definition temp_path (local_item_path : string) : string :=
  local_item_path +:+ ".part".

(** [name in ['.', '..']] *)
Definition is_dot (name : string) : bool :=
  bool_decide (name = ".") || bool_decide (name = "..").

(** ** The local file system *)

(** A flat map from path strings to nodes.  An entry is known by the
    spelling of its path, as the worker builds it with [os.path.join].
    The root, the current directory and the directories above it are
    there without being entries of the map. *)
Inductive lnode : Type :=
| LFile (content : list byte)
| LDir.

(** What [os.path.getsize] answers for a directory (the size of the
    directory inode; 4096 on the common Linux file systems). *)
Definition dir_st_size : Z := 4096.

Definition os_path_exists (p : string) (m : gmap string lnode) : bool :=
  bool_decide (is_Some (m !! p)).

Definition os_path_getsize (p : string) (m : gmap string lnode) : result Z :=
  match m !! p with
  | Some (LFile c) => Ok (Z.of_nat (length c))
  | Some LDir => Ok dir_st_size
  | None => Raise OSError
  end.

Definition is_file_at (m : gmap string lnode) (p : string) : bool :=
  match m !! p with
  | Some (LFile _) => true
  | _ => false
  end.

(** A directory is at the place [pl]: the root, the current directory and
    the directories above it are there; any other place is a directory
    when the map has a directory under some spelling of it. *)
Definition dir_at (pl : bool * list string) (m : gmap string lnode) : bool :=
  forallb (fun c => bool_decide (c = "..")) pl.2 ||
  existsb (fun kv => match kv.2 with
                     | LDir => bool_decide (place kv.1 = pl)
                     | LFile _ => false
                     end) (map_to_list m).

(** The components lead from [cur] through directories only. *)
Fixpoint resolves (absolute : bool) (cur comps : list string)
    (m : gmap string lnode) : bool :=
  match comps with
  | [] => true
  | c :: rest =>
      if stays c then resolves absolute cur rest m
      else if bool_decide (c = "..")
      then resolves absolute (step_up absolute cur) rest m
      else dir_at (absolute, cur ++ [c]) m &&
           resolves absolute (cur ++ [c]) rest m
  end.

(** The directory part of [p] names a directory. *)
Definition parent_exists (p : string) (m : gmap string lnode) : bool :=
  resolves (starts_with_slash p) [] (split_raw (upto_last_slash p)) m.

(** The paths of [ps] are directories from now on. *)
Definition make_dirs (ps : list string) (m : gmap string lnode)
  : gmap string lnode :=
  foldr (fun q m' => <[q := LDir]> m') m ps.

(** [os.makedirs(p)]: creates [p] and the directories above it that are
    missing.  It fails for the empty path (FileNotFoundError), when
    something is at [p] already (FileExistsError) and when a path above
    [p] is a file (NotADirectoryError); all three are [OSError]s. *)
Definition os_makedirs (p : string) (m : gmap string lnode)
  : result (gmap string lnode) :=
  if bool_decide (p = "") then Raise OSError
  else
    match m !! p with
    | Some _ => Raise OSError
    | None =>
        if existsb (is_file_at m) (ancestors p) then Raise OSError
        else Ok (make_dirs (p :: ancestors p) m)
    end.

(** [open(p, 'wb')] from inside directory [dir]: creates or truncates.  It
    fails when [dir] is no directory, when the directory part of [p] does
    not name a directory (a name that holds a slash), and when [p] is a
    directory. *)
Definition fs_open_wb (dir p : string) (m : gmap string lnode)
  : result (gmap string lnode) :=
  match m !! dir with
  | Some LDir =>
      if parent_exists p m then
        match m !! p with
        | Some LDir => Raise OSError
        | _ => Ok (<[p := LFile []]> m)
        end
      else Raise OSError
  | _ => Raise OSError
  end.

(** [f.write(data)] on the file opened at [p]. *)
Definition fs_write (p : string) (data : list byte) (m : gmap string lnode)
  : gmap string lnode :=
  match m !! p with
  | Some (LFile c) => <[p := LFile (c ++ data)]> m
  | _ => <[p := LFile data]> m
  end.

(** [os.replace(src, dst)] and [os.rename(src, dst)], POSIX semantics: one
    atomic step; a file cannot replace a directory. *)
Definition os_replace (src dst : string) (m : gmap string lnode)
  : result (gmap string lnode) :=
  match m !! src with
  | Some (LFile c) =>
      match m !! dst with
      | Some LDir => Raise OSError
      | _ => Ok (<[dst := LFile c]> (delete src m))
      end
  | _ => Raise OSError
  end.

Definition os_rename := os_replace.

(** The mutations of the local file system, as the worker issues them. *)
Inductive fs_op : Type :=
| OpMakedirs (p : string)
| OpOpen (p : string)
| OpWrite (p : string) (data : list byte)
| OpReplace (src dst : string)
| OpRename (src dst : string).

(** ** Traces *)

Inductive ftp_cmd : Type :=
| CONNECT | PWD | QUIT | CLOSE
| CWD (p : string)
| MLSD
| NLST
| SIZE (p : string)
| RETR (p : string)
| DELE (p : string).

(** The event sink.  A constructor stands for one logical event: the
    [log_message.emit] of the GUI together with the structured [log_*] call
    that accompanies it in the source. *)
Inductive event : Type :=
| MONITORING_CYCLE_START (n : Z)
| MONITORING_CYCLE_END (n : Z)
| DOWNLOAD_LOOP (e : exn)
| PERIODIC_CLEANUP
| CONNECT_START (attempt : Z)
| CONNECT_SUCCESS
| FTP_CONNECTION (e : exn) (attempt : Z)
| FTP_PERMISSION
| FTP_GENERAL_ERROR (e : exn)
| CONNECTION_RESET (failures : Z)
| MLSD_FAILED (e : exn)
| NLST_FAILED (e : exn)
| DOWNLOAD_SKIPPED (p : string) (size : Z)
| DELETE_REMOTE (p : string)
| DELETE_REMOTE_ERROR (p : string) (e : exn)
| DOWNLOAD_START (p : string)
| FILE_UNSTABLE_TIMEOUT (p : string)
| FILE_STABLE (p : string) (size : option Z)
| DOWNLOAD_COMPLETE (p : string) (size : option Z)
| DOWNLOAD_ERROR (p : string) (e : exn)
| PROCESS_DIR_ERROR (p : string) (e : exn).

(** ** The environment: FTP server, control socket, clock *)

(** Each operation takes the environment state and returns its answer and
    the next state; [Raise] is the exception the [ftplib] call raises.
    - [ftp_connect] stands for [FTP(); connect; login; set_pasv].
    - [ftp_size] answers [None] when [ftp.size] raised or returned [None];
      every call site treats the two alike.
    - [ftp_retrbinary] answers the blocks handed to the callback, each with
      the value of [stop_event.is_set()] at that call, and how the command
      ends after the last block.
    - [time_time] is the clock in whole seconds; [time_sleep] covers
      [time.sleep] and the time spent in [stop_event.wait].
    - [wait_overflows t] tells whether [stop_event.wait(t)] raises
      [OverflowError]: the event is not set and [t] is beyond
      [threading.TIMEOUT_MAX]. *)
Class FtpEnv (S : Type) : Type := {
  ftp_connect : S -> result unit * S;
  ftp_pwd : S -> result unit * S;
  ftp_quit : S -> result unit * S;
  ftp_close : S -> result unit * S;
  ftp_cwd : string -> S -> result unit * S;
  ftp_mlsd : S -> result (list item) * S;
  ftp_nlst : S -> result (list string) * S;
  ftp_size : string -> S -> option Z * S;
  ftp_retrbinary : string -> S -> (list (bool * list byte) * result unit) * S;
  ftp_delete : string -> S -> result unit * S;
  ftp_sock : S -> bool;
  time_time : S -> Z;
  time_sleep : Z -> S -> S;
  wait_overflows : Z -> S -> bool
}.

(** ** The worker *)

Definition _max_connection_failures : Z := 3.
Definition _cleanup_interval : Z := 3600.

Section Worker.

Context {S : Type} `{FtpEnv S}.

(** The attributes of [FtpWorker] set in [__init__], followed by what the
    worker acts on and the traces of what it did. *)
Record Worker : Type := mkWorker {
  settings : Settings;
  is_running : bool;
  last_download_time : Z;
  notified_no_download : bool;
  _ftp_connection : option nat;          (* the FTP object, by its serial number *)
  _connection_failures : Z;
  _last_cleanup_time : Z;
  _cycle_count : Z;
  _mlsd_supported : option bool;         (* None = unknown *)
  env : S;
  fs : gmap string lnode;
  sock_timeout : option Z;               (* last value given to sock.settimeout *)
  sessions_opened : nat;                 (* how many FTP objects were connected *)
  ftp_cmds : list ftp_cmd;               (* newest first *)
  fs_ops : list fs_op;                   (* newest first *)
  events : list event                    (* newest first *)
}.

Definition set_last_download_time (v : Z) (w : Worker) : Worker :=
  mkWorker (settings w) (is_running w) v (notified_no_download w)
    (_ftp_connection w) (_connection_failures w) (_last_cleanup_time w)
    (_cycle_count w) (_mlsd_supported w) (env w) (fs w) (sock_timeout w)
    (sessions_opened w) (ftp_cmds w) (fs_ops w) (events w).

Definition set_notified_no_download (v : bool) (w : Worker) : Worker :=
  mkWorker (settings w) (is_running w) (last_download_time w) v
    (_ftp_connection w) (_connection_failures w) (_last_cleanup_time w)
    (_cycle_count w) (_mlsd_supported w) (env w) (fs w) (sock_timeout w)
    (sessions_opened w) (ftp_cmds w) (fs_ops w) (events w).

Definition set_ftp_connection (v : option nat) (w : Worker) : Worker :=
  mkWorker (settings w) (is_running w) (last_download_time w)
    (notified_no_download w) v (_connection_failures w)
    (_last_cleanup_time w) (_cycle_count w) (_mlsd_supported w) (env w)
    (fs w) (sock_timeout w) (sessions_opened w) (ftp_cmds w) (fs_ops w)
    (events w).

Definition set_connection_failures (v : Z) (w : Worker) : Worker :=
  mkWorker (settings w) (is_running w) (last_download_time w)
    (notified_no_download w) (_ftp_connection w) v (_last_cleanup_time w)
    (_cycle_count w) (_mlsd_supported w) (env w) (fs w) (sock_timeout w)
    (sessions_opened w) (ftp_cmds w) (fs_ops w) (events w).

Definition set_last_cleanup_time (v : Z) (w : Worker) : Worker :=
  mkWorker (settings w) (is_running w) (last_download_time w)
    (notified_no_download w) (_ftp_connection w) (_connection_failures w) v
    (_cycle_count w) (_mlsd_supported w) (env w) (fs w) (sock_timeout w)
    (sessions_opened w) (ftp_cmds w) (fs_ops w) (events w).

Definition set_cycle_count (v : Z) (w : Worker) : Worker :=
  mkWorker (settings w) (is_running w) (last_download_time w)
    (notified_no_download w) (_ftp_connection w) (_connection_failures w)
    (_last_cleanup_time w) v (_mlsd_supported w) (env w) (fs w)
    (sock_timeout w) (sessions_opened w) (ftp_cmds w) (fs_ops w) (events w).

Definition set_mlsd_supported (v : option bool) (w : Worker) : Worker :=
  mkWorker (settings w) (is_running w) (last_download_time w)
    (notified_no_download w) (_ftp_connection w) (_connection_failures w)
    (_last_cleanup_time w) (_cycle_count w) v (env w) (fs w)
    (sock_timeout w) (sessions_opened w) (ftp_cmds w) (fs_ops w) (events w).

Definition set_env (v : S) (w : Worker) : Worker :=
  mkWorker (settings w) (is_running w) (last_download_time w)
    (notified_no_download w) (_ftp_connection w) (_connection_failures w)
    (_last_cleanup_time w) (_cycle_count w) (_mlsd_supported w) v (fs w)
    (sock_timeout w) (sessions_opened w) (ftp_cmds w) (fs_ops w) (events w).

Definition set_fs (v : gmap string lnode) (w : Worker) : Worker :=
  mkWorker (settings w) (is_running w) (last_download_time w)
    (notified_no_download w) (_ftp_connection w) (_connection_failures w)
    (_last_cleanup_time w) (_cycle_count w) (_mlsd_supported w) (env w) v
    (sock_timeout w) (sessions_opened w) (ftp_cmds w) (fs_ops w) (events w).

Definition set_sock_timeout (v : option Z) (w : Worker) : Worker :=
  mkWorker (settings w) (is_running w) (last_download_time w)
    (notified_no_download w) (_ftp_connection w) (_connection_failures w)
    (_last_cleanup_time w) (_cycle_count w) (_mlsd_supported w) (env w)
    (fs w) v (sessions_opened w) (ftp_cmds w) (fs_ops w) (events w).

Definition set_sessions_opened (v : nat) (w : Worker) : Worker :=
  mkWorker (settings w) (is_running w) (last_download_time w)
    (notified_no_download w) (_ftp_connection w) (_connection_failures w)
    (_last_cleanup_time w) (_cycle_count w) (_mlsd_supported w) (env w)
    (fs w) (sock_timeout w) v (ftp_cmds w) (fs_ops w) (events w).

Definition record_cmd (c : ftp_cmd) (w : Worker) : Worker :=
  mkWorker (settings w) (is_running w) (last_download_time w)
    (notified_no_download w) (_ftp_connection w) (_connection_failures w)
    (_last_cleanup_time w) (_cycle_count w) (_mlsd_supported w) (env w)
    (fs w) (sock_timeout w) (sessions_opened w) (c :: ftp_cmds w) (fs_ops w)
    (events w).

Definition record_op (o : fs_op) (w : Worker) : Worker :=
  mkWorker (settings w) (is_running w) (last_download_time w)
    (notified_no_download w) (_ftp_connection w) (_connection_failures w)
    (_last_cleanup_time w) (_cycle_count w) (_mlsd_supported w) (env w)
    (fs w) (sock_timeout w) (sessions_opened w) (ftp_cmds w) (o :: fs_ops w)
    (events w).

Definition record_event (e : event) (w : Worker) : Worker :=
  mkWorker (settings w) (is_running w) (last_download_time w)
    (notified_no_download w) (_ftp_connection w) (_connection_failures w)
    (_last_cleanup_time w) (_cycle_count w) (_mlsd_supported w) (env w)
    (fs w) (sock_timeout w) (sessions_opened w) (ftp_cmds w) (fs_ops w)
    (e :: events w).

(** *** Computations of the worker: state and exceptions *)

Definition M (A : Type) : Type := Worker -> result A * Worker.

Definition ret {A} (a : A) : M A := fun w => (Ok a, w).

Definition raise {A} (e : exn) : M A := fun w => (Raise e, w).

Definition bind {A B} (m : M A) (k : A -> M B) : M B :=
  fun w =>
    match m w with
    | (Ok a, w') => k a w'
    | (Raise e, w') => (Raise e, w')
    end.

(** [try: m  except Exception as e: h e] *)
Definition try_except {A} (m : M A) (h : exn -> M A) : M A :=
  fun w =>
    match m w with
    | (Ok a, w') => (Ok a, w')
    | (Raise e, w') => h e w'
    end.

Definition lift {A} (r : result A) : M A := fun w => (r, w).

Definition get : M Worker := fun w => (Ok w, w).

Definition modify (f : Worker -> Worker) : M unit := fun w => (Ok tt, f w).

Notation "'let*' x ':=' m 'in' k" := (bind m (fun x => k))
  (at level 10, x name, m at level 100, k at level 200).

Definition emit (e : event) : M unit := modify (record_event e).

(** A call of an [ftplib] method: the command is recorded, the environment
    answers and moves on. *)
Definition ftp_call {A} (c : ftp_cmd) (op : S -> result A * S) : M A :=
  fun w => let '(r, s) := op (env w) in (r, set_env s (record_cmd c w)).

Definition FTP_cwd (p : string) : M unit := ftp_call (CWD p) (ftp_cwd p).
Definition FTP_mlsd : M (list item) := ftp_call MLSD ftp_mlsd.
Definition FTP_nlst : M (list string) := ftp_call NLST ftp_nlst.
Definition FTP_delete (p : string) : M unit := ftp_call (DELE p) (ftp_delete p).

(** [try: x = ftp.size(p)  except Exception: x = None] *)
Definition FTP_size (p : string) : M (option Z) :=
  fun w =>
    let '(r, s) := ftp_size p (env w) in
    (Ok r, set_env s (record_cmd (SIZE p) w)).

(** A call on the local file system that may fail. *)
Definition fs_call (o : fs_op)
    (op : gmap string lnode -> result (gmap string lnode)) : M unit :=
  fun w =>
    match op (fs w) with
    | Ok m => (Ok tt, set_fs m (record_op o w))
    | Raise e => (Raise e, w)
    end.

(** *** Listing a directory ([download_dir_recursive], lines 166-197) *)

(** The [try] around [ftp.mlsd()], guarded by the cached capability. *)
Definition try_mlsd : M (list item) :=
  let* w := get in
  match _mlsd_supported w with
  | Some false => ret []
  | _ =>
      try_except
        (let* items := FTP_mlsd in
         let* _ := modify (set_mlsd_supported (Some true)) in
         ret items)
        (fun e =>
           let* _ := modify (set_mlsd_supported (Some false)) in
           let* _ := emit (MLSD_FAILED e) in
           ret [])
  end.

(** Classifying one name of the NLST answer: a name one can [cwd] into, and
    out of again, is a directory. *)
Definition probe_type (name : string) : M facts :=
  try_except
    (let* _ := FTP_cwd name in
     let* _ := FTP_cwd ".." in
     ret (mkFacts TDir NoSizeFact))
    (fun _ => ret (mkFacts TFile NoSizeFact)).

Fixpoint classify_names (names : list string) : M (list item) :=
  match names with
  | [] => ret []
  | name :: rest =>
      if is_dot name then classify_names rest
      else
        let* f := probe_type name in
        let* r := classify_names rest in
        ret ((name, f) :: r)
  end.

Definition nlst_items : M (list item) :=
  let* names :=
    try_except FTP_nlst
      (fun e => let* _ := emit (NLST_FAILED e) in ret []) in
  classify_names names.

Definition list_directory : M (list item) :=
  let* items := try_mlsd in
  match items with
  | [] => nlst_items
  | _ => ret items
  end.

(** *** The stability gate (lines 249-310) *)

(** One pass of the polling loop over [prev_size] and [stable_count], given
    the size just read. *)
Definition stability_step (prev_size : option Z) (stable_count : Z)
    (cur_size : option Z) : option Z * Z :=
  match cur_size with
  | Some c =>
      if bool_decide (prev_size = Some c) then (cur_size, stable_count + 1)
      else (cur_size, 1)
  | None => (cur_size, 0)
  end.

Definition required_stable_count : Z := 2.

(** The [while] loop (lines 285-302).  Every pass starts with the guard
    [time.time() - start_t < wait_seconds], read from the clock of the
    environment: a SIZE that takes time leaves fewer passes.  A pass that
    goes on ends with [time.sleep(check_interval)] of one second, so that
    on a clock that obeys the sleep (see [clock_obeys_sleep]) the guard
    fails after [wait_seconds] passes at the latest; [ticks], the number of
    passes still admitted, starts at that bound. *)
Fixpoint stability_loop (ticks : nat) (start_t wait_seconds : Z)
    (remote_item_path : string) (prev_size : option Z) (stable_count : Z)
  : M (bool * option Z) :=
  match ticks with
  | O => ret (false, prev_size)
  | Datatypes.S ticks' =>
      let* w := get in
      if time_time (env w) - start_t <? wait_seconds then
        let* cur_size := FTP_size remote_item_path in
        let '(prev_size', stable_count') :=
          stability_step prev_size stable_count cur_size in
        if required_stable_count <=? stable_count' then ret (true, prev_size')
        else
          let* _ := modify (fun w => set_env (time_sleep 1 (env w)) w) in
          stability_loop ticks' start_t wait_seconds remote_item_path
            prev_size' stable_count'
      else ret (false, prev_size)
  end.

(** [enable_stability] and [wait_seconds] as lines 250-255 compute them. *)
Definition stability_config (st : Settings) : bool * Z :=
  match int_get (FileStabilityWait st) 0 with
  | Ok n => (EnableFileStability st, n)
  | Raise _ => (false, 0)
  end.

(** Lines 260-273. *)
Definition initial_size (remote_item_path : string) (f : facts)
  : M (option Z) :=
  match fact_size f with
  | SizeFact n => ret (Some n)
  | BadSizeFact => ret None
  | NoSizeFact => FTP_size remote_item_path
  end.

(** The gate answers whether the download goes ahead; [false] is the
    [continue] of line 308. *)
Definition stability_gate (remote_item_path : string) (f : facts) : M bool :=
  let* w := get in
  let '(enable_stability, wait_seconds) := stability_config (settings w) in
  if enable_stability && (0 <? wait_seconds) then
    let* init := initial_size remote_item_path f in
    match init with
    | None => ret true
    | Some n =>
        let* w := get in
        let start_t := time_time (env w) in
        let* r := stability_loop (Z.to_nat wait_seconds) start_t wait_seconds
                    remote_item_path (Some n) 1 in
        if r.1 then
          let* _ := emit (FILE_STABLE remote_item_path r.2) in ret true
        else
          let* _ := emit (FILE_UNSTABLE_TIMEOUT remote_item_path) in
          ret false
    end
  else ret true.

(** *** Transferring one file (lines 312-366) *)

(** The argument of [sock.settimeout] (line 332). *)
Definition socket_timeout (per_file_timeout : Z) : Z :=
  Z.max 10 (per_file_timeout / 2).

(** Lines 328-336: the timeout is set when the control socket is there. *)
Definition set_socket_timeout (t : Z) : M unit :=
  fun w =>
    if ftp_sock (env w) then (Ok tt, set_sock_timeout (Some t) w)
    else (Ok tt, w).

(** The callback [_write_and_count]; [stop_is_set] is
    [self.stop_event.is_set()] at this call. *)
Definition _write_and_count (temp_local : string) (stop_is_set : bool)
    (data : list byte) : M unit :=
  if stop_is_set then raise InterruptedError
  else
    modify (fun w =>
      set_fs (fs_write temp_local data (fs w))
        (record_op (OpWrite temp_local data) w)).

Fixpoint deliver (callback : bool -> list byte -> M unit)
    (blocks : list (bool * list byte)) : M unit :=
  match blocks with
  | [] => ret tt
  | (stop_is_set, data) :: rest =>
      let* _ := callback stop_is_set data in
      deliver callback rest
  end.

(** [ftp.retrbinary(f'RETR {p}', callback)]: an exception of the callback
    leaves through [retrbinary]. *)
Definition FTP_retrbinary (p : string)
    (callback : bool -> list byte -> M unit) : M unit :=
  fun w =>
    let '((blocks, final), s) := ftp_retrbinary p (env w) in
    (let* _ := deliver callback blocks in lift final)
      (set_env s (record_cmd (RETR p) w)).

(** Lines 313-345: the [with open(temp_local, 'wb')] block. *)
Definition retrieve_to_temp (remote_item_path local_path local_item_path
    : string) : M unit :=
  let temp_local := temp_path local_item_path in
  let* _ := fs_call (OpOpen temp_local) (fs_open_wb local_path temp_local) in
  let* w := get in
  let* t := lift (int_get (per_file_timeout (settings w)) 120) in
  let* _ := set_socket_timeout (socket_timeout t) in
  FTP_retrbinary remote_item_path (_write_and_count temp_local).

(** Lines 346-351. *)
Definition publish (local_item_path : string) : M unit :=
  let temp_local := temp_path local_item_path in
  try_except
    (fs_call (OpReplace temp_local local_item_path)
       (os_replace temp_local local_item_path))
    (fun _ =>
       fs_call (OpRename temp_local local_item_path)
         (os_rename temp_local local_item_path)).

(** [ftp.delete] with its own handler (lines 234-240 and 360-366). *)
Definition delete_remote (remote_item_path : string) : M unit :=
  try_except
    (let* _ := FTP_delete remote_item_path in
     emit (DELETE_REMOTE remote_item_path))
    (fun e => emit (DELETE_REMOTE_ERROR remote_item_path e)).

(** The local variables of one call of [download_dir_recursive] that the
    loop over the items updates. *)
Record loop_state : Type := mkLoop {
  count : Z;
  skip_logs_shown : Z;
  skip_total : Z
}.

Definition add_count (n : Z) (ls : loop_state) : loop_state :=
  mkLoop (count ls + n) (skip_logs_shown ls) (skip_total ls).

(** Lines 352-366: what follows the rename. *)
Definition after_publish (ls : loop_state)
    (remote_item_path local_item_path : string) : M loop_state :=
  let* w := get in
  let size := match os_path_getsize local_item_path (fs w) with
              | Ok n => Some n
              | Raise _ => None
              end in
  let* _ := emit (DOWNLOAD_COMPLETE remote_item_path size) in
  let* _ := (if delete_after_download (settings w)
             then delete_remote remote_item_path else ret tt) in
  ret (add_count 1 ls).

(** Lines 312-366. *)
Definition transfer_file (ls : loop_state)
    (remote_item_path local_path local_item_path : string) : M loop_state :=
  let* _ := retrieve_to_temp remote_item_path local_path local_item_path in
  let* _ := publish local_item_path in
  after_publish ls remote_item_path local_item_path.

(** Lines 246-369: the download of a file that was not skipped. *)
Definition download_file (ls : loop_state) (f : facts)
    (remote_item_path local_path local_item_path : string) : M loop_state :=
  let* _ := emit (DOWNLOAD_START remote_item_path) in
  try_except
    (let* go := stability_gate remote_item_path f in
     if go then transfer_file ls remote_item_path local_path local_item_path
     else ret ls)
    (fun e =>
       let* _ := emit (DOWNLOAD_ERROR remote_item_path e) in ret ls).

(** *** The skip decision (lines 213-244) *)

(** The test of lines 222-224, once the remote size is known; an error of
    [os.path.getsize] means "not downloaded yet" (line 242). *)
Definition local_size_matches (local_item_path : string) (remote_size : Z)
    (m : gmap string lnode) : bool :=
  os_path_exists local_item_path m &&
  match os_path_getsize local_item_path m with
  | Ok local_size => local_size =? remote_size
  | Raise _ => false
  end.

(** Lines 225-241: the file is there already. *)
Definition skip_file (skip_log_limit : Z) (ls : loop_state)
    (remote_item_path : string) (remote_size : Z) : M loop_state :=
  let shown := skip_logs_shown ls <? skip_log_limit in
  let* _ := (if shown then emit (DOWNLOAD_SKIPPED remote_item_path remote_size)
             else ret tt) in
  let* w := get in
  let* _ := (if delete_after_download (settings w)
             then delete_remote remote_item_path else ret tt) in
  ret (mkLoop (count ls)
         (if shown then skip_logs_shown ls + 1 else skip_logs_shown ls)
         (skip_total ls + 1)).

Definition process_file (skip_log_limit : Z) (ls : loop_state) (f : facts)
    (remote_item_path local_path local_item_path : string) : M loop_state :=
  let* remote_size := FTP_size remote_item_path in
  let* w := get in
  match remote_size with
  | Some rs =>
      if local_size_matches local_item_path rs (fs w)
      then skip_file skip_log_limit ls remote_item_path rs
      else download_file ls f remote_item_path local_path local_item_path
  | None => download_file ls f remote_item_path local_path local_item_path
  end.

(** *** The traversal *)

(** The body of the [for] loop; [self] is the recursive call. *)
Definition process_item (self : string -> string -> M Z)
    (skip_log_limit : Z) (remote_path local_path : string)
    (ls : loop_state) (it : item) : M loop_state :=
  let '(name, f) := it in
  if is_dot name then ret ls
  else
    let remote_item_path := remote_join remote_path name in
    let local_item_path := os_path_join local_path name in
    match fact_type f with
    | TDir =>
        let* n := self remote_item_path local_item_path in
        ret (add_count n ls)
    | TFile =>
        process_file skip_log_limit ls f remote_item_path local_path
          local_item_path
    | TOther => ret ls
    end.

(** The [for] loop: an exception of the body ends it, with the local
    variables as they were before the failing pass. *)
Fixpoint items_loop (self : string -> string -> M Z) (skip_log_limit : Z)
    (remote_path local_path : string) (ls : loop_state) (items : list item)
  : Worker -> (loop_state * option exn) * Worker :=
  fun w =>
    match items with
    | [] => ((ls, None), w)
    | it :: rest =>
        match process_item self skip_log_limit remote_path local_path ls it w
        with
        | (Ok ls', w') =>
            items_loop self skip_log_limit remote_path local_path ls' rest w'
        | (Raise e, w') => ((ls, Some e), w')
        end
    end.

(** Lines 163-202: up to the start of the loop. *)
Definition enter_directory (remote_path local_path : string)
  : M (list item * Z) :=
  let* _ := FTP_cwd remote_path in
  let* w := get in
  let* _ := (if os_path_exists local_path (fs w) then ret tt
             else fs_call (OpMakedirs local_path) (os_makedirs local_path)) in
  let* items := list_directory in
  let* w := get in
  let* lim := lift (int_get (skip_log_limit (settings w)) 5) in
  ret (items, lim).

Definition init_loop : loop_state := mkLoop 0 0 0.

(** One call of [download_dir_recursive], given the recursive call: the
    outer handler (line 370) turns every exception into a log entry, and
    the count so far is returned. *)
Definition dir_body (self : string -> string -> M Z)
    (remote_path local_path : string) : Worker -> Z * Worker :=
  fun w =>
    match enter_directory remote_path local_path w with
    | (Raise e, w1) => (0, record_event (PROCESS_DIR_ERROR remote_path e) w1)
    | (Ok (items, lim), w1) =>
        match items_loop self lim remote_path local_path init_loop items w1
        with
        | ((ls, None), w2) => (count ls, w2)
        | ((ls, Some e), w2) =>
            (count ls, record_event (PROCESS_DIR_ERROR remote_path e) w2)
        end
    end.

(** [download_dir_recursive].  The remote tree is the server's to define
    and may be of any depth; [depth] is the number of nested calls the
    interpreter's stack still admits, and the call that exceeds it raises
    [RecursionError] in its caller. *)
Fixpoint download_dir_recursive (depth : nat)
    (remote_path local_path : string) : M Z :=
  match depth with
  | O => raise RecursionError
  | Datatypes.S depth' =>
      fun w =>
        let '(n, w') :=
          dir_body (download_dir_recursive depth') remote_path local_path w in
        (Ok n, w')
  end.

(** *** The session *)

(** [_cleanup_connections]: [quit], else [close], and the connection is
    forgotten in any case. *)
Definition _cleanup_connections : M unit :=
  let* w := get in
  match _ftp_connection w with
  | Some _ =>
      let* _ :=
        try_except (ftp_call QUIT ftp_quit)
          (fun _ => try_except (ftp_call CLOSE ftp_close) (fun _ => ret tt)) in
      modify (set_ftp_connection None)
  | None => ret tt
  end.

(** [_reset_connections] *)
Definition _reset_connections : M unit :=
  let* w := get in
  let* _ := emit (CONNECTION_RESET (_connection_failures w)) in
  let* _ := _cleanup_connections in
  modify (set_connection_failures 0).

(** The body of the [try] of one attempt in
    [_get_or_create_ftp_connection]. *)
Definition connect_attempt (attempt : Z) : M nat :=
  let* w := get in
  let* alive :=
    match _ftp_connection w with
    | Some c =>
        try_except
          (let* _ := ftp_call PWD ftp_pwd in ret (Some c))
          (fun _ => let* _ := _cleanup_connections in ret None)
    | None => ret None
    end in
  match alive with
  | Some c => ret c
  | None =>
      let* _ := emit (CONNECT_START (attempt + 1)) in
      let* _ := ftp_call CONNECT ftp_connect in
      let* w := get in
      let c := sessions_opened w in
      let* _ := modify (fun w =>
                  set_sessions_opened (Datatypes.S c)
                    (set_ftp_connection (Some c) w)) in
      ret c
  end.

Definition max_retries : Z := 3.

(** The [for attempt in range(max_retries)] loop, over the attempts left. *)
Fixpoint connect_loop (attempts : list Z) : M (option nat) :=
  match attempts with
  | [] => ret None
  | attempt :: rest =>
      try_except
        (let* c := connect_attempt attempt in ret (Some c))
        (fun e =>
           let* _ := emit (FTP_CONNECTION e (attempt + 1)) in
           let* _ := (if attempt <? max_retries - 1
                      then modify (fun w => set_env (time_sleep 5 (env w)) w)
                      else ret tt) in
           connect_loop rest)
  end.

Definition _get_or_create_ftp_connection : M (option nat) :=
  connect_loop [0; 1; 2].

(** [settings[k]] of a key that may be missing. *)
Definition setting {A} (v : option A) : M A :=
  match v with
  | Some a => ret a
  | None => raise KeyError
  end.

(** [perform_ftp_download]: both handlers release the session at once. *)
Definition perform_ftp_download (depth : nat) : Worker -> Z * Worker :=
  fun w =>
    let body : M Z :=
      let* ftp := _get_or_create_ftp_connection in
      match ftp with
      | None => ret 0
      | Some _ =>
          let* _ := emit CONNECT_SUCCESS in
          let* w := get in
          let* rp := setting (remote_path (settings w)) in
          let* lp := setting (local_path (settings w)) in
          download_dir_recursive depth rp lp
      end in
    match body w with
    | (Ok download_count, w') => (download_count, w')
    | (Raise error_perm, w') =>
        (0, snd ((let* _ := emit FTP_PERMISSION in _reset_connections) w'))
    | (Raise e, w') =>
        (0, snd ((let* _ := emit (FTP_GENERAL_ERROR e) in
                  _reset_connections) w'))
    end.

(** [_perform_periodic_cleanup] *)
Definition _perform_periodic_cleanup : M unit :=
  let* w := get in
  let current_time := time_time (env w) in
  if _cleanup_interval <=? current_time - _last_cleanup_time w then
    let* _ := emit PERIODIC_CLEANUP in
    let* _ := _cleanup_connections in
    modify (set_last_cleanup_time current_time)
  else ret tt.

(** [self.stop_event.wait(timeout)] *)
Definition stop_event_wait (timeout : Z) : M unit :=
  fun w =>
    if wait_overflows timeout (env w) then (Raise OverflowError, w)
    else (Ok tt, set_env (time_sleep timeout (env w)) w).

(** The [try] block of one pass of the loop of [run]. *)
Definition cycle_body (depth : nat) : M unit :=
  let* _ := modify (fun w => set_cycle_count (_cycle_count w + 1) w) in
  let* w := get in
  let* interval_seconds := lift (int_get (interval (settings w)) 60) in
  let* _ := emit (MONITORING_CYCLE_START (_cycle_count w)) in
  let* n := (fun w => let '(n, w') := perform_ftp_download depth w in
                      (Ok n, w')) in
  let* _ := (if 0 <? n then
               modify (fun w =>
                 set_connection_failures 0
                   (set_notified_no_download false
                      (set_last_download_time (time_time (env w)) w)))
             else ret tt) in
  let* _ := emit (MONITORING_CYCLE_END (_cycle_count w)) in
  let* _ := _perform_periodic_cleanup in
  stop_event_wait interval_seconds.

(** The handler of that [try] (lines 81-91).  Its wait of 60 seconds is
    within the range of every platform and does not raise. *)
Definition cycle_handler (e : exn) : M unit :=
  let* _ := modify (fun w =>
              set_connection_failures (_connection_failures w + 1) w) in
  let* _ := emit (DOWNLOAD_LOOP e) in
  let* w := get in
  let* _ := (if _max_connection_failures <=? _connection_failures w
             then _reset_connections else ret tt) in
  modify (fun w => set_env (time_sleep 60 (env w)) w).

(** One pass of the [while self.is_running] loop of [run], up to its
    [finally] clause: the call of the notification policy that this clause
    makes is added in [run_pass]. *)
Definition run_cycle (depth : nat) (w : Worker) : Worker :=
  snd (try_except (cycle_body depth) cycle_handler w).

(** *** Vocabulary of the statements *)

(** [m] never takes the worker from [w] to a state outside [R w]. *)
Definition preserves {A} (R : Worker -> Worker -> Prop) (m : M A) : Prop :=
  forall w, R w (snd (m w)).

(** [m] always returns normally. *)
Definition never_raises {A} (m : M A) : Prop :=
  forall w, exists a, fst (m w) = Ok a.

(** An attribute of the worker has the same value in [w] and [w']. *)
Definition unchanged {B} (proj : Worker -> B) (w w' : Worker) : Prop :=
  proj w' = proj w.

(** The FTP commands sent on the way from [w] to [w'], newest first. *)
Definition cmds_since (w w' : Worker) (new : list ftp_cmd) : Prop :=
  ftp_cmds w' = new ++ ftp_cmds w.

(** Commands were sent, none was taken back. *)
Definition cmds_grow (w w' : Worker) : Prop :=
  exists new, cmds_since w w' new.

(** The events logged on the way from [w] to [w'], newest first. *)
Definition events_since (w w' : Worker) (new : list event) : Prop :=
  events w' = new ++ events w.

Definition stays_fallback (w w' : Worker) : Prop :=
  _mlsd_supported w = Some false ->
  _mlsd_supported w' = Some false /\
  exists new, cmds_since w w' new /\ MLSD ∉ new.

(** What a recorded operation does to the file system. *)
Definition apply_op (o : fs_op) (m : gmap string lnode) : gmap string lnode :=
  match o with
  | OpMakedirs p => make_dirs (p :: ancestors p) m
  | OpOpen p => <[p := LFile []]> m
  | OpWrite p data => fs_write p data m
  | OpReplace src dst | OpRename src dst =>
      match os_replace src dst m with
      | Ok m' => m'
      | Raise _ => m
      end
  end.

Definition replay (new : list fs_op) (m : gmap string lnode)
  : gmap string lnode :=
  foldr apply_op m new.

(** Files are written at temporary paths only, and a path that is not
    temporary receives a file only by a rename of its temporary file. *)
Definition temp_discipline (o : fs_op) : Prop :=
  match o with
  | OpMakedirs _ => True
  | OpOpen p | OpWrite p _ => exists d, p = temp_path d
  | OpReplace src dst | OpRename src dst => src = temp_path dst
  end.

(** From [w] to [w'] the file system changed by the recorded operations and
    by nothing else, and each of them keeps the discipline. *)
Definition writes_via_temp (w w' : Worker) : Prop :=
  exists new,
    fs_ops w' = new ++ fs_ops w /\
    fs w' = replay new (fs w) /\
    Forall temp_discipline new.

(** A relation between the states before and after that every step of the
    traversal respects.  The MLSD step is given as a whole, since it is the
    only one that touches the capability flag. *)
Record walk_invariant (R : Worker -> Worker -> Prop) : Prop := {
  wi_preorder : PreOrder R;
  wi_cmd : forall w s c, c <> MLSD -> R w (set_env s (record_cmd c w));
  wi_sleep : forall w d, R w (set_env (time_sleep d (env w)) w);
  wi_event : forall w e, R w (record_event e w);
  wi_sock : forall w t, R w (set_sock_timeout t w);
  wi_fs : forall w o, temp_discipline o ->
            R w (set_fs (apply_op o (fs w)) (record_op o w));
  wi_mlsd : preserves R try_mlsd
}.

(** On the way from [w] to [w'] only [SIZE p] was sent. *)
Definition only_size_cmds (p : string) (w w' : Worker) : Prop :=
  exists new, cmds_since w w' new /\ Forall (fun c => c = SIZE p) new.

(** The failure counter after is the counter before, or zero. *)
Definition kept_or_zero (w w' : Worker) : Prop :=
  _connection_failures w' = _connection_failures w \/
  _connection_failures w' = 0.

(** The interval setting of [w] is a number, or absent, and in no state
    does the wait that ends a pass overflow on it. *)
Definition interval_accepted (w : Worker) : Prop :=
  exists i, int_get (interval (settings w)) 60 = Ok i /\
            forall s, wait_overflows i s = false.

(** The interval setting of [w] is a number on which that wait overflows
    in every state. *)
Definition interval_overflows (w : Worker) : Prop :=
  exists i, int_get (interval (settings w)) 60 = Ok i /\
            forall s, wait_overflows i s = true.

(** The state in which one pass of [run] calls [perform_ftp_download]. *)
Definition at_download (w : Worker) : Worker :=
  record_event (MONITORING_CYCLE_START (_cycle_count w + 1))
    (set_cycle_count (_cycle_count w + 1) w).

(** What the loop body does before the wait that ends it. *)
Definition before_wait (depth : nat) (w : Worker) : Worker :=
  let w1 := snd (perform_ftp_download depth (at_download w)) in
  let w2 :=
    if 0 <? fst (perform_ftp_download depth (at_download w)) then
      set_connection_failures 0
        (set_notified_no_download false
           (set_last_download_time (time_time (env w1)) w1))
    else w1 in
  snd (_perform_periodic_cleanup
         (record_event (MONITORING_CYCLE_END (_cycle_count w + 1)) w2)).

(** The sizes that the polls of a wait window read which was opened at
    time [start_t], from environment state [s] on, were none of them to end
    the polling: a poll is made while the guard of the loop holds. *)
Fixpoint poll_reads (ticks : nat) (start_t wait_seconds : Z) (p : string)
    (s : S) : list (option Z) :=
  match ticks with
  | O => []
  | Datatypes.S ticks' =>
      if time_time s - start_t <? wait_seconds then
        let '(r, s') := ftp_size p s in
        r :: poll_reads ticks' start_t wait_seconds p (time_sleep 1 s')
      else []
  end.

(** The same for the window that the gate opens in state [s]. *)
Definition window_reads (wait_seconds : Z) (p : string) (s : S)
  : list (option Z) :=
  poll_reads (Z.to_nat wait_seconds) (time_time s) wait_seconds p s.

(** A sleep of one second takes the clock at least one second further, and
    a SIZE command does not take it back. *)
Definition clock_obeys_sleep : Prop :=
  (forall s, time_time s + 1 <= time_time (time_sleep 1 s)) /\
  (forall p s, time_time s <= time_time (snd (ftp_size p s))).

End Worker.

(** The states of the polling loop that the gate reaches: the counter is
    one with a last size, or zero without. *)
Definition loop_state_ok (prev : option Z) (cnt : Z) : Prop :=
  (cnt = 1 /\ is_Some prev) \/ (cnt = 0 /\ prev = None).

(** Two successive reads that succeeded and agree. *)
Definition consecutive_equal (l : list (option Z)) : Prop :=
  exists i c, l !! i = Some (Some c) /\ l !! (Datatypes.S i) = Some (Some c).

(** The bytes that reach the temporary file: those of the blocks before the
    first one at which the stop request is seen. *)
Fixpoint written (blocks : list (bool * list byte)) : list byte :=
  match blocks with
  | [] => []
  | (stop_is_set, data) :: rest =>
      if stop_is_set then [] else data ++ written rest
  end.

(** The stream ends in an exception: a stop request at some block, or an
    error of the command itself. *)
Definition stream_fails (blocks : list (bool * list byte))
    (final : result unit) : bool :=
  existsb fst blocks ||
  match final with
  | Ok _ => false
  | Raise _ => true
  end.

(** The exception with which it ends. *)
Definition stream_error (blocks : list (bool * list byte))
    (final : result unit) : option exn :=
  if existsb fst blocks then Some InterruptedError
  else match final with
       | Ok _ => None
       | Raise e => Some e
       end.

Definition is_mlsd (c : ftp_cmd) : bool :=
  match c with
  | MLSD => true
  | _ => false
  end.

(** The number of MLSD commands in a trace. *)
Definition mlsd_sent (l : list ftp_cmd) : nat :=
  length (List.filter is_mlsd l).

Definition is_retr (c : ftp_cmd) : bool :=
  match c with
  | RETR _ => true
  | _ => false
  end.

Definition is_loop_error (e : event) : bool :=
  match e with
  | DOWNLOAD_LOOP _ => true
  | _ => false
  end.

(** The number of errors the scheduler's handler logged. *)
Definition loop_errors (l : list event) : nat :=
  length (List.filter is_loop_error l).

Definition is_skip_event (e : event) : bool :=
  match e with
  | DOWNLOAD_SKIPPED _ _ => true
  | _ => false
  end.

(** The number of "skipping" events in a log. *)
Definition skip_events (l : list event) : nat :=
  length (List.filter is_skip_event l).

(** ** A simulated server

    The remote side as a tree of files and directories, with switches for
    the failures the worker has to cope with. *)

#[warnings="-register-all"]
Inductive rnode : Type :=
| RFile (content : list byte)
| RDir (children : list (string * rnode)).

Fixpoint find_child (name : string) (cs : list (string * rnode))
  : option rnode :=
  match cs with
  | [] => None
  | (n, t) :: rest => if bool_decide (n = name) then Some t
                      else find_child name rest
  end.

Fixpoint lookup_node (t : rnode) (comps : list string) : option rnode :=
  match comps with
  | [] => Some t
  | c :: rest =>
      match t with
      | RDir cs =>
          match find_child c cs with
          | Some t' => lookup_node t' rest
          | None => None
          end
      | RFile _ => None
      end
  end.

Fixpoint remove_child (name : string) (cs : list (string * rnode))
  : list (string * rnode) :=
  match cs with
  | [] => []
  | (n, t) :: rest => if bool_decide (n = name) then rest
                      else (n, t) :: remove_child name rest
  end.

Fixpoint update_child (name : string) (f : rnode -> rnode)
    (cs : list (string * rnode)) : list (string * rnode) :=
  match cs with
  | [] => []
  | (n, t) :: rest => if bool_decide (n = name) then (n, f t) :: rest
                      else (n, t) :: update_child name f rest
  end.

(** Removing the node at [comps] (the answer to DELE). *)
Fixpoint remove_node (comps : list string) (t : rnode) : rnode :=
  match comps, t with
  | [c], RDir cs => RDir (remove_child c cs)
  | c :: rest, RDir cs => RDir (update_child c (remove_node rest) cs)
  | _, _ => t
  end.

(** The components of a path: the non-empty pieces between slashes. *)
Definition split_path (s : string) : list string :=
  filter (fun c => c ≠ EmptyString) (split_raw s).

Record Sim : Type := mkSim {
  tree : rnode;                   (* what is at "/" *)
  sim_cwd : list string;          (* the current directory *)
  clock : Z;
  connect_ok : bool;              (* the server accepts connections *)
  mlsd_ok : bool;                 (* the server knows MLSD *)
  size_ok : bool;                 (* the server knows SIZE *)
  retr_blocks : option nat;       (* RETR breaks off after that many blocks *)
  stop_after : option nat;        (* a stop request arrives after that many *)
  growth : Z;                     (* bytes per second a producer still adds:
                                     SIZE reports them, RETR does not *)
  size_delay : nat                (* seconds the answer to SIZE takes *)
}.

Definition sim_with_tree (t : rnode) (s : Sim) : Sim :=
  mkSim t (sim_cwd s) (clock s) (connect_ok s) (mlsd_ok s) (size_ok s)
    (retr_blocks s) (stop_after s) (growth s) (size_delay s).

Definition sim_with_cwd (d : list string) (s : Sim) : Sim :=
  mkSim (tree s) d (clock s) (connect_ok s) (mlsd_ok s) (size_ok s)
    (retr_blocks s) (stop_after s) (growth s) (size_delay s).

Definition sim_with_clock (c : Z) (s : Sim) : Sim :=
  mkSim (tree s) (sim_cwd s) c (connect_ok s) (mlsd_ok s) (size_ok s)
    (retr_blocks s) (stop_after s) (growth s) (size_delay s).

(** The directory a path names, seen from the current directory. *)
Definition resolve (s : Sim) (p : string) : list string :=
  if bool_decide (p = "..") then removelast (sim_cwd s)
  else if starts_with_slash p then split_path p
  else sim_cwd s ++ split_path p.

Definition sim_cwd_cmd (p : string) (s : Sim) : result unit * Sim :=
  match lookup_node (tree s) (resolve s p) with
  | Some (RDir _) => (Ok tt, sim_with_cwd (resolve s p) s)
  | _ => (Raise error_perm, s)
  end.

Definition facts_of (t : rnode) : facts :=
  match t with
  | RFile c => mkFacts TFile (SizeFact (Z.of_nat (length c)))
  | RDir _ => mkFacts TDir NoSizeFact
  end.

Definition sim_children (s : Sim) : list (string * rnode) :=
  match lookup_node (tree s) (sim_cwd s) with
  | Some (RDir cs) => cs
  | _ => []
  end.

Definition sim_mlsd (s : Sim) : result (list item) * Sim :=
  if mlsd_ok s
  then (Ok (map (fun c => (c.1, facts_of c.2)) (sim_children s)), s)
  else (Raise error_perm, s).

Definition sim_nlst (s : Sim) : result (list string) * Sim :=
  (Ok (map fst (sim_children s)), s).

(** SIZE is answered [size_delay] seconds after it was sent, with the
    size the file has by then. *)
Definition sim_size (p : string) (s : Sim) : option Z * Sim :=
  let s' := sim_with_clock (clock s + Z.of_nat (size_delay s)) s in
  match lookup_node (tree s) (resolve s p) with
  | Some (RFile c) =>
      if size_ok s
      then (Some (Z.of_nat (length c) + growth s * clock s'), s')
      else (None, s')
  | _ => (None, s')
  end.

(** The blocks of a RETR: one byte each, the stop request seen from block
    [stop_after] on. *)
Fixpoint blocks_from (i : nat) (stop : option nat) (c : list byte)
  : list (bool * list byte) :=
  match c with
  | [] => []
  | b :: r =>
      (match stop with Some k => bool_decide (k ≤ i)%nat | None => false end,
       [b]) :: blocks_from (Datatypes.S i) stop r
  end.

Definition sim_retr (p : string) (s : Sim)
  : (list (bool * list byte) * result unit) * Sim :=
  match lookup_node (tree s) (resolve s p) with
  | Some (RFile c) =>
      match retr_blocks s with
      | Some k => ((take k (blocks_from 0 (stop_after s) c),
                    Raise error_temp), s)
      | None => ((blocks_from 0 (stop_after s) c, Ok tt), s)
      end
  | _ => (([], Raise error_perm), s)
  end.

Definition sim_delete (p : string) (s : Sim) : result unit * Sim :=
  match lookup_node (tree s) (resolve s p) with
  | Some (RFile _) =>
      (Ok tt, sim_with_tree (remove_node (resolve s p) (tree s)) s)
  | _ => (Raise error_perm, s)
  end.

Definition sim_connect (s : Sim) : result unit * Sim :=
  if connect_ok s then (Ok tt, sim_with_cwd [] s)
  else (Raise error_temp, s).

(** [threading.TIMEOUT_MAX] of CPython on 64-bit Linux. *)
Definition TIMEOUT_MAX : Z := 9223372036.

#[export] Instance sim_env : FtpEnv Sim := {|
  ftp_connect := sim_connect;
  ftp_pwd := fun s => (Ok tt, s);
  ftp_quit := fun s => (Ok tt, s);
  ftp_close := fun s => (Ok tt, s);
  ftp_cwd := sim_cwd_cmd;
  ftp_mlsd := sim_mlsd;
  ftp_nlst := sim_nlst;
  ftp_size := sim_size;
  ftp_retrbinary := sim_retr;
  ftp_delete := sim_delete;
  ftp_sock := fun _ => true;
  time_time := clock;
  time_sleep := fun d s => sim_with_clock (clock s + Z.max 0 d) s;
  wait_overflows := fun t _ => TIMEOUT_MAX <? t
|}.

Definition good_server (t : rnode) : Sim :=
  mkSim t [] 0 true true true None None 0 0%nat.

Definition plain_settings (rp lp : string) : Settings :=
  mkSettings (Some rp) (Some lp) Unset Unset Unset false Unset false.

(** A worker as [__init__] leaves it, at time [now]. *)
Definition new_worker {S : Type} `{FtpEnv S} (st : Settings) (s : S)
    (m : gmap string lnode) : Worker :=
  mkWorker st false (time_time s) false None 0 (time_time s) 0 None s m None
    O [] [] [].


(** ** Concrete runs *)

Definition bytes (n : nat) : list byte := repeat x00 n.

(** One remote directory [/data] with one file of three bytes. *)
Definition one_file_tree : rnode :=
  RDir [("data", RDir [("a.txt", RFile [x61; x62; x63])])].

Definition local_dir (p : string) : gmap string lnode := {[ p := LDir ]}.

(** A worker configured with a per-file timeout of 21 seconds. *)
Definition timeout_worker : @Worker Sim :=
  new_worker
    (mkSettings (Some "/data") (Some "local") Unset Unset (IntVal 21) false
       Unset false)
    (good_server one_file_tree) (local_dir "local").

(** A server without MLSD. *)
Definition fallback_server (t : rnode) : Sim :=
  mkSim t [] 0 true false true None None 0 0%nat.

(** The session of a first cycle against a server without MLSD, its
    teardown, and the session of the next cycle. *)
Definition first_session : @Worker Sim :=
  run_cycle 10
    (new_worker (plain_settings "/data" "local")
       (fallback_server one_file_tree) ∅).

Definition torn_down : @Worker Sim := snd (_cleanup_connections first_session).

Definition second_session : @Worker Sim := run_cycle 10 torn_down.

(** A server whose only directory is empty. *)
Definition empty_dir_worker : @Worker Sim :=
  new_worker (plain_settings "/" "local") (good_server (RDir [])) ∅.

(** A server that refuses every connection. *)
Definition refusing_server (t : rnode) : Sim :=
  mkSim t [] 0 false true true None None 0 0%nat.

Definition refused_worker : @Worker Sim :=
  new_worker (plain_settings "/data" "local") (refusing_server one_file_tree) ∅.

(** A worker whose configured remote root does not exist on the server:
    the top-level [cwd] is answered with a 550. *)
Definition no_root_worker : @Worker Sim :=
  new_worker (plain_settings "/nowhere" "local") (good_server one_file_tree) ∅.

(** A worker whose interval setting is not a number. *)
Definition bad_interval_worker : @Worker Sim :=
  new_worker
    (mkSettings (Some "/data") (Some "local") NotInt Unset Unset false Unset
       false)
    (good_server one_file_tree) ∅.

(** Two remote directories with two files each, all of them already
    mirrored locally, and a skip-log limit of one. *)
Definition two_dir_data : list (string * rnode) :=
  [("f1", RFile [x61]); ("f2", RFile [x62]);
   ("sub", RDir [("g1", RFile [x63]); ("g2", RFile [x64])])].

Definition two_dir_tree : rnode := RDir [("data", RDir two_dir_data)].

Definition mirrored_fs : gmap string lnode :=
  <["local" := LDir]>
  (<["local/f1" := LFile [x61]]>
  (<["local/f2" := LFile [x62]]>
  (<["local/sub" := LDir]>
  (<["local/sub/g1" := LFile [x63]]>
  (<["local/sub/g2" := LFile [x64]]> ∅))))).

Definition throttled_worker : @Worker Sim :=
  new_worker
    (mkSettings (Some "/data") (Some "local") Unset (IntVal 1) Unset false
       Unset false)
    (good_server two_dir_tree) mirrored_fs.

(** A server on which the file is still being written: its size grows by
    one byte per second. *)
Definition growing_server (t : rnode) : Sim :=
  mkSim t [] 0 true true true None None 1 0%nat.

(** Settings with the stability gate on, waiting up to three seconds. *)
Definition gated_settings : Settings :=
  mkSettings (Some "/data") (Some "local") Unset Unset Unset true (IntVal 3)
    false.

Definition growing_worker : @Worker Sim :=
  new_worker gated_settings (growing_server one_file_tree) (local_dir "local").

Definition plain_file : facts := mkFacts TFile NoSizeFact.

(** The entry of an extended listing taken when the file had two bytes. *)
Definition stale_facts : facts := mkFacts TFile (SizeFact 2).

(** A server on which RETR breaks off after two blocks, and one on which
    the transfer goes well but a stop request arrives after the first
    block. *)
Definition breaking_server (t : rnode) : Sim :=
  mkSim t [] 0 true true true (Some 2%nat) None 0 0%nat.

Definition stopping_server (t : rnode) : Sim :=
  mkSim t [] 0 true true true None (Some 1%nat) 0 0%nat.

Definition breaking_worker : @Worker Sim :=
  new_worker (plain_settings "/data" "local") (breaking_server one_file_tree) ∅.

Definition stopping_worker : @Worker Sim :=
  new_worker (plain_settings "/data" "local") (stopping_server one_file_tree) ∅.

(** The state in which the file of [one_file_tree] is about to be streamed
    from the breaking server: connected, in [/data], [local] created. *)
Definition breaking_at_file : @Worker Sim :=
  snd (enter_directory "/data" "local"
         (snd (_get_or_create_ftp_connection breaking_worker))).

(** A server without SIZE, and a local copy of the file that is one byte
    long. *)
Definition sizeless_server (t : rnode) : Sim :=
  mkSim t [] 0 true true false None None 0 0%nat.

Definition stale_local : gmap string lnode :=
  <["local" := LDir]> (<["local/a.txt" := LFile [x00]]> ∅).

Definition sizeless_worker : @Worker Sim :=
  new_worker (plain_settings "/data" "local") (sizeless_server one_file_tree)
    stale_local.

Definition sizeless_at_file : @Worker Sim :=
  snd (enter_directory "/data" "local"
         (snd (_get_or_create_ftp_connection sizeless_worker))).

(** The same with the stability gate on. *)
Definition gated_sizeless_worker : @Worker Sim :=
  new_worker gated_settings (sizeless_server one_file_tree) stale_local.

(** The entry of the extended listing for the file of [one_file_tree]. *)
Definition listed_facts : facts := mkFacts TFile (SizeFact 3).

Definition two_blocks : list (bool * list byte) :=
  [(false, [x61]); (false, [x62])].

Definition three_blocks : list (bool * list byte) :=
  [(false, [x61]); (false, [x62]); (false, [x63])].

(** A worker in front of [two_dir_tree] with nothing downloaded yet. *)
Definition fresh_worker : @Worker Sim :=
  new_worker (plain_settings "/data" "local") (good_server two_dir_tree) ∅.







(** A server whose answer to SIZE takes two seconds. *)
Definition slow_server (t : rnode) : Sim :=
  mkSim t [] 0 true true true None None 0 2%nat.

Definition slow_worker : @Worker Sim :=
  new_worker gated_settings (slow_server one_file_tree) (local_dir "local").

(** The same file on a server that answers at once. *)
Definition settled_worker : @Worker Sim :=
  new_worker gated_settings (good_server one_file_tree) (local_dir "local").

(** An interval setting that no wait accepts. *)
Definition huge_interval_worker : @Worker Sim :=
  new_worker
    (mkSettings (Some "/data") (Some "local") (IntVal (10 ^ 30)) Unset Unset
       false Unset false)
    (good_server one_file_tree) ∅.

(** ** More vocabulary: counting commands and events *)

Definition is_connect (c : ftp_cmd) : bool :=
  match c with
  | CONNECT => true
  | _ => false
  end.

(** The number of connection attempts in a trace. *)
Definition connects (l : list ftp_cmd) : nat :=
  length (List.filter is_connect l).

Definition is_dele (c : ftp_cmd) : bool :=
  match c with
  | DELE _ => true
  | _ => false
  end.

Definition is_complete (e : event) : bool :=
  match e with
  | DOWNLOAD_COMPLETE _ _ => true
  | _ => false
  end.

(** The number of completed downloads in a log. *)
Definition completes (l : list event) : Z :=
  Z.of_nat (length (List.filter is_complete l)).

(** A control connection that is dead: every command raises, nothing can
    be connected; the state is the clock. *)
Record Dead : Type := mkDead { dead_clock : Z }.

#[export] Instance dead_env : FtpEnv Dead := {|
  ftp_connect := fun s => (Raise error_temp, s);
  ftp_pwd := fun s => (Raise error_temp, s);
  ftp_quit := fun s => (Raise error_temp, s);
  ftp_close := fun s => (Raise OSError, s);
  ftp_cwd := fun _ s => (Raise error_temp, s);
  ftp_mlsd := fun s => (Raise error_temp, s);
  ftp_nlst := fun s => (Raise error_temp, s);
  ftp_size := fun _ s => (None, s);
  ftp_retrbinary := fun _ s => (([], Raise error_temp), s);
  ftp_delete := fun _ s => (Raise error_temp, s);
  ftp_sock := fun _ => true;
  time_time := dead_clock;
  time_sleep := fun d s => mkDead (dead_clock s + Z.max 0 d);
  wait_overflows := fun t _ => TIMEOUT_MAX <? t
|}.

(** A worker that still holds the handle of a session whose line is
    dead. *)
Definition stale_session_worker : @Worker Dead :=
  set_ftp_connection (Some O)
    (new_worker (plain_settings "/data" "local") (mkDead 0) ∅).

Section Counting.

Context {S : Type} `{FtpEnv S}.

(** The number of completion records in the log of a worker. *)
Definition completed (w : @Worker S) : Z := completes (events w).

(** A step of the loop over the items counts what it completes: the
    counter grows by the number of completion records that were logged,
    and a step that raises has logged none. *)
Definition counted (ls : loop_state) (m : @M S loop_state) : Prop :=
  forall w,
    match m w with
    | (Ok ls', w') => completed w' - completed w = count ls' - count ls
    | (Raise _, w') => completed w' = completed w
    end.

(** The same for a call that returns a number of files. *)
Definition counts_its_completions (m : @M S Z) : Prop :=
  forall w,
    match m w with
    | (Ok n, w') => completed w' = completed w + n
    | (Raise _, w') => completed w' = completed w
    end.

(** Events were logged, none was taken back. *)
Definition events_grow (w w' : @Worker S) : Prop :=
  exists new, events_since w w' new.

End Counting.

Section RemoteFiles.

Context {S : Type} `{FtpEnv S}.

(** When the settings do not ask for deletion, they stay as they are and
    no DELE is sent on the way from [w] to [w']. *)
Definition keeps_remote_files (w w' : @Worker S) : Prop :=
  delete_after_download (settings w) = false ->
  settings w' = settings w /\
  List.filter is_dele (ftp_cmds w') = List.filter is_dele (ftp_cmds w).

End RemoteFiles.

(** The string holds two slashes in a row. *)
Fixpoint has_dslash (s : string) : bool :=
  match s with
  | String c r =>
      match r with
      | String c' _ =>
          (Ascii.eqb c "/"%char && Ascii.eqb c' "/"%char) || has_dslash r
      | EmptyString => false
      end
  | EmptyString => false
  end.

(** The settings ask for deletion after download; the local copy of the
    remote file has its size, but not its bytes. *)
Definition deleting_worker : @Worker Sim :=
  new_worker
    (mkSettings (Some "/data") (Some "local") Unset Unset Unset false Unset
       true)
    (good_server one_file_tree)
    (<["local" := LDir]> (<["local/a.txt" := LFile (bytes 3)]> ∅)).

(** Settings without the key of the remote path. *)
Definition no_path_worker : @Worker Sim :=
  new_worker
    (mkSettings None (Some "local") Unset Unset Unset false Unset false)
    (good_server one_file_tree) ∅.

(** * The notification policy ([check_monitoring_and_notify],
    [send_email_notification]) *)

(** ** Strings *)

(** What the policy takes from the interpreter: which characters
    [str.strip()] removes, and [int(s)] of a string ([None] when it raises
    [ValueError]). *)
Class Builtins : Type := {
  isspace : ascii -> bool;
  int_of_str : string -> option Z
}.

(** [s.split(sep)] for a separator of one character. *)
Fixpoint str_split (sep : ascii) (s : string) : list string :=
  match s with
  | EmptyString => [EmptyString]
  | String c r =>
      if Ascii.eqb c sep then EmptyString :: str_split sep r
      else match str_split sep r with
           | [] => [String c EmptyString]
           | h :: t => String c h :: t
           end
  end.

Section Strip.

Context `{Builtins}.

Fixpoint lstrip (s : string) : string :=
  match s with
  | EmptyString => EmptyString
  | String c r => if isspace c then lstrip r else s
  end.

Fixpoint rstrip (s : string) : string :=
  match s with
  | EmptyString => EmptyString
  | String c r =>
      match rstrip r with
      | EmptyString => if isspace c then EmptyString else String c EmptyString
      | r' => String c r'
      end
  end.

(** [s.strip()] *)
Definition strip (s : string) : string := rstrip (lstrip s).

(** Line 384:
    [[a.strip() for a in (email_to or '').split(';') if a.strip()]] *)
Definition recipients (email_to : option string) : list string :=
  List.filter (fun a => negb (bool_decide (a = "")))
    (map strip (str_split ";" (default "" email_to))).

End Strip.

(** ** Times of day *)

(** [datetime.time]: compared as the tuple
    [(hour, minute, second, microsecond)]. *)
Record dt_time : Type := mk_time {
  hour : Z;
  minute : Z;
  second : Z;
  microsecond : Z
}.

(** [dt_time(h, m)]: [ValueError] outside of a day's hours and minutes. *)
Definition dt_time_of (h m : Z) : option dt_time :=
  if (0 <=? h) && (h <=? 23) && (0 <=? m) && (m <=? 59)
  then Some (mk_time h m 0 0)
  else None.

Definition time_leb (a b : dt_time) : bool :=
  if hour a <? hour b then true
  else if hour b <? hour a then false
  else if minute a <? minute b then true
  else if minute b <? minute a then false
  else if second a <? second b then true
  else if second b <? second a then false
  else microsecond a <=? microsecond b.

(** A settings entry that the code treats as a string: the key may be
    absent, hold a string, or hold something else. *)
Inductive pystr : Type :=
| StrUnset
| StrVal (s : string)
| NotStr.

(** [settings.get(k, d)] for such an entry. *)
Definition str_get (v : pystr) (d : string) : pystr :=
  match v with
  | StrUnset => StrVal d
  | _ => v
  end.

(** [parse_time_str] (lines 428-433): any exception gives [None]; what is
    not a string has no [split]. *)
Definition parse_time_str `{Builtins} (v : pystr) : option dt_time :=
  match v with
  | StrVal s =>
      match str_split ":" s with
      | [a; b] =>
          match int_of_str a, int_of_str b with
          | Some h, Some m => dt_time_of h m
          | _, _ => None
          end
      | _ => None
      end
  | _ => None
  end.

(** Lines 443 and 446: [(a <= t <= b) if a <= b else (t >= a or t <= b)]. *)
Definition in_window (a b t : dt_time) : bool :=
  if time_leb a b then time_leb a t && time_leb t b
  else time_leb a t || time_leb t b.

(** [weekday_map[d]] (line 422). *)
Definition weekday_map (d : Z) : option string :=
  if d =? 0 then Some "Mon"
  else if d =? 1 then Some "Tue"
  else if d =? 2 then Some "Wed"
  else if d =? 3 then Some "Thu"
  else if d =? 4 then Some "Fri"
  else if d =? 5 then Some "Sat"
  else if d =? 6 then Some "Sun"
  else None.

(** ** Settings, mail and the mail server *)

(** The keys of [self.settings] that the policy reads.  [weekdays] is a
    list of day names when present; the SMTP entries are strings or
    absent; [smtp_ssl] is the truth value of the entry. *)
Record MonitorSettings : Type := mkMonitorSettings {
  weekdays : option (list string);
  work_start : pystr;
  work_end : pystr;
  lunch_start : pystr;
  lunch_end : pystr;
  notify_threshold : pyint;
  smtp_host : option string;
  smtp_port : pyint;
  smtp_user : option string;
  smtp_pass : option string;
  smtp_ssl : bool;
  email_from : option string;
  email_to : option string
}.

(** The one mail the worker sends (lines 454-455): its subject is fixed
    and its body names the threshold and the minutes elapsed. *)
Inductive mail : Type :=
| NoDownloads (threshold_min elapsed_min : Z).

Inductive smtp_cmd : Type :=
| SMTP_CONNECT (use_ssl : bool) (host : string) (port : Z)
| EHLO
| STARTTLS
| LOGIN (user : string) (pwd : option string)
| SENDMAIL (from_addr : string) (to_addrs : list string) (m : mail)
| SMTP_QUIT.

(** What the policy logs. *)
Inductive notice : Type :=
| EMAIL_NOTIFICATION_SKIPPED
| EMAIL_SENT (to_addrs : list string)
| EMAIL_SEND_FAILED (e : exn)
| MONITORING_CHECK_ERROR (e : exn).

(** The wall clock of [datetime.now()] and the mail server.
    [smtp_connect] stands for the constructor [SMTP_SSL(host, port,
    timeout=20)] or [SMTP(host, port, timeout=20)]; building the message
    is taken to succeed. *)
Class MailEnv (E : Type) : Type := {
  now_weekday : E -> Z;
  now_time : E -> dt_time;
  smtp_connect : bool -> string -> Z -> E -> result unit * E;
  smtp_ehlo : E -> result unit * E;
  smtp_starttls : E -> result unit * E;
  smtp_login : string -> option string -> E -> result unit * E;
  smtp_sendmail : string -> list string -> mail -> E -> result unit * E;
  smtp_quit : E -> result unit * E
}.

Section Notifier.

Context `{Builtins}.
Context {S : Type} `{FtpEnv S}.
Context {E : Type} `{MailEnv E}.

(** The worker with the attributes and the surroundings that only the
    policy uses. *)
Record Notifier : Type := mkNotifier {
  the_worker : @Worker S;
  monitor_settings : MonitorSettings;
  last_notification_time : option Z;
  mail_env : E;
  smtp_cmds : list smtp_cmd;            (* newest first *)
  notices : list notice                 (* newest first *)
}.

Definition set_the_worker (w : @Worker S) (n : Notifier) : Notifier :=
  mkNotifier w (monitor_settings n) (last_notification_time n) (mail_env n)
    (smtp_cmds n) (notices n).

Definition record_notice (x : notice) (n : Notifier) : Notifier :=
  mkNotifier (the_worker n) (monitor_settings n) (last_notification_time n)
    (mail_env n) (smtp_cmds n) (x :: notices n).

(** Lines 412-413. *)
Definition mark_notified (n : Notifier) : Notifier :=
  mkNotifier (set_notified_no_download true (the_worker n))
    (monitor_settings n) (Some (time_time (env (the_worker n))))
    (mail_env n) (smtp_cmds n) (notices n).

Definition N (A : Type) : Type := Notifier -> result A * Notifier.

Definition nret {A} (a : A) : N A := fun n => (Ok a, n).

Definition nbind {A B} (m : N A) (k : A -> N B) : N B :=
  fun n =>
    match m n with
    | (Ok a, n') => k a n'
    | (Raise e, n') => (Raise e, n')
    end.

Definition ntry {A} (m : N A) (h : exn -> N A) : N A :=
  fun n =>
    match m n with
    | (Ok a, n') => (Ok a, n')
    | (Raise e, n') => h e n'
    end.

Definition nlift {A} (r : result A) : N A := fun n => (r, n).

Definition nget : N Notifier := fun n => (Ok n, n).

Definition nmodify (f : Notifier -> Notifier) : N unit :=
  fun n => (Ok tt, f n).

Notation "'let*' x ':=' m 'in' k" := (nbind m (fun x => k))
  (at level 10, x name, m at level 100, k at level 200).

Definition note (x : notice) : N unit := nmodify (record_notice x).

(** A call of an [smtplib] method: recorded, answered by the server. *)
Definition smtp_call (c : smtp_cmd) (op : E -> result unit * E) : N unit :=
  fun n =>
    let '(r, e) := op (mail_env n) in
    (r, mkNotifier (the_worker n) (monitor_settings n)
          (last_notification_time n) e (c :: smtp_cmds n) (notices n)).

(** [not x] for a string entry: absent or empty. *)
Definition falsy (v : option string) : bool :=
  match v with
  | Some s => bool_decide (s = "")
  | None => true
  end.

(** Lines 395-408: the session with the mail server. *)
Definition smtp_session (use_ssl : bool) (host : string) (port : Z)
    (user pwd : option string) (from_addr : string)
    (to_addrs : list string) (m : mail) : N unit :=
  let* _ := smtp_call (SMTP_CONNECT use_ssl host port)
              (smtp_connect use_ssl host port) in
  let* _ := smtp_call EHLO smtp_ehlo in
  let* _ := (if use_ssl then nret tt
             else ntry (smtp_call STARTTLS smtp_starttls)
                    (fun _ => nret tt)) in
  let* _ := (match user with
             | Some u =>
                 if bool_decide (u = "") then nret tt
                 else smtp_call (LOGIN u pwd) (smtp_login u pwd)
             | None => nret tt
             end) in
  let* _ := smtp_call (SENDMAIL from_addr to_addrs m)
              (smtp_sendmail from_addr to_addrs m) in
  smtp_call SMTP_QUIT smtp_quit.

(** [send_email_notification] (lines 375-416). *)
Definition send_email_notification (m : mail) : N unit :=
  ntry
    (let* n := nget in
     let st := monitor_settings n in
     let* port := nlift (int_get (smtp_port st) 587) in
     let to_addrs := recipients (email_to st) in
     match smtp_host st, email_from st with
     | Some host, Some from_addr =>
         if bool_decide (host = "") || bool_decide (from_addr = "")
            || bool_decide (to_addrs = [])
         then note EMAIL_NOTIFICATION_SKIPPED
         else
           let* _ := smtp_session (smtp_ssl st) host port (smtp_user st)
                       (smtp_pass st) from_addr to_addrs m in
           let* _ := note (EMAIL_SENT to_addrs) in
           nmodify mark_notified
     | _, _ => note EMAIL_NOTIFICATION_SKIPPED
     end)
    (fun e => note (EMAIL_SEND_FAILED e)).

(** The window tests of lines 441-446: a pair of bounds that did not parse
    switches its test off; a [datetime.time] that did parse is true,
    midnight included (Python 3.5 and later). *)
Definition in_work (st : MonitorSettings) (cur_t : dt_time) : bool :=
  match parse_time_str (str_get (work_start st) "00:00"),
        parse_time_str (str_get (work_end st) "23:59") with
  | Some ws, Some we => in_window ws we cur_t
  | _, _ => true
  end.

Definition in_lunch (st : MonitorSettings) (cur_t : dt_time) : bool :=
  match parse_time_str (str_get (lunch_start st) "00:00"),
        parse_time_str (str_get (lunch_end st) "00:00") with
  | Some ls, Some le => in_window ls le cur_t
  | _, _ => false
  end.

(** [check_monitoring_and_notify] (lines 418-458). *)
Definition check_monitoring_and_notify : N unit :=
  ntry
    (let* n := nget in
     let st := monitor_settings n in
     let allowed_days := default [] (weekdays st) in
     let* today :=
       nlift (match weekday_map (now_weekday (mail_env n)) with
              | Some d => Ok d
              | None => Raise KeyError
              end) in
     if negb (bool_decide (allowed_days = []))
        && negb (bool_decide (today ∈ allowed_days))
     then nret tt
     else
       let cur_t := now_time (mail_env n) in
       if negb (in_work st cur_t) || in_lunch st cur_t then nret tt
       else
         let* threshold_min := nlift (int_get (notify_threshold st) 15) in
         let elapsed :=
           time_time (env (the_worker n)) - last_download_time (the_worker n)
         in
         if (threshold_min * 60 <? elapsed)
            && negb (notified_no_download (the_worker n))
         then send_email_notification
                (NoDownloads threshold_min (Z.quot elapsed 60))
         else nret tt)
    (fun e => note (MONITORING_CHECK_ERROR e)).

(** One pass of the loop of [run] with its [finally] clause (lines
    92-94). *)
Definition run_pass (depth : nat) (n : Notifier) : Notifier :=
  let n1 := set_the_worker (run_cycle depth (the_worker n)) n in
  if is_running (the_worker n1) then snd (check_monitoring_and_notify n1)
  else n1.

(** What the session with the mail server leaves alone. *)
Definition session_frame (n n' : Notifier) : Prop :=
  the_worker n' = the_worker n /\
  monitor_settings n' = monitor_settings n /\
  last_notification_time n' = last_notification_time n /\
  notices n' = notices n.

End Notifier.

(** ** A simulated mail server and interpreter *)

(** An interpreter that strips the ASCII white space and reads plain
    decimal digits. *)
Definition ascii_space (c : ascii) : bool :=
  let k := nat_of_ascii c in
  bool_decide (k = 32%nat) || (bool_decide (9 ≤ k)%nat && bool_decide (k ≤ 13)%nat).

Fixpoint digits_value (acc : Z) (s : string) : option Z :=
  match s with
  | EmptyString => Some acc
  | String c r =>
      let k := nat_of_ascii c in
      if bool_decide (48 ≤ k)%nat && bool_decide (k ≤ 57)%nat
      then digits_value (acc * 10 + (Z.of_nat k - 48)) r
      else None
  end.

Definition decimal (s : string) : option Z :=
  match s with
  | EmptyString => None
  | _ => digits_value 0 s
  end.

#[export] Instance ascii_builtins : Builtins := {|
  isspace := ascii_space;
  int_of_str := decimal
|}.

(** The day and the time are fixed; the server accepts everything, except
    that STARTTLS and the delivery can be switched off. *)
Record MailSim : Type := mkMailSim {
  ms_weekday : Z;
  ms_time : dt_time;
  ms_starttls_ok : bool;
  ms_sendmail_ok : bool
}.

#[export] Instance mail_sim : MailEnv MailSim := {|
  now_weekday := ms_weekday;
  now_time := ms_time;
  smtp_connect := fun _ _ _ e => (Ok tt, e);
  smtp_ehlo := fun e => (Ok tt, e);
  smtp_starttls := fun e =>
    if ms_starttls_ok e then (Ok tt, e) else (Raise error_temp, e);
  smtp_login := fun _ _ e => (Ok tt, e);
  smtp_sendmail := fun _ _ _ e =>
    if ms_sendmail_ok e then (Ok tt, e) else (Raise error_temp, e);
  smtp_quit := fun e => (Ok tt, e)
|}.

(** The schedule of the default settings, and a mail account. *)
Definition office_hours : MonitorSettings :=
  mkMonitorSettings (Some ["Mon"; "Tue"; "Wed"; "Thu"; "Fri"])
    (StrVal "08:00") (StrVal "17:00") (StrVal "12:00") (StrVal "13:00")
    (IntVal 15) (Some "mail.example.org") (IntVal 587) (Some "monitor")
    (Some "secret") false (Some "monitor@example.org")
    (Some " ops@example.org ; ;admin@example.org").

(** A worker that has downloaded nothing for an hour. *)
Definition idle_worker : @Worker Sim :=
  new_worker (plain_settings "/data" "local")
    (mkSim one_file_tree [] 3600 true true true None None 0 0%nat) ∅.

Definition overdue_worker : @Worker Sim := set_last_download_time 0 idle_worker.

(** Tuesday at ten, a server without STARTTLS; and Saturday at ten. *)
Definition tuesday_morning : MailSim := mkMailSim 1 (mk_time 10 0 0 0) false true.

Definition saturday_morning : MailSim := mkMailSim 5 (mk_time 10 0 0 0) true true.

Definition overdue_on_tuesday : @Notifier Sim MailSim :=
  mkNotifier overdue_worker office_hours None tuesday_morning [] [].

Definition overdue_on_saturday : @Notifier Sim MailSim :=
  mkNotifier overdue_worker office_hours None saturday_morning [] [].

(** * The settings manager ([SettingsManager]) *)

(** A settings value: a dictionary with string keys, or anything else
    ([None], a number, a string, a list, ...), of which the manager only
    asks whether it is a dictionary.  Values are taken by value: a caller
    that keeps a reference to a nested dictionary and changes it later is
    outside the model. *)
#[warnings="-register-all"]
Inductive pyvalue (A : Type) : Type :=
| Leaf (a : A)
| Dict (m : gmap string (pyvalue A)).

Arguments Leaf {A} a.
Arguments Dict {A} m.

(** ['.' in key] and the like. *)
Fixpoint has_char (c : ascii) (s : string) : bool :=
  match s with
  | EmptyString => false
  | String x r => Ascii.eqb x c || has_char c r
  end.

(** What is read from the configuration file: there is none; it holds a
    JSON value; or reading it raised. *)
Inductive config_file (A : Type) : Type :=
| NoFile
| Loaded (data : pyvalue A)
| Unreadable.

Arguments NoFile {A}.
Arguments Loaded {A} data.
Arguments Unreadable {A}.

Section SettingsManager.

Context {A : Type}.

(** [_values_equal(a, b)] (lines 147-189), the tolerant comparison of a
    default with a candidate.  It enters as a parameter: what is proved
    holds whatever it answers. *)
Variable _values_equal : pyvalue A -> pyvalue A -> bool.

(** What [_deep_merge_dicts] stores at a key of the override: the merged
    dictionaries when both sides are dictionaries, else the override. *)
Fixpoint merge_value (b o : pyvalue A) {struct b} : pyvalue A :=
  match b, o with
  | Dict mb, Dict mo =>
      Dict (merge (fun ob oo =>
              match oo with
              | Some vo => Some (match ob with
                                 | Some vb => merge_value vb vo
                                 | None => vo
                                 end)
              | None => ob
              end) mb mo)
  | _, _ => o
  end.

(** The entry of the result at a key, from the entries of the two sides
    (lines 119-126). *)
Definition merge_entry (ob oo : option (pyvalue A)) : option (pyvalue A) :=
  match oo with
  | Some vo => Some (match ob with
                     | Some vb => merge_value vb vo
                     | None => vo
                     end)
  | None => ob
  end.

(** [_deep_merge_dicts(base, override)] *)
Definition _deep_merge_dicts (base override : gmap string (pyvalue A))
  : gmap string (pyvalue A) :=
  merge merge_entry base override.

(** [_compute_overrides(defaults, full)], by recursion on [full]. *)
Fixpoint overrides_of (full : pyvalue A)
  : gmap string (pyvalue A) -> gmap string (pyvalue A) :=
  match full with
  | Dict mf => fun defaults =>
      map_imap (fun k v =>
        match defaults !! k with
        | Some (Dict dd) =>
            match v with
            | Dict _ =>
                let sub := overrides_of v dd in
                if decide (sub = ∅) then None else Some (Dict sub)
            | Leaf _ => if _values_equal (Dict dd) v then None else Some v
            end
        | Some dval => if _values_equal dval v then None else Some v
        | None => Some v
        end) mf
  | Leaf _ => fun _ => ∅
  end.

(** What [_compute_overrides] stores for an entry of [full], if it
    stores one (lines 133-143). *)
Definition override_entry (defaults : gmap string (pyvalue A)) (k : string)
    (v : pyvalue A) : option (pyvalue A) :=
  match defaults !! k with
  | Some (Dict dd) =>
      match v with
      | Dict _ =>
          let sub := overrides_of v dd in
          if decide (sub = ∅) then None else Some (Dict sub)
      | Leaf _ => if _values_equal (Dict dd) v then None else Some v
      end
  | Some dval => if _values_equal dval v then None else Some v
  | None => Some v
  end.

Definition _compute_overrides (defaults full : gmap string (pyvalue A))
  : gmap string (pyvalue A) :=
  overrides_of (Dict full) defaults.

(** The loop of [_get_from_dict] over the parts of the key. *)
Fixpoint get_parts (cur : pyvalue A) (parts : list string)
    (dflt : pyvalue A) : pyvalue A :=
  match parts with
  | [] => cur
  | p :: rest =>
      match cur with
      | Dict m =>
          match m !! p with
          | Some v => get_parts v rest dflt
          | None => dflt
          end
      | Leaf _ => dflt
      end
  end.

(** [_get_from_dict(data, dotted_key, default)] *)
Definition _get_from_dict (data : gmap string (pyvalue A))
    (dotted_key : string) (dflt : pyvalue A) : pyvalue A :=
  get_parts (Dict data) (str_split "." dotted_key) dflt.

(** The loop of [_set_in_dict] over [parts[:-1]], and the assignment at
    [parts[-1]]; [p] is the first part and [rest] are the others. *)
Fixpoint set_parts (data : gmap string (pyvalue A)) (p : string)
    (rest : list string) (value : pyvalue A) : gmap string (pyvalue A) :=
  match rest with
  | [] => <[p := value]> data
  | q :: rest' =>
      let sub := match data !! p with
                 | Some (Dict m) => m
                 | _ => ∅
                 end in
      <[p := Dict (set_parts sub q rest' value)]> data
  end.

(** [_set_in_dict(data, dotted_key, value)]; [split] gives at least one
    part. *)
Definition _set_in_dict (data : gmap string (pyvalue A))
    (dotted_key : string) (value : pyvalue A) : gmap string (pyvalue A) :=
  match str_split "." dotted_key with
  | p :: rest => set_parts data p rest value
  | [] => data
  end.

(** The attributes of the manager. *)
Record Manager : Type := mkManager {
  _defaults : gmap string (pyvalue A);
  _overrides : gmap string (pyvalue A);
  _settings : gmap string (pyvalue A)
}.

(** [load_settings], given what the file holds: a value that is not a
    dictionary counts as no overrides, and an error makes the defaults the
    settings. *)
Definition load_settings (file : config_file A) (st : Manager) : Manager :=
  match file with
  | Loaded (Dict data) =>
      mkManager (_defaults st) data (_deep_merge_dicts (_defaults st) data)
  | Loaded (Leaf _) | NoFile =>
      mkManager (_defaults st) ∅ (_deep_merge_dicts (_defaults st) ∅)
  | Unreadable => mkManager (_defaults st) ∅ (_defaults st)
  end.

(** [save_settings(settings)], given whether writing the file goes well;
    it returns that truth value.  The overrides are replaced before the
    file is written, the settings after. *)
Definition save_settings (settings : option (gmap string (pyvalue A)))
    (written : bool) (st : Manager) : bool * Manager :=
  let overrides :=
    match settings with
    | Some full => _compute_overrides (_defaults st) full
    | None => _overrides st
    end in
  if written
  then (true, mkManager (_defaults st) overrides
                (_deep_merge_dicts (_defaults st) overrides))
  else (false, mkManager (_defaults st) overrides (_settings st)).

(** [get_setting(key, default)] *)
Definition get_setting (key : string) (dflt : pyvalue A) (st : Manager)
  : pyvalue A :=
  if negb (has_char "." key) then default dflt (_settings st !! key)
  else _get_from_dict (_settings st) key dflt.

(** [set_setting(key, value)] *)
Definition set_setting (key : string) (value : pyvalue A) (st : Manager)
  : Manager :=
  let overrides :=
    if has_char "." key then _set_in_dict (_overrides st) key value
    else <[key := value]> (_overrides st) in
  let settings := _deep_merge_dicts (_defaults st) overrides in
  mkManager (_defaults st) (_compute_overrides (_defaults st) settings)
    settings.

(** [update_settings(new_settings)] *)
Definition update_settings (new_settings : gmap string (pyvalue A))
    (st : Manager) : Manager :=
  let merged := _deep_merge_dicts (_settings st) new_settings in
  let overrides := _compute_overrides (_defaults st) merged in
  mkManager (_defaults st) overrides
    (_deep_merge_dicts (_defaults st) overrides).

(** [get_all_settings()] *)
Definition get_all_settings (st : Manager) : gmap string (pyvalue A) :=
  _settings st.

(** The value that a list of parts leads to, if it leads to one. *)
Fixpoint lookup_path (cur : pyvalue A) (parts : list string)
  : option (pyvalue A) :=
  match parts with
  | [] => Some cur
  | p :: rest =>
      match cur with
      | Dict m =>
          match m !! p with
          | Some v => lookup_path v rest
          | None => None
          end
      | Leaf _ => None
      end
  end.

End SettingsManager.

(** ** Concrete settings *)

(** The values of the settings file that are not dictionaries. *)
Inductive atom : Type :=
| PNone
| PBool (b : bool)
| PInt (z : Z)
| PStr (s : string)
| PList (l : list string).

#[export] Instance atom_eq_dec : EqDecision atom.
Proof. solve_decision. Defined.

(** The comparison that takes two values for equal when they are the same
    value that is not a dictionary. *)
Definition strict_equal (a b : pyvalue atom) : bool :=
  match a, b with
  | Leaf x, Leaf y => bool_decide (x = y)
  | _, _ => false
  end.

(** Defaults in the shape of [_get_default_settings], cut down to a few
    entries of two sections. *)
Definition default_sections : gmap string (pyvalue atom) :=
  <["FTPConnection" :=
      Dict (<["ftp_host" := Leaf (PStr "")]>
           (<["ftp_port" := Leaf (PStr "21")]>
           (<["passive_mode" := Leaf (PBool true)]>
           (<["interval" := Leaf (PInt 60)]> ∅))))]>
  (<["WorkSchedule" :=
      Dict (<["work_start" := Leaf (PStr "08:00")]>
           (<["work_end" := Leaf (PStr "17:00")]> ∅))]> ∅).

(** What a user saves: another port and interval, the default host. *)
Definition edited_sections : gmap string (pyvalue atom) :=
  <["FTPConnection" :=
      Dict (<["ftp_host" := Leaf (PStr "")]>
           (<["ftp_port" := Leaf (PStr "2121")]>
           (<["interval" := Leaf (PInt 30)]> ∅)))]> ∅.

Definition fresh_manager : @Manager atom :=
  mkManager default_sections ∅ default_sections.

(** * Facts on path strings *)

Lemma string_app_cons (x : ascii) (a b : string) :
  String x a +:+ b = String x (a +:+ b).
Proof. reflexivity. Qed.

Lemma string_app_nil_l (b : string) : "" +:+ b = b.
Proof. reflexivity. Qed.

Lemma string_length_app (a b : string) :
  String.length (a +:+ b) = (String.length a + String.length b)%nat.
Proof.
  induction a as [|c a IH]; [reflexivity|].
  rewrite string_app_cons. simpl. f_equal. exact IH.
Qed.

Lemma string_app_assoc (a b c : string) : (a +:+ b) +:+ c = a +:+ (b +:+ c).
Proof.
  induction a as [|x a IH]; [reflexivity|].
  rewrite !string_app_cons. f_equal. exact IH.
Qed.

Lemma string_app_nil_r (a : string) : a +:+ "" = a.
Proof.
  induction a as [|x a IH]; [reflexivity|].
  rewrite string_app_cons. f_equal. exact IH.
Qed.

(** * Properties *)

(** ** Reasoning about the worker's computations *)

Section Preserves.

Context {S : Type} `{FtpEnv S}.
Context (R : @Worker S -> @Worker S -> Prop) `{!PreOrder R}.

Lemma preserves_ret {A} (a : A) : preserves R (ret a).
Proof. intros w. simpl. reflexivity. Qed.

Lemma preserves_raise {A} (e : exn) : preserves R (raise (A := A) e).
Proof. intros w. simpl. reflexivity. Qed.

Lemma preserves_get : preserves R get.
Proof. intros w. simpl. reflexivity. Qed.

Lemma preserves_lift {A} (r : result A) : preserves R (lift r).
Proof. intros w. simpl. reflexivity. Qed.

Lemma preserves_setting {A} (v : option A) : preserves R (setting v).
Proof. intros w. destruct v; simpl; reflexivity. Qed.

Lemma preserves_bind {A B} (m : M A) (k : A -> M B) :
  preserves R m -> (forall a, preserves R (k a)) -> preserves R (bind m k).
Proof.
  intros Hm Hk w. unfold bind. specialize (Hm w).
  destruct (m w) as [[a|e] w1]; simpl in *; [|exact Hm].
  transitivity w1; [exact Hm | apply Hk].
Qed.

Lemma preserves_try_except {A} (m : M A) (h : exn -> M A) :
  preserves R m -> (forall e, preserves R (h e)) ->
  preserves R (try_except m h).
Proof.
  intros Hm Hh w. unfold try_except. specialize (Hm w).
  destruct (m w) as [[a|e] w1]; simpl in *; [exact Hm|].
  transitivity w1; [exact Hm | apply Hh].
Qed.

Lemma preserves_modify (f : Worker -> Worker) :
  (forall w, R w (f w)) -> preserves R (modify f).
Proof. intros Hf w. apply Hf. Qed.

Lemma preserves_emit (e : event) :
  (forall w, R w (record_event e w)) -> preserves R (emit e).
Proof. intros He. apply preserves_modify, He. Qed.

Lemma preserves_ftp_call {A} (c : ftp_cmd) (op : S -> result A * S) :
  (forall w s, R w (set_env s (record_cmd c w))) ->
  preserves R (ftp_call c op).
Proof.
  intros Hc w. unfold ftp_call. destruct (op (env w)) as [r s]. apply Hc.
Qed.

Lemma preserves_FTP_size (p : string) :
  (forall w s, R w (set_env s (record_cmd (SIZE p) w))) ->
  preserves R (FTP_size p).
Proof.
  intros Hc w. unfold FTP_size. destruct (ftp_size p (env w)) as [r s].
  apply Hc.
Qed.

Lemma preserves_fs_call (o : fs_op)
    (op : gmap string lnode -> result (gmap string lnode)) :
  (forall w m, op (fs w) = Ok m -> R w (set_fs m (record_op o w))) ->
  preserves R (fs_call o op).
Proof.
  intros Ho w. unfold fs_call. destruct (op (fs w)) as [m|e] eqn:E; simpl.
  - apply Ho, E.
  - reflexivity.
Qed.

Lemma preserves_set_socket_timeout (t : Z) :
  (forall w, R w (set_sock_timeout (Some t) w)) ->
  preserves R (set_socket_timeout t).
Proof.
  intros Ht w. unfold set_socket_timeout.
  destruct (ftp_sock (env w)); simpl; [apply Ht | reflexivity].
Qed.

Lemma preserves_stop_event_wait (t : Z) :
  (forall w, R w (set_env (time_sleep t (env w)) w)) ->
  preserves R (stop_event_wait t).
Proof.
  intros Ht w. unfold stop_event_wait.
  destruct (wait_overflows t (env w)); simpl; [reflexivity | apply Ht].
Qed.

End Preserves.

(** Goals [preserves R m] for a computation written with the combinators:
    what is left are the steps of the primitives. *)
Ltac pres_step :=
  lazymatch goal with
  | |- PreOrder _ => typeclasses eauto
  | |- preserves _ (ret _) => apply preserves_ret
  | |- preserves _ (raise _) => apply preserves_raise
  | |- preserves _ get => apply preserves_get
  | |- preserves _ (lift _) => apply preserves_lift
  | |- preserves _ (setting _) => apply preserves_setting
  | |- preserves _ (bind _ _) => apply preserves_bind; [..| intros ?]
  | |- preserves _ (try_except _ _) =>
      apply preserves_try_except; [..| intros ?]
  | |- preserves _ (emit _) => apply preserves_emit; [..| intros ?]
  | |- preserves _ (modify _) => apply preserves_modify; [..| intros ?]
  | |- preserves _ (ftp_call _ _) => apply preserves_ftp_call; [..| intros ? ?]
  | |- preserves _ (FTP_size _) => apply preserves_FTP_size; [..| intros ? ?]
  | |- preserves _ (fs_call _ _) => apply preserves_fs_call; [..| intros ? ? ?]
  | |- preserves _ (set_socket_timeout _) =>
      apply preserves_set_socket_timeout; [..| intros ?]
  | |- preserves _ (stop_event_wait _) =>
      apply preserves_stop_event_wait; [..| intros ?]
  | |- preserves _ (match ?x with _ => _ end) => destruct x eqn:?
  end.

Ltac pres := repeat pres_step.

Section Returns.

Context {S : Type} `{FtpEnv S}.

Lemma bind_ret {A B} (a : A) (k : A -> M B) (w : @Worker S) :
  bind (ret a) k w = k a w.
Proof. reflexivity. Qed.

Lemma bind_get {B} (k : Worker -> M B) (w : @Worker S) :
  bind get k w = k w w.
Proof. reflexivity. Qed.

Lemma bind_modify {B} f (k : unit -> M B) (w : @Worker S) :
  bind (modify f) k w = k tt (f w).
Proof. reflexivity. Qed.

Lemma bind_emit {B} e (k : unit -> M B) (w : @Worker S) :
  bind (emit e) k w = k tt (record_event e w).
Proof. reflexivity. Qed.

Lemma bind_lift {A B} (r : result A) (k : A -> M B) (w : @Worker S) :
  bind (lift r) k w = match r with
                      | Ok a => k a w
                      | Raise e => (Raise e, w)
                      end.
Proof. unfold bind, lift. destruct r; reflexivity. Qed.

Lemma bind_eq {A B} (m : M A) (k : A -> M B) (w w1 : @Worker S) a :
  m w = (Ok a, w1) -> bind m k w = k a w1.
Proof. intros E. unfold bind. rewrite E. reflexivity. Qed.

Lemma bind_raise_eq {A B} (m : M A) (k : A -> M B) (w w1 : @Worker S) e :
  m w = (Raise e, w1) -> bind m k w = (Raise e, w1).
Proof. intros E. unfold bind. rewrite E. reflexivity. Qed.

Lemma never_raises_ret {A} (a : A) : @never_raises S A (ret a).
Proof. intros w. exists a. reflexivity. Qed.

Lemma never_raises_get : @never_raises S _ get.
Proof. intros w. exists w. reflexivity. Qed.

Lemma never_raises_modify f : @never_raises S _ (modify f).
Proof. intros w. exists tt. reflexivity. Qed.

Lemma never_raises_emit e : @never_raises S _ (emit e).
Proof. apply never_raises_modify. Qed.

Lemma never_raises_FTP_size p : never_raises (FTP_size p).
Proof.
  intros w. unfold FTP_size. destruct (ftp_size p (env w)) as [r s].
  exists r. reflexivity.
Qed.

Lemma never_raises_set_socket_timeout t : never_raises (set_socket_timeout t).
Proof.
  intros w. unfold set_socket_timeout. exists tt.
  destruct (ftp_sock (env w)); reflexivity.
Qed.

Lemma never_raises_bind {A B} (m : @M S A) (k : A -> @M S B) :
  never_raises m -> (forall a, never_raises (k a)) -> never_raises (bind m k).
Proof.
  intros Hm Hk w. unfold bind. destruct (Hm w) as [a Ha].
  destruct (m w) as [r w1]. simpl in Ha. subst r. apply Hk.
Qed.

Lemma never_raises_try_except {A} (m : @M S A) (h : exn -> @M S A) :
  (forall e, never_raises (h e)) -> never_raises (try_except m h).
Proof.
  intros Hh w. unfold try_except. destruct (m w) as [[a|e] w1].
  - exists a. reflexivity.
  - apply Hh.
Qed.

End Returns.

(** Goals [never_raises m]. *)
Ltac nr_step :=
  lazymatch goal with
  | |- never_raises (ret _) => apply never_raises_ret
  | |- never_raises get => apply never_raises_get
  | |- never_raises (emit _) => apply never_raises_emit
  | |- never_raises (modify _) => apply never_raises_modify
  | |- never_raises (FTP_size _) => apply never_raises_FTP_size
  | |- never_raises (set_socket_timeout _) =>
      apply never_raises_set_socket_timeout
  | |- never_raises (bind _ _) => apply never_raises_bind; [| intros ?]
  | |- never_raises (try_except _ _) =>
      apply never_raises_try_except; intros ?
  | |- never_raises (match ?x with _ => _ end) => destruct x eqn:?
  end.

Ltac nr := repeat nr_step.

Section Frames.

Context {S : Type} `{FtpEnv S}.

#[global] Instance unchanged_preorder {B} (proj : @Worker S -> B) :
  PreOrder (unchanged proj).
Proof.
  split.
  - intros w. reflexivity.
  - intros a b c Hab Hbc. unfold unchanged in *. congruence.
Qed.

End Frames.

Section TransferFacts.

Context {S : Type} `{FtpEnv S}.

Lemma preserves_deliver (R : @Worker S -> @Worker S -> Prop) `{!PreOrder R}
    (callback : bool -> list byte -> M unit) blocks :
  (forall b d, preserves R (callback b d)) ->
  preserves R (deliver callback blocks).
Proof.
  intros Hcb. induction blocks as [|[b d] rest IH]; simpl.
  - apply preserves_ret; assumption.
  - apply preserves_bind; [assumption | apply Hcb | intros _; exact IH].
Qed.

Lemma preserves_FTP_retrbinary (R : @Worker S -> @Worker S -> Prop)
    `{!PreOrder R} p (callback : bool -> list byte -> M unit) :
  (forall w s, R w (set_env s (record_cmd (RETR p) w))) ->
  (forall b d, preserves R (callback b d)) ->
  preserves R (FTP_retrbinary p callback).
Proof.
  intros Hc Hcb w. unfold FTP_retrbinary.
  destruct (ftp_retrbinary p (env w)) as [[blocks final] s].
  transitivity (set_env s (record_cmd (RETR p) w)); [apply Hc|].
  apply (preserves_bind R); [apply preserves_deliver; assumption|].
  intros _. apply preserves_lift; assumption.
Qed.

Lemma preserves__write_and_count (R : @Worker S -> @Worker S -> Prop)
    `{!PreOrder R} temp_local b d :
  (forall w, R w (set_fs (fs_write temp_local d (fs w))
                    (record_op (OpWrite temp_local d) w))) ->
  preserves R (_write_and_count temp_local b d).
Proof.
  intros Hw. unfold _write_and_count. destruct b.
  - apply preserves_raise; assumption.
  - apply preserves_modify, Hw.
Qed.

(** The requested timeout, in numbers. *)
Lemma socket_timeout_bounds t :
  10 <= socket_timeout t /\ t - 1 <= 2 * socket_timeout t /\
  (Z.even t = true -> t <= 2 * socket_timeout t).
Proof.
  unfold socket_timeout. split; [lia|]. split.
  - pose proof (Z.div_mod t 2 ltac:(lia)) as Hd.
    pose proof (Z.mod_pos_bound t 2 ltac:(lia)). lia.
  - intros He. apply Zeven_bool_iff, Zeven_div2 in He.
    rewrite Z.div2_div in He. lia.
Qed.

(** C8, as the code has it: before a file is streamed the control socket,
    when the session has one, is given the timeout
    [max(10, per_file_timeout // 2)] with the floor division of integers.
    That is at least 10 and at least [(per_file_timeout - 1) / 2], and at
    least [per_file_timeout / 2] when [per_file_timeout] is even. *)
Theorem socket_timeout_is_floor_half :
  forall (w : Worker) (remote_item_path local_path local_item_path : string)
         (t : Z) (m : gmap string lnode),
    int_get (per_file_timeout (settings w)) 120 = Ok t ->
    fs_open_wb local_path (temp_path local_item_path) (fs w) = Ok m ->
    ftp_sock (env w) = true ->
    sock_timeout
      (snd (retrieve_to_temp remote_item_path local_path local_item_path w))
      = Some (Z.max 10 (t / 2)) /\
    socket_timeout t = Z.max 10 (t / 2) /\
    10 <= socket_timeout t /\
    t - 1 <= 2 * socket_timeout t /\
    (Z.even t = true -> t <= 2 * socket_timeout t).
Proof.
  intros w rp lpd lp t m Ht Hopen Hsock.
  split; [|split; [reflexivity | apply socket_timeout_bounds]].
  unfold retrieve_to_temp, bind, fs_call, get, lift, set_socket_timeout.
  rewrite Hopen. simpl. rewrite Ht, Hsock.
  set (w2 := set_sock_timeout _ _).
  pose proof (preserves_FTP_retrbinary (unchanged sock_timeout) rp
                (_write_and_count (temp_path lp))) as Hp.
  rewrite Hp; [reflexivity| |].
  - intros; reflexivity.
  - intros b d. apply preserves__write_and_count; [apply _|].
    intros; reflexivity.
Qed.

End TransferFacts.

Lemma socket_timeout_is_floor_half_witness :
  sock_timeout
    (snd (retrieve_to_temp "/data/a.txt" "local" "local/a.txt" timeout_worker))
    = Some (Z.max 10 (21 / 2)) /\
  socket_timeout 21 = Z.max 10 (21 / 2) /\
  10 <= socket_timeout 21 /\
  21 - 1 <= 2 * socket_timeout 21 /\
  (Z.even 21 = true -> 21 <= 2 * socket_timeout 21).
Proof.
  apply (socket_timeout_is_floor_half timeout_worker "/data/a.txt" "local"
           "local/a.txt" 21
           (<["local/a.txt.part" := LFile []]> (local_dir "local"))).
  - reflexivity.
  - vm_compute. reflexivity.
  - reflexivity.
Defined.

(** C8 as stated fails for a per-file timeout of 21 seconds: the timeout
    given to the socket is 10 seconds, which is less than 21/2. *)
Lemma socket_timeout_below_half_of_21 :
  sock_timeout
    (snd (retrieve_to_temp "/data/a.txt" "local" "local/a.txt" timeout_worker))
    = Some 10 /\
  (inject_Z 10 < 21 # 2)%Q.
Proof. split; vm_compute; reflexivity. Qed.

(** ** Invariants of the traversal *)

Section WalkInvariant.

Context {S : Type} `{FtpEnv S}.
Context (R : @Worker S -> @Worker S -> Prop) (HR : walk_invariant R).

#[local] Instance walk_invariant_preorder : PreOrder R := wi_preorder R HR.

Lemma wi_fs_call o op :
  temp_discipline o ->
  (forall m m', op m = Ok m' -> m' = apply_op o m) ->
  preserves R (fs_call o op).
Proof.
  intros Ho Hop. apply preserves_fs_call; [apply _|].
  intros w m E. rewrite (Hop _ _ E). apply (wi_fs R HR), Ho.
Qed.

Lemma os_makedirs_apply p m m' :
  os_makedirs p m = Ok m' -> m' = apply_op (OpMakedirs p) m.
Proof.
  unfold os_makedirs. destruct (bool_decide (p = "")); [discriminate|].
  destruct (m !! p); [discriminate|].
  destruct (existsb (is_file_at m) (ancestors p)); [discriminate|].
  intros E. inversion E. reflexivity.
Qed.

Lemma fs_open_wb_apply d p m m' :
  fs_open_wb d p m = Ok m' -> m' = apply_op (OpOpen p) m.
Proof.
  unfold fs_open_wb. destruct (m !! d) as [[]|]; try discriminate.
  destruct (parent_exists p m); [|discriminate].
  destruct (m !! p) as [[]|]; intros E; inversion E; reflexivity.
Qed.

Lemma os_replace_apply src dst m m' :
  os_replace src dst m = Ok m' -> m' = apply_op (OpReplace src dst) m.
Proof. simpl. intros ->. reflexivity. Qed.

Lemma os_rename_apply src dst m m' :
  os_rename src dst m = Ok m' -> m' = apply_op (OpRename src dst) m.
Proof. unfold os_rename. simpl. intros ->. reflexivity. Qed.

Ltac walk_step :=
  lazymatch goal with
  | |- preserves _ (fs_call _ _) => fail
  | |- PreOrder _ => pres_step
  | |- preserves _ _ => pres_step
  | |- _ _ (set_env _ (record_cmd _ _)) => apply (wi_cmd R HR); discriminate
  | |- _ _ (set_env (time_sleep _ _) _) => apply (wi_sleep R HR)
  | |- _ _ (record_event _ _) => apply (wi_event R HR)
  | |- _ _ (set_sock_timeout _ _) => apply (wi_sock R HR)
  end.

Ltac walk := repeat walk_step.

Lemma preserves_probe_type name : preserves R (probe_type name).
Proof. unfold probe_type, FTP_cwd. walk. Qed.

Lemma preserves_classify_names names : preserves R (classify_names names).
Proof.
  induction names as [|name rest IH]; simpl; walk.
  - exact IH.
  - apply preserves_probe_type.
  - exact IH.
Qed.

Lemma preserves_nlst_items : preserves R nlst_items.
Proof.
  unfold nlst_items, FTP_nlst. walk. apply preserves_classify_names.
Qed.

Lemma preserves_list_directory : preserves R list_directory.
Proof.
  unfold list_directory. apply preserves_bind; [apply _ | apply (wi_mlsd R HR) |].
  intros [|it items]; [apply preserves_nlst_items | walk].
Qed.

Lemma preserves_stability_loop ticks start wait p prev cnt :
  preserves R (stability_loop ticks start wait p prev cnt).
Proof.
  revert prev cnt. induction ticks as [|t IH]; intros prev cnt; simpl; walk.
  apply IH.
Qed.

Lemma preserves_initial_size p f : preserves R (initial_size p f).
Proof. unfold initial_size. walk. Qed.

Lemma preserves_stability_gate p f : preserves R (stability_gate p f).
Proof.
  unfold stability_gate. walk.
  - apply preserves_initial_size.
  - apply preserves_stability_loop.
Qed.

Lemma preserves_retrieve_to_temp rp lpd lp :
  preserves R (retrieve_to_temp rp lpd lp).
Proof.
  unfold retrieve_to_temp. walk.
  - apply wi_fs_call; [eexists; reflexivity | apply fs_open_wb_apply].
  - apply preserves_FTP_retrbinary; [apply _ | |].
    + intros; apply (wi_cmd R HR); discriminate.
    + intros b d. apply preserves__write_and_count; [apply _|].
      intros w0. apply (wi_fs R HR (w0) (OpWrite (temp_path lp) d)).
      eexists; reflexivity.
Qed.

Lemma preserves_publish lp : preserves R (publish lp).
Proof.
  unfold publish. walk.
  - apply wi_fs_call; [reflexivity | apply os_replace_apply].
  - apply wi_fs_call; [reflexivity | apply os_rename_apply].
Qed.

Lemma preserves_delete_remote p : preserves R (delete_remote p).
Proof. unfold delete_remote, FTP_delete. walk. Qed.

Lemma preserves_transfer_file ls rp lpd lp :
  preserves R (transfer_file ls rp lpd lp).
Proof.
  unfold transfer_file, after_publish. walk.
  - apply preserves_retrieve_to_temp.
  - apply preserves_publish.
  - apply preserves_delete_remote.
Qed.

Lemma preserves_download_file ls f rp lpd lp :
  preserves R (download_file ls f rp lpd lp).
Proof.
  unfold download_file. walk.
  - apply preserves_stability_gate.
  - apply preserves_transfer_file.
Qed.

Lemma preserves_skip_file lim ls rp rs : preserves R (skip_file lim ls rp rs).
Proof. unfold skip_file. walk; apply preserves_delete_remote. Qed.

Lemma preserves_process_file lim ls f rp lpd lp :
  preserves R (process_file lim ls f rp lpd lp).
Proof.
  unfold process_file. walk;
    first [apply preserves_skip_file | apply preserves_download_file].
Qed.

Lemma preserves_process_item self lim rp lp ls it :
  (forall a b, preserves R (self a b)) ->
  preserves R (process_item self lim rp lp ls it).
Proof.
  intros Hself. unfold process_item. destruct it as [name f]. walk.
  - apply preserves_process_file.
  - apply Hself.
Qed.

Lemma items_loop_invariant self lim rp lp ls items w :
  (forall a b, preserves R (self a b)) ->
  R w (snd (items_loop self lim rp lp ls items w)).
Proof.
  intros Hself. revert ls w.
  induction items as [|it rest IH]; intros ls w; simpl; [reflexivity|].
  pose proof (preserves_process_item self lim rp lp ls it Hself w) as Hp.
  destruct (process_item self lim rp lp ls it w) as [[ls'|e] w1]; simpl in *.
  - transitivity w1; [exact Hp | apply IH].
  - exact Hp.
Qed.

Lemma preserves_enter_directory rp lp : preserves R (enter_directory rp lp).
Proof.
  unfold enter_directory, FTP_cwd. walk.
  - apply wi_fs_call; [exact I | apply os_makedirs_apply].
  - apply preserves_list_directory.
Qed.

Lemma dir_body_invariant self rp lp w :
  (forall a b, preserves R (self a b)) ->
  R w (snd (dir_body self rp lp w)).
Proof.
  intros Hself. unfold dir_body.
  pose proof (preserves_enter_directory rp lp w) as He.
  destruct (enter_directory rp lp w) as [[[items lim]|e] w1]; simpl in *.
  - pose proof (items_loop_invariant self lim rp lp init_loop items w1 Hself)
      as Hl.
    destruct (items_loop self lim rp lp init_loop items w1)
      as [[ls [e|]] w2]; simpl in *.
    + transitivity w1; [exact He|]. transitivity w2; [exact Hl|].
      apply (wi_event R HR).
    + transitivity w1; assumption.
  - transitivity w1; [exact He | apply (wi_event R HR)].
Qed.

(** Every call of [download_dir_recursive] respects a relation that each of
    its steps respects. *)
Lemma download_dir_recursive_invariant depth rp lp :
  preserves R (download_dir_recursive depth rp lp).
Proof.
  revert rp lp. induction depth as [|d IH]; intros rp lp w; simpl.
  - reflexivity.
  - pose proof (dir_body_invariant (download_dir_recursive d) rp lp w IH).
    destruct (dir_body (download_dir_recursive d) rp lp w). assumption.
Qed.

End WalkInvariant.

(** ** The capability flag *)

Section Fallback.

Context {S : Type} `{FtpEnv S}.

#[global] Instance stays_fallback_preorder : PreOrder (@stays_fallback S).
Proof.
  split.
  - intros w Hw. split; [exact Hw|]. exists []. split; [reflexivity|].
    apply not_elem_of_nil.
  - intros a b c Hab Hbc Ha.
    destruct (Hab Ha) as [Hb [n1 [E1 N1]]].
    destruct (Hbc Hb) as [Hc [n2 [E2 N2]]].
    split; [exact Hc|]. exists (n2 ++ n1). split.
    + unfold cmds_since in *. rewrite E2, E1, app_assoc. reflexivity.
    + rewrite elem_of_app. tauto.
Qed.

(** A step that leaves the flag alone and sends only the commands [new]. *)
Lemma stays_fallback_intro (w w' : @Worker S) new :
  _mlsd_supported w' = _mlsd_supported w ->
  ftp_cmds w' = new ++ ftp_cmds w ->
  MLSD ∉ new ->
  stays_fallback w w'.
Proof.
  intros Hf Hc Hn Hw. split; [congruence|]. exists new. split; assumption.
Qed.

Ltac fallback_prim :=
  lazymatch goal with
  | |- stays_fallback _ (set_env _ (record_cmd ?c _)) =>
      apply (stays_fallback_intro _ _ [c]);
      [reflexivity | reflexivity
      | rewrite list_elem_of_singleton; first [discriminate | congruence]]
  | |- stays_fallback _ _ =>
      apply (stays_fallback_intro _ _ []);
      [reflexivity | reflexivity | apply not_elem_of_nil]
  end.

Lemma stays_fallback_try_mlsd : preserves (@stays_fallback S) try_mlsd.
Proof.
  intros w Hw. unfold try_mlsd, bind, get. rewrite Hw. simpl.
  split; [exact Hw|]. exists []. split; [reflexivity | apply not_elem_of_nil].
Qed.

Lemma stays_fallback_walk : walk_invariant (@stays_fallback S).
Proof.
  split; try (intros; fallback_prim).
  - apply _.
  - apply stays_fallback_try_mlsd.
Qed.

Lemma stays_fallback__cleanup_connections :
  preserves (@stays_fallback S) _cleanup_connections.
Proof. unfold _cleanup_connections. pres; fallback_prim. Qed.

Lemma stays_fallback__reset_connections :
  preserves (@stays_fallback S) _reset_connections.
Proof.
  unfold _reset_connections. pres; try fallback_prim.
  apply stays_fallback__cleanup_connections.
Qed.

Lemma stays_fallback_connect_attempt a :
  preserves (@stays_fallback S) (connect_attempt a).
Proof.
  unfold connect_attempt. pres; try fallback_prim.
  apply stays_fallback__cleanup_connections.
Qed.

Lemma stays_fallback_connect_loop l :
  preserves (@stays_fallback S) (connect_loop l).
Proof.
  induction l as [|a rest IH]; simpl; pres; try fallback_prim.
  - apply stays_fallback_connect_attempt.
  - exact IH.
Qed.

Lemma stays_fallback_perform depth (w : @Worker S) :
  stays_fallback w (snd (perform_ftp_download depth w)).
Proof.
  unfold perform_ftp_download.
  match goal with |- context [match ?b w with _ => _ end] => set (body := b) end.
  assert (Hb : preserves (@stays_fallback S) body).
  { subst body. pres; try fallback_prim.
    - apply stays_fallback_connect_loop.
    - apply download_dir_recursive_invariant, stays_fallback_walk. }
  specialize (Hb w). destruct (body w) as [[n|e] w1]; simpl in *; [exact Hb|].
  assert (Hh : forall ev, preserves (@stays_fallback S)
                 (bind (emit ev) (fun _ => _reset_connections))).
  { intros ev. pres; try fallback_prim.
    apply stays_fallback__reset_connections. }
  destruct e; simpl; (etransitivity; [exact Hb | apply Hh]).
Qed.

Lemma stays_fallback_run_cycle depth (w : @Worker S) :
  stays_fallback w (run_cycle depth w).
Proof.
  unfold run_cycle.
  assert (Hc : preserves (@stays_fallback S)
                 (try_except (cycle_body depth) cycle_handler)).
  { unfold cycle_body, cycle_handler, _perform_periodic_cleanup.
    pres; try fallback_prim;
      try apply stays_fallback__cleanup_connections;
      try apply stays_fallback__reset_connections.
    intros w0. pose proof (stays_fallback_perform depth w0) as Hp.
    destruct (perform_ftp_download depth w0). exact Hp. }
  apply Hc.
Qed.

Lemma stays_fallback_cycles depth n (w : @Worker S) :
  stays_fallback w (Nat.iter n (run_cycle depth) w).
Proof.
  induction n as [|n IH]; simpl; [reflexivity|].
  etransitivity; [exact IH | apply stays_fallback_run_cycle].
Qed.

(** The teardown and the reconnect do not touch the flag. *)
Lemma flag_unchanged__cleanup_connections :
  preserves (unchanged (@_mlsd_supported S)) _cleanup_connections.
Proof. unfold _cleanup_connections. pres; reflexivity. Qed.

Lemma flag_unchanged__reset_connections :
  preserves (unchanged (@_mlsd_supported S)) _reset_connections.
Proof.
  unfold _reset_connections. pres; try reflexivity.
  apply flag_unchanged__cleanup_connections.
Qed.

Lemma flag_unchanged_connect_loop l :
  preserves (unchanged (@_mlsd_supported S)) (connect_loop l).
Proof.
  induction l as [|a rest IH]; simpl; [pres|].
  unfold connect_attempt. pres; try reflexivity; try exact IH.
  apply flag_unchanged__cleanup_connections.
Qed.

(** What one listing does to the flag while it is not Fallback. *)
Lemma try_mlsd_probes (w : @Worker S) :
  _mlsd_supported w <> Some false ->
  ftp_cmds (snd (try_mlsd w)) = MLSD :: ftp_cmds w /\
  _mlsd_supported (snd (try_mlsd w)) =
    Some (match fst (ftp_mlsd (env w)) with Ok _ => true | Raise _ => false end).
Proof.
  intros Hw. unfold try_mlsd, bind, get.
  destruct (_mlsd_supported w) as [[|]|] eqn:E; [|congruence|];
    unfold try_except, bind, FTP_mlsd, ftp_call;
    destruct (ftp_mlsd (env w)) as [[items|e] s]; simpl; split; reflexivity.
Qed.

End Fallback.

Section FallbackClaims.

Context {S : Type} `{FtpEnv S}.

(** C3, as the code has it: while the flag is Unknown or Extended every
    listing sends MLSD and the answer sets the flag (Extended on success,
    Fallback on failure); once the flag is Fallback no MLSD is sent again in
    any later cycle, and neither the teardown of the session nor the
    reconnect changes the flag: it is not reset to Unknown. *)
Theorem fallback_flag_is_never_reset :
  forall (depth n : nat) (w : @Worker S),
    unchanged _mlsd_supported w (snd (_cleanup_connections w)) /\
    unchanged _mlsd_supported w (snd (_reset_connections w)) /\
    unchanged _mlsd_supported w (snd (_get_or_create_ftp_connection w)) /\
    stays_fallback w (Nat.iter n (run_cycle depth) w) /\
    (_mlsd_supported w <> Some false ->
     ftp_cmds (snd (try_mlsd w)) = MLSD :: ftp_cmds w /\
     _mlsd_supported (snd (try_mlsd w)) =
       Some (match fst (ftp_mlsd (env w)) with
             | Ok _ => true
             | Raise _ => false
             end)).
Proof.
  intros depth n w. split; [|split; [|split; [|split]]].
  - apply flag_unchanged__cleanup_connections.
  - apply flag_unchanged__reset_connections.
  - apply flag_unchanged_connect_loop.
  - apply stays_fallback_cycles.
  - apply try_mlsd_probes.
Qed.

#[global] Instance cmds_grow_preorder : PreOrder (@cmds_grow S).
Proof.
  split.
  - intros w. exists []. reflexivity.
  - intros a b c [n1 E1] [n2 E2]. exists (n2 ++ n1).
    unfold cmds_since in *. rewrite E2, E1, app_assoc. reflexivity.
Qed.

Lemma cmds_grow_intro (w w' : @Worker S) new :
  ftp_cmds w' = new ++ ftp_cmds w -> cmds_grow w w'.
Proof. intros E. exists new. exact E. Qed.

Lemma cmds_grow_classify_names names :
  preserves (@cmds_grow S) (classify_names names).
Proof.
  induction names as [|name rest IH]; simpl; pres; try exact IH.
  unfold probe_type, FTP_cwd. pres;
    match goal with
    | |- cmds_grow _ (set_env _ (record_cmd ?c _)) =>
        apply (cmds_grow_intro _ _ [c]); reflexivity
    end.
Qed.

Lemma flag_unchanged_classify_names names :
  preserves (unchanged (@_mlsd_supported S)) (classify_names names).
Proof.
  induction names as [|name rest IH]; simpl; pres; try exact IH.
  unfold probe_type, FTP_cwd. pres; reflexivity.
Qed.

(** C9: when the extended listing of a directory succeeds with no entry,
    the listing step goes on to the name listing of that directory; the
    flag says Extended all the same. *)
Theorem empty_mlsd_answer_is_followed_by_nlst :
  forall (w : @Worker S) (s : S),
    _mlsd_supported w <> Some false ->
    ftp_mlsd (env w) = (Ok [], s) ->
    list_directory w =
      nlst_items (set_mlsd_supported (Some true) (set_env s (record_cmd MLSD w)))
    /\ (exists probes,
          ftp_cmds (snd (list_directory w))
          = probes ++ NLST :: MLSD :: ftp_cmds w)
    /\ _mlsd_supported (snd (list_directory w)) = Some true.
Proof.
  intros w s Hw Hm.
  assert (E : list_directory w =
    nlst_items (set_mlsd_supported (Some true) (set_env s (record_cmd MLSD w)))).
  { unfold list_directory, bind at 1. unfold try_mlsd, bind, get.
    destruct (_mlsd_supported w) as [[|]|] eqn:Ef; [|congruence|];
      unfold try_except, bind, FTP_mlsd, ftp_call, modify, ret;
      rewrite Hm; reflexivity. }
  split; [exact E|]. rewrite E. clear E.
  set (w1 := set_mlsd_supported _ _).
  unfold nlst_items, bind, try_except, FTP_nlst, ftp_call.
  destruct (ftp_nlst (env w1)) as [[names|e] s1]; simpl.
  - set (w2 := set_env s1 _).
    destruct (cmds_grow_classify_names names w2) as [probes Hp].
    pose proof (flag_unchanged_classify_names names w2) as Hf.
    split; [exists probes; rewrite Hp; reflexivity | rewrite Hf; reflexivity].
  - split; [exists []; reflexivity | reflexivity].
Qed.

End FallbackClaims.

Lemma empty_mlsd_answer_is_followed_by_nlst_witness :
  list_directory empty_dir_worker =
    nlst_items (set_mlsd_supported (Some true)
                  (set_env (good_server (RDir []))
                     (record_cmd MLSD empty_dir_worker)))
  /\ (exists probes,
        ftp_cmds (snd (list_directory empty_dir_worker))
        = probes ++ NLST :: MLSD :: ftp_cmds empty_dir_worker)
  /\ _mlsd_supported (snd (list_directory empty_dir_worker)) = Some true.
Proof.
  apply (empty_mlsd_answer_is_followed_by_nlst empty_dir_worker
           (good_server (RDir []))).
  - discriminate.
  - reflexivity.
Defined.

(** C3 as stated fails: a first session finds the server without MLSD and
    sets the flag to Fallback; the session is torn down; the next cycle
    opens a new session, and the flag is still Fallback, not Unknown: the
    new session sends no MLSD, the one MLSD of the trace is the first
    session's. *)
Lemma flag_survives_reconnect :
  _ftp_connection first_session = Some 0%nat /\
  _mlsd_supported first_session = Some false /\
  mlsd_sent (ftp_cmds first_session) = 1%nat /\
  _ftp_connection torn_down = None /\
  _ftp_connection second_session = Some 1%nat /\
  _mlsd_supported second_session = Some false /\
  _mlsd_supported second_session <> None /\
  mlsd_sent (ftp_cmds second_session) = 1%nat.
Proof.
  assert (E : _mlsd_supported second_session = Some false)
    by (vm_compute; reflexivity).
  repeat split; try (vm_compute; reflexivity).
  rewrite E. discriminate.
Qed.

(** ** The scheduler and its failure counter *)

Section Scheduler.

Context {S : Type} `{FtpEnv S}.

(** An attribute that no step of the traversal assigns. *)
Lemma walk_invariant_unchanged {B} (proj : @Worker S -> B) :
  (forall w s, proj (set_env s w) = proj w) ->
  (forall w c, proj (record_cmd c w) = proj w) ->
  (forall w e, proj (record_event e w) = proj w) ->
  (forall w t, proj (set_sock_timeout t w) = proj w) ->
  (forall w m, proj (set_fs m w) = proj w) ->
  (forall w o, proj (record_op o w) = proj w) ->
  (forall w v, proj (set_mlsd_supported v w) = proj w) ->
  walk_invariant (unchanged proj).
Proof.
  intros He Hc Hv Ht Hf Ho Hm. unfold unchanged.
  split; try (intros; rewrite ?He, ?Hc, ?Hv, ?Ht, ?Hf, ?Ho; reflexivity).
  - apply _.
  - unfold try_mlsd, FTP_mlsd. pres;
      unfold unchanged; rewrite ?He, ?Hc, ?Hv, ?Ht, ?Hf, ?Ho, ?Hm; reflexivity.
Qed.

Lemma walk_keeps_connection_failures depth rp lp :
  preserves (unchanged (@_connection_failures S))
    (download_dir_recursive depth rp lp).
Proof.
  apply download_dir_recursive_invariant, walk_invariant_unchanged;
    reflexivity.
Qed.

Lemma walk_keeps_ftp_connection depth rp lp :
  preserves (unchanged (@_ftp_connection S))
    (download_dir_recursive depth rp lp).
Proof.
  apply download_dir_recursive_invariant, walk_invariant_unchanged;
    reflexivity.
Qed.

Lemma walk_keeps_settings depth rp lp :
  preserves (unchanged (@settings S)) (download_dir_recursive depth rp lp).
Proof.
  apply download_dir_recursive_invariant, walk_invariant_unchanged;
    reflexivity.
Qed.

Lemma connect_loop_keeps_connection_failures l :
  preserves (unchanged (@_connection_failures S)) (connect_loop l).
Proof.
  induction l as [|a rest IH]; simpl; [pres|].
  unfold connect_attempt, _cleanup_connections.
  pres; try reflexivity; exact IH.
Qed.

(** A call of [download_dir_recursive] that the stack admits returns
    normally, whatever the server answers. *)
Lemma download_dir_recursive_returns depth rp lp (w : @Worker S) :
  exists n, fst (download_dir_recursive (Datatypes.S depth) rp lp w) = Ok n.
Proof.
  simpl. destruct (dir_body _ rp lp w) as [n w']. exists n. reflexivity.
Qed.

(** The top-level [cwd] fails: the traversal logs it and returns 0. *)
Lemma download_dir_recursive_cwd_fails depth rp lp (w : @Worker S) e s :
  ftp_cwd rp (env w) = (Raise e, s) ->
  download_dir_recursive (Datatypes.S depth) rp lp w
  = (Ok 0, record_event (PROCESS_DIR_ERROR rp e)
             (set_env s (record_cmd (CWD rp) w))).
Proof.
  intros Hc. simpl. unfold dir_body, enter_directory, bind at 1.
  unfold FTP_cwd, ftp_call. rewrite Hc. reflexivity.
Qed.

#[global] Instance kept_or_zero_preorder : PreOrder (@kept_or_zero S).
Proof.
  split.
  - intros w. left. reflexivity.
  - intros a b c [Hab|Hab] [Hbc|Hbc]; unfold kept_or_zero in *;
      first [left; congruence | right; congruence].
Qed.

Lemma kept_or_zero_of_unchanged (w w' : @Worker S) :
  unchanged _connection_failures w w' -> kept_or_zero w w'.
Proof. intros E. left. exact E. Qed.

Lemma never_raises__cleanup_connections :
  never_raises (@_cleanup_connections S _).
Proof. unfold _cleanup_connections. nr. Qed.

Lemma never_raises__reset_connections :
  never_raises (@_reset_connections S _).
Proof.
  unfold _reset_connections. nr. apply never_raises__cleanup_connections.
Qed.

Lemma never_raises__perform_periodic_cleanup :
  never_raises (@_perform_periodic_cleanup S _).
Proof.
  unfold _perform_periodic_cleanup. nr.
  apply never_raises__cleanup_connections.
Qed.

Lemma _reset_connections_zeroes (w : @Worker S) :
  _connection_failures (snd (_reset_connections w)) = 0 /\
  _ftp_connection (snd (_reset_connections w)) = None.
Proof.
  unfold _reset_connections. rewrite bind_get, bind_emit.
  set (w0 := record_event _ w).
  destruct (never_raises__cleanup_connections w0) as [[] Hc].
  destruct (_cleanup_connections w0) as [r w1] eqn:E. simpl in Hc. subst r.
  rewrite (bind_eq _ _ _ _ _ E). simpl. split; [reflexivity|].
  revert E. unfold _cleanup_connections. rewrite bind_get.
  destruct (_ftp_connection w0) eqn:Ec.
  - unfold bind. destruct (try_except _ _ w0) as [[[]|e] w2]; simpl.
    + intros E. inversion E. reflexivity.
    + discriminate.
  - intros E. inversion E. subst w1. exact Ec.
Qed.

Lemma kept_or_zero__reset_connections :
  preserves (@kept_or_zero S) (@_reset_connections S _).
Proof. intros w. right. apply _reset_connections_zeroes. Qed.

Lemma kept_or_zero_perform depth (w : @Worker S) :
  kept_or_zero w (snd (perform_ftp_download depth w)).
Proof.
  unfold perform_ftp_download.
  match goal with |- context [match ?b w with _ => _ end] => set (body := b) end.
  assert (Hb : preserves (@kept_or_zero S) body).
  { subst body. pres; try (left; reflexivity).
    - intros w0. apply kept_or_zero_of_unchanged,
        connect_loop_keeps_connection_failures.
    - intros w0. apply kept_or_zero_of_unchanged,
        walk_keeps_connection_failures. }
  specialize (Hb w). destruct (body w) as [[n|e] w1]; simpl in *; [exact Hb|].
  assert (Hh : forall ev, preserves (@kept_or_zero S)
                 (bind (emit ev) (fun _ => _reset_connections))).
  { intros ev. pres; [left; reflexivity|].
    apply kept_or_zero__reset_connections. }
  destruct e; simpl; (etransitivity; [exact Hb | apply Hh]).
Qed.

Lemma cleanup_keeps_connection_failures :
  preserves (unchanged (@_connection_failures S)) _cleanup_connections.
Proof. unfold _cleanup_connections. pres; reflexivity. Qed.

Lemma periodic_cleanup_keeps_connection_failures :
  preserves (unchanged (@_connection_failures S)) _perform_periodic_cleanup.
Proof.
  unfold _perform_periodic_cleanup. pres; try reflexivity.
  apply cleanup_keeps_connection_failures.
Qed.

Lemma never_raises_classify_names names :
  never_raises (classify_names (S := S) names).
Proof.
  induction names as [|name rest IH]; simpl; nr; try exact IH.
  unfold probe_type. nr.
Qed.

(** An error of MLSD or of NLST does not leave the listing. *)
Lemma never_raises_list_directory : never_raises (list_directory (S := S)).
Proof.
  unfold list_directory, try_mlsd, nlst_items. nr;
    apply never_raises_classify_names.
Qed.

Lemma kept_or_zero_cycle_body depth :
  preserves (@kept_or_zero S) (cycle_body depth).
Proof.
  unfold cycle_body. pres; try (left; reflexivity).
  - intros w0. pose proof (kept_or_zero_perform depth w0) as X.
    destruct (perform_ftp_download depth w0). exact X.
  - right. reflexivity.
  - intros w0. apply kept_or_zero_of_unchanged,
      periodic_cleanup_keeps_connection_failures.
Qed.

Lemma cycle_body_unfold depth (w : @Worker S) i :
  int_get (interval (settings w)) 60 = Ok i ->
  cycle_body depth w = stop_event_wait i (before_wait depth w).
Proof.
  intros Ei. unfold cycle_body, before_wait.
  rewrite bind_modify, bind_get, bind_lift. simpl. rewrite Ei.
  rewrite bind_emit.
  change (record_event _ (set_cycle_count _ w)) with (at_download w).
  unfold bind at 1.
  destruct (perform_ftp_download depth (at_download w)) as [n w1]. simpl.
  destruct (0 <? n).
  - rewrite bind_modify, bind_emit.
    match goal with |- bind _ _ ?w0 = _ => set (w2 := w0) end.
    destruct (never_raises__perform_periodic_cleanup w2) as [[] Hn].
    destruct (_perform_periodic_cleanup w2) as [r w3] eqn:Ew.
    simpl in Hn. subst r. rewrite (bind_eq _ _ _ _ _ Ew). reflexivity.
  - rewrite bind_ret, bind_emit.
    match goal with |- bind _ _ ?w0 = _ => set (w2 := w0) end.
    destruct (never_raises__perform_periodic_cleanup w2) as [[] Hn].
    destruct (_perform_periodic_cleanup w2) as [r w3] eqn:Ew.
    simpl in Hn. subst r. rewrite (bind_eq _ _ _ _ _ Ew). reflexivity.
Qed.

Lemma kept_or_zero_before_wait depth (w : @Worker S) :
  kept_or_zero w (before_wait depth w).
Proof.
  unfold before_wait.
  pose proof (kept_or_zero_perform depth (at_download w)) as Hp.
  destruct (perform_ftp_download depth (at_download w)) as [n w1].
  simpl in *.
  match goal with
  | |- kept_or_zero _ (snd (_perform_periodic_cleanup ?w0)) =>
      assert (Hk : kept_or_zero w w0)
  end.
  { destruct (0 <? n); [right; reflexivity | exact Hp]. }
  etransitivity; [exact Hk|].
  apply kept_or_zero_of_unchanged, periodic_cleanup_keeps_connection_failures.
Qed.

(** The loop body raises on an interval that is not a number, before
    anything else happened, and on an interval on which the wait that
    ends it overflows, after everything else happened; and in no other
    case. *)
Lemma cycle_body_raises depth (w : @Worker S) e w1 :
  cycle_body depth w = (Raise e, w1) ->
  (interval (settings w) = NotInt /\ e = ValueError /\
   w1 = set_cycle_count (_cycle_count w + 1) w) \/
  (exists i, int_get (interval (settings w)) 60 = Ok i /\
             wait_overflows i (env w1) = true /\ e = OverflowError /\
             w1 = before_wait depth w).
Proof.
  destruct (int_get (interval (settings w)) 60) as [i|e0] eqn:Ei.
  - rewrite (cycle_body_unfold depth w i Ei). unfold stop_event_wait.
    destruct (wait_overflows i (env (before_wait depth w))) eqn:Eo;
      [|discriminate].
    intros E. inversion E. subst. right. exists i. repeat split. exact Eo.
  - unfold cycle_body. rewrite bind_modify, bind_get, bind_lift. simpl.
    rewrite Ei. intros E. inversion E. subst. left.
    destruct (interval (settings w)); simpl in Ei; try discriminate.
    inversion Ei. repeat split.
Qed.

Lemma cycle_body_returns depth (w : @Worker S) i :
  int_get (interval (settings w)) 60 = Ok i ->
  (forall s, wait_overflows i s = false) ->
  cycle_body depth w
  = (Ok tt, set_env (time_sleep i (env (before_wait depth w)))
              (before_wait depth w)).
Proof.
  intros Ei Ho. rewrite (cycle_body_unfold depth w i Ei).
  unfold stop_event_wait. rewrite Ho. reflexivity.
Qed.

Lemma perform_without_connection depth (w w1 : @Worker S) :
  _get_or_create_ftp_connection w = (Ok None, w1) ->
  perform_ftp_download depth w = (0, w1).
Proof.
  intros Hc. unfold perform_ftp_download.
  rewrite (bind_eq _ _ _ _ _ Hc). reflexivity.
Qed.

Lemma run_cycle_without_connection depth (w w1 : @Worker S) :
  interval_accepted w ->
  _get_or_create_ftp_connection (at_download w) = (Ok None, w1) ->
  _connection_failures (run_cycle depth w) = _connection_failures w /\
  loop_errors (events (run_cycle depth w)) = loop_errors (events w1).
Proof.
  intros [i [Ei Ho]] Hc.
  pose proof (connect_loop_keeps_connection_failures [0; 1; 2] (at_download w))
    as Hk.
  unfold _get_or_create_ftp_connection in Hc. rewrite Hc in Hk. simpl in Hk.
  unfold unchanged in Hk. simpl in Hk.
  set (w2 := record_event (MONITORING_CYCLE_END (_cycle_count w + 1)) w1).
  assert (Eb : before_wait depth w = snd (_perform_periodic_cleanup w2)).
  { unfold before_wait.
    rewrite (perform_without_connection depth _ _ Hc). reflexivity. }
  unfold run_cycle, try_except.
  rewrite (cycle_body_returns depth w i Ei Ho), Eb. simpl.
  pose proof (periodic_cleanup_keeps_connection_failures w2) as Hp.
  assert (P : preserves (unchanged (fun w => loop_errors (@events S w)))
                (@_perform_periodic_cleanup S _)).
  { unfold _perform_periodic_cleanup, _cleanup_connections.
    pres; reflexivity. }
  specialize (P w2). unfold unchanged in Hp, P.
  split; [rewrite Hp; exact Hk | rewrite P; reflexivity].
Qed.

Lemma perform_top_level_permission_error depth (w w1 : @Worker S) c rp lp s :
  _get_or_create_ftp_connection w = (Ok (Some c), w1) ->
  remote_path (settings w1) = Some rp ->
  local_path (settings w1) = Some lp ->
  ftp_cwd rp (env w1) = (Raise error_perm, s) ->
  perform_ftp_download (Datatypes.S depth) w
  = (0, record_event (PROCESS_DIR_ERROR rp error_perm)
          (set_env s (record_cmd (CWD rp) (record_event CONNECT_SUCCESS w1)))).
Proof.
  intros Hc Hrp Hlp Hcwd. unfold perform_ftp_download.
  rewrite (bind_eq _ _ _ _ _ Hc). rewrite bind_emit, bind_get.
  simpl settings. rewrite Hrp, Hlp. unfold setting. rewrite !bind_ret.
  rewrite (download_dir_recursive_cwd_fails depth rp lp _ error_perm s);
    [reflexivity | exact Hcwd].
Qed.

(** The handler: one more failure, logged; at the third the session is
    released and the counter starts again. *)
Lemma cycle_handler_counts e (w : @Worker S) :
  _connection_failures (snd (cycle_handler e w))
  = (if _max_connection_failures <=? _connection_failures w + 1 then 0
     else _connection_failures w + 1) /\
  (_connection_failures w + 1 < _max_connection_failures ->
   _ftp_connection (snd (cycle_handler e w)) = _ftp_connection w) /\
  (_max_connection_failures <= _connection_failures w + 1 ->
   _ftp_connection (snd (cycle_handler e w)) = None) /\
  loop_errors (events (snd (cycle_handler e w)))
  = Datatypes.S (loop_errors (events w)).
Proof.
  unfold cycle_handler. rewrite bind_modify, bind_emit, bind_get. simpl.
  set (w2 := record_event _ _).
  destruct (_max_connection_failures <=? _connection_failures w + 1) eqn:Et.
  - apply Z.leb_le in Et.
    destruct (never_raises__reset_connections w2) as [[] Hn].
    destruct (_reset_connections_zeroes w2) as [Hz Hc].
    assert (He : loop_errors (events (snd (_reset_connections w2)))
                 = loop_errors (events w2)).
    { assert (P : preserves (unchanged (fun w => loop_errors (@events S w)))
                    (@_reset_connections S _)).
      { unfold _reset_connections, _cleanup_connections. pres; reflexivity. }
      apply P. }
    destruct (_reset_connections w2) as [r w3] eqn:Er.
    simpl in Hn, Hz, Hc, He. subst r.
    rewrite (bind_eq _ _ _ _ _ Er). simpl. repeat split.
    + exact Hz.
    + intros. lia.
    + intros _. exact Hc.
    + rewrite He. reflexivity.
  - apply Z.leb_gt in Et. rewrite bind_ret. simpl. repeat split.
    intros. lia.
Qed.

Lemma run_cycle_bad_interval depth (w : @Worker S) :
  interval (settings w) = NotInt ->
  _connection_failures (run_cycle depth w)
  = (if _max_connection_failures <=? _connection_failures w + 1 then 0
     else _connection_failures w + 1) /\
  (_connection_failures w + 1 < _max_connection_failures ->
   _ftp_connection (run_cycle depth w) = _ftp_connection w) /\
  (_max_connection_failures <= _connection_failures w + 1 ->
   _ftp_connection (run_cycle depth w) = None) /\
  loop_errors (events (run_cycle depth w)) = Datatypes.S (loop_errors (events w)).
Proof.
  intros Hi.
  assert (E : run_cycle depth w
              = snd (cycle_handler ValueError
                       (set_cycle_count (_cycle_count w + 1) w))).
  { unfold run_cycle, try_except, cycle_body.
    rewrite bind_modify, bind_get, bind_lift. simpl. rewrite Hi. reflexivity. }
  rewrite E.
  exact (cycle_handler_counts ValueError
           (set_cycle_count (_cycle_count w + 1) w)).
Qed.

Lemma run_cycle_overflow depth (w : @Worker S) :
  interval_overflows w ->
  run_cycle depth w = snd (cycle_handler OverflowError (before_wait depth w)).
Proof.
  intros [i [Ei Ho]]. unfold run_cycle, try_except.
  rewrite (cycle_body_unfold depth w i Ei). unfold stop_event_wait.
  rewrite Ho. reflexivity.
Qed.

(** C5, as the code has it: a connect failure after the three attempts and
    a permission error at the change into the top-level directory do not
    reach the scheduler's handler.  The first ends the cycle with count 0,
    the second is logged by the traversal, which returns 0; neither changes
    the failure counter, and the session is not released.  An error of MLSD
    or NLST does not leave the listing.  A cycle whose interval the closing
    wait accepts leaves the counter as it was or at zero.  The handler runs
    for an error of the loop body itself: an interval that is not a number,
    before anything was done, or one on which the closing wait overflows,
    after everything was done.  It adds one to the counter, and when the
    counter has reached 3 it releases the session and sets the counter to
    zero. *)
Theorem failure_counter_counts_loop_errors_only :
  forall (depth : nat) (w : @Worker S),
    (forall w1,
       interval_accepted w ->
       _get_or_create_ftp_connection (at_download w) = (Ok None, w1) ->
       perform_ftp_download depth (at_download w) = (0, w1) /\
       _connection_failures (run_cycle depth w) = _connection_failures w /\
       loop_errors (events (run_cycle depth w)) = loop_errors (events w1)) /\
    (forall c w1 rp lp s,
       _get_or_create_ftp_connection w = (Ok (Some c), w1) ->
       remote_path (settings w1) = Some rp ->
       local_path (settings w1) = Some lp ->
       ftp_cwd rp (env w1) = (Raise error_perm, s) ->
       fst (perform_ftp_download (Datatypes.S depth) w) = 0 /\
       _connection_failures (snd (perform_ftp_download (Datatypes.S depth) w))
       = _connection_failures w /\
       _ftp_connection (snd (perform_ftp_download (Datatypes.S depth) w))
       = _ftp_connection w1 /\
       head (events (snd (perform_ftp_download (Datatypes.S depth) w)))
       = Some (PROCESS_DIR_ERROR rp error_perm)) /\
    never_raises (list_directory (S := S)) /\
    (interval_accepted w -> kept_or_zero w (run_cycle depth w)) /\
    (interval (settings w) = NotInt ->
       _connection_failures (run_cycle depth w)
       = (if _max_connection_failures <=? _connection_failures w + 1 then 0
          else _connection_failures w + 1) /\
       (_connection_failures w + 1 < _max_connection_failures ->
        _ftp_connection (run_cycle depth w) = _ftp_connection w) /\
       (_max_connection_failures <= _connection_failures w + 1 ->
        _ftp_connection (run_cycle depth w) = None) /\
       loop_errors (events (run_cycle depth w))
       = Datatypes.S (loop_errors (events w))) /\
    (interval_overflows w ->
       exists w1,
         cycle_body depth w = (Raise OverflowError, w1) /\
         kept_or_zero w w1 /\
         _connection_failures (run_cycle depth w)
         = (if _max_connection_failures <=? _connection_failures w1 + 1 then 0
            else _connection_failures w1 + 1) /\
         (_connection_failures w1 + 1 < _max_connection_failures ->
          _ftp_connection (run_cycle depth w) = _ftp_connection w1) /\
         (_max_connection_failures <= _connection_failures w1 + 1 ->
          _ftp_connection (run_cycle depth w) = None) /\
         loop_errors (events (run_cycle depth w))
         = Datatypes.S (loop_errors (events w1))).
Proof.
  intros depth w. split; [|split; [|split; [|split; [|split]]]].
  - intros w1 Hi Hc. split; [apply perform_without_connection, Hc|].
    apply run_cycle_without_connection; assumption.
  - intros c w1 rp lp s Hc Hrp Hlp Hcwd.
    rewrite (perform_top_level_permission_error depth w w1 c rp lp s
               Hc Hrp Hlp Hcwd). simpl.
    pose proof (connect_loop_keeps_connection_failures [0; 1; 2] w) as Hk.
    unfold _get_or_create_ftp_connection in Hc. rewrite Hc in Hk.
    repeat split. exact Hk.
  - apply never_raises_list_directory.
  - intros [i [Ei Ho]]. unfold run_cycle, try_except.
    rewrite (cycle_body_returns depth w i Ei Ho). simpl.
    apply (kept_or_zero_before_wait depth w).
  - apply run_cycle_bad_interval.
  - intros Hov. exists (before_wait depth w).
    rewrite (run_cycle_overflow depth w Hov).
    destruct Hov as [i [Ei Ho]].
    split.
    { rewrite (cycle_body_unfold depth w i Ei). unfold stop_event_wait.
      rewrite Ho. reflexivity. }
    split; [apply kept_or_zero_before_wait|].
    apply (cycle_handler_counts OverflowError).
Qed.

End Scheduler.

Lemma failure_counter_counts_loop_errors_only_witness :
  (perform_ftp_download 10 (at_download refused_worker)
   = (0, snd (_get_or_create_ftp_connection (at_download refused_worker))) /\
   _connection_failures (run_cycle 10 refused_worker)
   = _connection_failures refused_worker /\
   loop_errors (events (run_cycle 10 refused_worker))
   = loop_errors
       (events (snd (_get_or_create_ftp_connection
                       (at_download refused_worker))))) /\
  (fst (perform_ftp_download 10 no_root_worker) = 0 /\
   _connection_failures (snd (perform_ftp_download 10 no_root_worker))
   = _connection_failures no_root_worker /\
   _ftp_connection (snd (perform_ftp_download 10 no_root_worker))
   = _ftp_connection (snd (_get_or_create_ftp_connection no_root_worker)) /\
   head (events (snd (perform_ftp_download 10 no_root_worker)))
   = Some (PROCESS_DIR_ERROR "/nowhere" error_perm)) /\
  kept_or_zero refused_worker (run_cycle 10 refused_worker) /\
  (_connection_failures (run_cycle 10 bad_interval_worker)
   = (if _max_connection_failures
           <=? _connection_failures bad_interval_worker + 1
      then 0 else _connection_failures bad_interval_worker + 1) /\
   (_connection_failures bad_interval_worker + 1 < _max_connection_failures ->
    _ftp_connection (run_cycle 10 bad_interval_worker)
    = _ftp_connection bad_interval_worker) /\
   (_max_connection_failures <= _connection_failures bad_interval_worker + 1 ->
    _ftp_connection (run_cycle 10 bad_interval_worker) = None) /\
   loop_errors (events (run_cycle 10 bad_interval_worker))
   = Datatypes.S (loop_errors (events bad_interval_worker))) /\
  (exists w1,
     cycle_body 10 huge_interval_worker = (Raise OverflowError, w1) /\
     kept_or_zero huge_interval_worker w1 /\
     _connection_failures (run_cycle 10 huge_interval_worker)
     = (if _max_connection_failures <=? _connection_failures w1 + 1 then 0
        else _connection_failures w1 + 1) /\
     (_connection_failures w1 + 1 < _max_connection_failures ->
      _ftp_connection (run_cycle 10 huge_interval_worker)
      = _ftp_connection w1) /\
     (_max_connection_failures <= _connection_failures w1 + 1 ->
      _ftp_connection (run_cycle 10 huge_interval_worker) = None) /\
     loop_errors (events (run_cycle 10 huge_interval_worker))
     = Datatypes.S (loop_errors (events w1))).
Proof.
  assert (Ha : interval_accepted refused_worker).
  { exists 60. split; [reflexivity | intros s; reflexivity]. }
  assert (Ho : interval_overflows huge_interval_worker).
  { exists (10 ^ 30). split; [reflexivity | intros s; reflexivity]. }
  split; [|split; [|split; [|split]]].
  - apply (proj1 (failure_counter_counts_loop_errors_only 10 refused_worker)).
    + exact Ha.
    + vm_compute. reflexivity.
  - apply (proj1 (proj2 (failure_counter_counts_loop_errors_only 9
                           no_root_worker))
             0%nat (snd (_get_or_create_ftp_connection no_root_worker))
             "/nowhere" "local"
             (snd (ftp_cwd "/nowhere"
                     (env (snd (_get_or_create_ftp_connection
                                  no_root_worker)))))).
    + vm_compute. reflexivity.
    + vm_compute. reflexivity.
    + vm_compute. reflexivity.
    + vm_compute. reflexivity.
  - apply (proj1 (proj2 (proj2 (proj2
             (failure_counter_counts_loop_errors_only 10 refused_worker))))).
    exact Ha.
  - apply (proj1 (proj2 (proj2 (proj2 (proj2
             (failure_counter_counts_loop_errors_only 10
                bad_interval_worker)))))).
    reflexivity.
  - apply (proj2 (proj2 (proj2 (proj2 (proj2
             (failure_counter_counts_loop_errors_only 10
                huge_interval_worker)))))).
    exact Ho.
Defined.

(** C5 as stated fails: against a server that refuses every connection the
    three attempts of a cycle fail, the cycle ends normally, and the failure
    counter is not incremented; after three such cycles it is still zero,
    the scheduler's handler never ran and nothing was reset. *)
Lemma connect_failure_is_not_counted :
  ftp_cmds (run_cycle 10 refused_worker) = [CONNECT; CONNECT; CONNECT] /\
  _connection_failures (run_cycle 10 refused_worker) = 0 /\
  loop_errors (events (run_cycle 10 refused_worker)) = 0%nat /\
  _connection_failures (Nat.iter 3 (run_cycle 10) refused_worker) = 0 /\
  loop_errors (events (Nat.iter 3 (run_cycle 10) refused_worker)) = 0%nat /\
  length (ftp_cmds (Nat.iter 3 (run_cycle 10) refused_worker)) = 9%nat.
Proof. repeat split; vm_compute; reflexivity. Qed.

(** ** The skip-log limit *)

(** C4 fails on the code: the counter of skip messages is a local variable
    of each call of [download_dir_recursive], so it starts again in every
    directory.  With a limit of one and two directories of two mirrored
    files each, a cycle downloads nothing, skips four files and logs two
    "skipping" events, one per directory. *)
Theorem skip_log_limit_is_per_directory :
  skip_log_limit (settings throttled_worker) = IntVal 1 /\
  fst (perform_ftp_download 10 throttled_worker) = 0 /\
  skip_events (events (run_cycle 10 throttled_worker)) = 2%nat /\
  List.filter is_skip_event (events (run_cycle 10 throttled_worker))
  = [DOWNLOAD_SKIPPED "/data/sub/g1" 1; DOWNLOAD_SKIPPED "/data/f1" 1].
Proof. repeat split; vm_compute; reflexivity. Qed.

(** ** The stability gate *)

Lemma consecutive_equal_cons a b l :
  consecutive_equal (a :: b :: l) <->
  (exists c, a = Some c /\ b = Some c) \/ consecutive_equal (b :: l).
Proof.
  unfold consecutive_equal. split.
  - intros [i [c [H1 H2]]]. destruct i as [|i].
    + left. exists c. simpl in *. split; congruence.
    + right. exists i, c. split; assumption.
  - intros [[c [-> ->]] | [i [c [H1 H2]]]].
    + exists 0%nat, c. split; reflexivity.
    + exists (Datatypes.S i), c. split; assumption.
Qed.

Lemma consecutive_equal_single a : ~ consecutive_equal [a].
Proof. intros [i [c [H1 H2]]]. destruct i; discriminate. Qed.

(** A read that failed takes part in no pair: a pair found in the whole
    sequence but not before the failure lies after it. *)
Lemma consecutive_equal_after_failure (init : option Z) reads i :
  reads !! i = Some None ->
  ~ consecutive_equal (init :: take (Datatypes.S i) reads) ->
  consecutive_equal (init :: reads) ->
  exists j c, (i < j)%nat /\ reads !! j = Some (Some c) /\
              reads !! (Datatypes.S j) = Some (Some c).
Proof.
  intros Hi Hbefore [k [c [H1 H2]]].
  destruct (decide (k <= i)%nat) as [Hle|Hgt].
  - exfalso. destruct (decide (k = i)) as [->|Hne].
    + simpl in H2. congruence.
    + apply Hbefore. exists k, c. split.
      * destruct k as [|k]; [exact H1|]. simpl in *.
        rewrite lookup_take_lt by lia. exact H1.
      * simpl in *. rewrite lookup_take_lt by lia. exact H2.
  - destruct k as [|k]; [lia|]. simpl in H1, H2.
    destruct (decide (k = i)) as [->|Hne]; [congruence|].
    exists k, c. split; [lia|]. split; assumption.
Qed.

Section Stability.

Context {S : Type} `{FtpEnv S}.

Lemma never_raises_stability_loop ticks start wait p prev cnt :
  never_raises (stability_loop (S := S) ticks start wait p prev cnt).
Proof.
  revert prev cnt. induction ticks as [|t IH]; intros prev cnt; simpl; nr.
  apply IH.
Qed.

Lemma never_raises_stability_gate p f :
  never_raises (stability_gate (S := S) p f).
Proof.
  unfold stability_gate, initial_size. nr.
  apply never_raises_stability_loop.
Qed.

(** The loop answers "stable" exactly when the sizes read, the last one
    known before included, hold two successive equal successful reads. *)
Lemma stability_loop_answer ticks start wait p prev cnt (w : @Worker S) :
  loop_state_ok prev cnt ->
  exists b last w',
    stability_loop ticks start wait p prev cnt w = (Ok (b, last), w') /\
    (b = true <->
     consecutive_equal (prev :: poll_reads ticks start wait p (env w))).
Proof.
  revert prev cnt w. induction ticks as [|t IH]; intros prev cnt w Hok; simpl.
  - exists false, prev, w. split; [reflexivity|]. split; [discriminate|].
    intros Hc. exfalso. exact (consecutive_equal_single _ Hc).
  - rewrite bind_get.
    destruct (time_time (env w) - start <? wait) eqn:Eg.
    2:{ exists false, prev, w. split; [reflexivity|]. split; [discriminate|].
        intros Hc. exfalso. exact (consecutive_equal_single _ Hc). }
    unfold bind at 1. unfold FTP_size.
    destruct (ftp_size p (env w)) as [r s] eqn:Er.
    set (w1 := set_env s (record_cmd (SIZE p) w)).
    destruct r as [c|]; simpl.
    + destruct (bool_decide (prev = Some c)) eqn:Ep.
      * apply bool_decide_eq_true in Ep. subst prev.
        destruct Hok as [[-> _]|[_ Hn]]; [|discriminate]. simpl.
        exists true, (Some c), w1. split; [reflexivity|].
        split; [|reflexivity]. intros _. apply consecutive_equal_cons.
        left. exists c. split; reflexivity.
      * apply bool_decide_eq_false in Ep. simpl.
        rewrite bind_modify.
        destruct (IH (Some c) 1 (set_env (time_sleep 1 (env w1)) w1))
          as [b [last [w' [E Hb]]]].
        { left. split; [reflexivity | eexists; reflexivity]. }
        exists b, last, w'. split; [exact E|]. rewrite Hb.
        rewrite (consecutive_equal_cons prev). simpl. split; [tauto|].
        intros [[c0 [E1 E2]]|Hc]; [|exact Hc]. congruence.
    + rewrite bind_modify.
      destruct (IH None 0 (set_env (time_sleep 1 (env w1)) w1))
        as [b [last [w' [E Hb]]]].
      { right. split; reflexivity. }
      exists b, last, w'. split; [exact E|]. rewrite Hb.
      rewrite (consecutive_equal_cons prev). simpl. split; [tauto|].
      intros [[c0 [E1 E2]]|Hc]; [discriminate | exact Hc].
Qed.

(** On a clock that obeys the sleep, the passes admitted are enough: the
    loop ends by its guard or by a stable pair, and admitting more passes
    changes nothing. *)
Lemma stability_loop_enough ticks more start wait p prev cnt (w : @Worker S) :
  clock_obeys_sleep ->
  wait - (time_time (env w) - start) <= Z.of_nat ticks ->
  stability_loop (ticks + more) start wait p prev cnt w
  = stability_loop ticks start wait p prev cnt w.
Proof.
  intros [Hsleep Hsize].
  revert prev cnt w. induction ticks as [|t IH]; intros prev cnt w Hle.
  - destruct more as [|more]; [reflexivity|]. simpl. rewrite bind_get.
    assert (Eg : (time_time (env w) - start <? wait) = false)
      by (apply Z.ltb_ge; simpl in Hle; lia).
    rewrite Eg. reflexivity.
  - simpl. rewrite !bind_get.
    destruct (time_time (env w) - start <? wait) eqn:Eg; [|reflexivity].
    unfold bind at 1 3. unfold FTP_size.
    pose proof (Hsize p (env w)) as Hs.
    destruct (ftp_size p (env w)) as [r s] eqn:Er. simpl in Hs.
    destruct (stability_step prev cnt r) as [prev' cnt'].
    destruct (required_stable_count <=? cnt'); [reflexivity|].
    rewrite !bind_modify. apply IH. simpl.
    pose proof (Hsleep s). lia.
Qed.

#[global] Instance only_size_cmds_preorder p :
  PreOrder (@only_size_cmds S p).
Proof.
  split.
  - intros w. exists []. split; [reflexivity | constructor].
  - intros a b c [n1 [E1 F1]] [n2 [E2 F2]]. exists (n2 ++ n1). split.
    + unfold cmds_since in *. rewrite E2, E1, app_assoc. reflexivity.
    + apply Forall_app. split; assumption.
Qed.

Ltac size_prim :=
  lazymatch goal with
  | |- only_size_cmds ?p _ (set_env _ (record_cmd (SIZE ?p) _)) =>
      exists [SIZE p]; split; [reflexivity | repeat constructor]
  | |- only_size_cmds _ _ _ =>
      exists []; split; [reflexivity | constructor]
  end.

Lemma only_size_cmds_stability_loop ticks start wait p prev cnt :
  preserves (@only_size_cmds S p) (stability_loop ticks start wait p prev cnt).
Proof.
  revert prev cnt. induction ticks as [|t IH]; intros prev cnt; simpl;
    pres; try size_prim.
  apply IH.
Qed.

Lemma only_size_cmds_stability_gate p f :
  preserves (@only_size_cmds S p) (stability_gate p f).
Proof.
  unfold stability_gate, initial_size. pres; try size_prim.
  apply only_size_cmds_stability_loop.
Qed.

Lemma stability_loop_keeps {B} (proj : @Worker S -> B) ticks start wait p
    prev cnt :
  (forall w s, proj (set_env s w) = proj w) ->
  (forall w c, proj (record_cmd c w) = proj w) ->
  preserves (unchanged proj) (stability_loop ticks start wait p prev cnt).
Proof.
  intros He Hc.
  revert prev cnt. induction ticks as [|t IH]; intros prev cnt; simpl;
    pres; unfold unchanged; rewrite ?He, ?Hc; try reflexivity.
  apply IH.
Qed.

Lemma stability_gate_keeps {B} (proj : @Worker S -> B) p f :
  (forall w s, proj (set_env s w) = proj w) ->
  (forall w c, proj (record_cmd c w) = proj w) ->
  (forall w e, proj (record_event e w) = proj w) ->
  preserves (unchanged proj) (stability_gate p f).
Proof.
  intros He Hc Hv.
  unfold stability_gate, initial_size. pres;
    unfold unchanged; rewrite ?He, ?Hc, ?Hv; try reflexivity.
  apply stability_loop_keeps; assumption.
Qed.

(** The gate with a first size to start from is the loop, opened at the
    time of the clock, followed by the log entry. *)
Lemma stability_gate_unfold p f (w w1 : @Worker S) wait n :
  stability_config (settings w) = (true, wait) ->
  0 < wait ->
  initial_size p f w = (Ok (Some n), w1) ->
  stability_gate p f w
  = bind (stability_loop (Z.to_nat wait) (time_time (env w1)) wait p
            (Some n) 1)
      (fun r =>
         if r.1 then bind (emit (FILE_STABLE p r.2)) (fun _ => ret true)
         else bind (emit (FILE_UNSTABLE_TIMEOUT p)) (fun _ => ret false)) w1.
Proof.
  intros Hcfg Hw Hinit. unfold stability_gate. rewrite bind_get, Hcfg.
  assert (E0 : (0 <? wait) = true) by (apply Z.ltb_lt; exact Hw).
  cbv beta iota zeta. rewrite E0. cbn [andb].
  rewrite (bind_eq _ _ _ _ _ Hinit). rewrite bind_get. reflexivity.
Qed.

(** The answer of the gate when it has a first size to start from. *)
Lemma stability_gate_answer p f (w w1 : @Worker S) wait n :
  stability_config (settings w) = (true, wait) ->
  0 < wait ->
  initial_size p f w = (Ok (Some n), w1) ->
  exists b w',
    stability_gate p f w = (Ok b, w') /\
    (b = true <->
     consecutive_equal (Some n :: window_reads wait p (env w1))) /\
    (b = false -> head (events w') = Some (FILE_UNSTABLE_TIMEOUT p)).
Proof.
  intros Hcfg Hw Hinit.
  rewrite (stability_gate_unfold p f w w1 wait n Hcfg Hw Hinit).
  destruct (stability_loop_answer (Z.to_nat wait) (time_time (env w1)) wait
              p (Some n) 1 w1) as [b [last [w' [E Hb]]]].
  { left. split; [reflexivity | eexists; reflexivity]. }
  rewrite (bind_eq _ _ _ _ _ E). simpl fst. destruct b.
  - exists true, (record_event (FILE_STABLE p last) w').
    split; [reflexivity|]. split; [exact Hb | discriminate].
  - exists false, (record_event (FILE_UNSTABLE_TIMEOUT p) w').
    split; [reflexivity|]. split; [exact Hb | reflexivity].
Qed.

End Stability.

Section StabilityClaim.

Context {S : Type} `{FtpEnv S}.

(** C6: with the gate on and a first size [n] to start from, let [reads] be
    the sizes read by the polls that the guard of the wait window lets
    through.  A failed read sets the counter to zero; a read that failed
    takes part in no pair, so that an answer "stable" after a failure, when
    there was none before, rests on two equal successful reads after it;
    the gate answers "stable" exactly when [n] followed by [reads] holds
    two successive equal successful reads; when it does not, the file is
    not downloaded: the count and the local files are as before, only SIZE
    was sent, and the timeout is logged; and on a clock that obeys the
    sleep the polling ends by the guard or by a stable pair, not by the
    bound on the number of passes. *)
Theorem stability_gate_needs_two_equal_reads :
  forall (w w1 : @Worker S) (ls : loop_state) (f : facts)
         (remote_item_path local_path local_item_path : string) (wait n : Z),
    stability_config (settings w) = (true, wait) ->
    0 < wait ->
    initial_size remote_item_path f
      (record_event (DOWNLOAD_START remote_item_path) w) = (Ok (Some n), w1) ->
    (forall prev cnt, stability_step prev cnt None = (None, 0)) /\
    (forall c, stability_step None 0 (Some c) = (Some c, 1) /\
               1 < required_stable_count /\
               stability_step (Some c) 1 (Some c)
               = (Some c, required_stable_count)) /\
    (forall i,
       window_reads wait remote_item_path (env w1) !! i = Some None ->
       ~ consecutive_equal
           (Some n :: take (Datatypes.S i)
                        (window_reads wait remote_item_path (env w1))) ->
       fst (stability_gate remote_item_path f
              (record_event (DOWNLOAD_START remote_item_path) w)) = Ok true ->
       exists j c, (i < j)%nat /\
         window_reads wait remote_item_path (env w1) !! j = Some (Some c) /\
         window_reads wait remote_item_path (env w1) !! Datatypes.S j
         = Some (Some c)) /\
    (fst (stability_gate remote_item_path f
            (record_event (DOWNLOAD_START remote_item_path) w)) = Ok true <->
     consecutive_equal
       (Some n :: window_reads wait remote_item_path (env w1))) /\
    (~ consecutive_equal
         (Some n :: window_reads wait remote_item_path (env w1)) ->
     fst (download_file ls f remote_item_path local_path local_item_path w)
     = Ok ls /\
     fs (snd (download_file ls f remote_item_path local_path local_item_path w))
     = fs w /\
     fs_ops (snd (download_file ls f remote_item_path local_path
                    local_item_path w))
     = fs_ops w /\
     only_size_cmds remote_item_path w
       (snd (download_file ls f remote_item_path local_path local_item_path w))
     /\
     head (events (snd (download_file ls f remote_item_path local_path
                          local_item_path w)))
     = Some (FILE_UNSTABLE_TIMEOUT remote_item_path)) /\
    (clock_obeys_sleep ->
     forall more,
       stability_loop (Z.to_nat wait + more) (time_time (env w1)) wait
         remote_item_path (Some n) 1 w1
       = stability_loop (Z.to_nat wait) (time_time (env w1)) wait
           remote_item_path (Some n) 1 w1).
Proof.
  intros w w1 ls f rp lpd lp wait n Hcfg Hwait Hinit.
  set (w0 := record_event (DOWNLOAD_START rp) w) in *.
  destruct (stability_gate_answer rp f w0 w1 wait n Hcfg Hwait Hinit)
    as [b [w' [Eg [Hb Hev]]]].
  assert (Hiff : fst (stability_gate rp f w0) = Ok true <->
                 consecutive_equal (Some n :: window_reads wait rp (env w1))).
  { rewrite Eg. simpl. rewrite <- Hb. split; congruence. }
  split; [reflexivity|]. split.
  { intros c. unfold stability_step. rewrite bool_decide_eq_false_2 by discriminate.
    rewrite bool_decide_eq_true_2 by reflexivity. repeat split. }
  split.
  { intros i Hi Hbefore Hstable.
    apply (consecutive_equal_after_failure (Some n) _ i Hi Hbefore).
    apply Hiff, Hstable. }
  split; [exact Hiff|].
  split.
  2:{ intros Hclock more. apply stability_loop_enough; [exact Hclock|]. lia. }
  intros Hno.
  assert (b = false) as ->.
  { destruct b; [|reflexivity]. exfalso. apply Hno, Hb. reflexivity. }
  assert (Ed : download_file ls f rp lpd lp w = (Ok ls, w')).
  { unfold download_file. rewrite bind_emit. fold w0.
    unfold try_except. rewrite (bind_eq _ _ _ _ _ Eg). reflexivity. }
  rewrite Ed. simpl.
  pose proof (stability_gate_keeps fs rp f ltac:(reflexivity)
                ltac:(reflexivity) ltac:(reflexivity) w0) as Hfs.
  pose proof (stability_gate_keeps fs_ops rp f ltac:(reflexivity)
                ltac:(reflexivity) ltac:(reflexivity) w0) as Hops.
  pose proof (only_size_cmds_stability_gate rp f w0) as Hcmds.
  rewrite Eg in Hfs, Hops, Hcmds. simpl in Hfs, Hops, Hcmds.
  split; [reflexivity|]. split; [exact Hfs|]. split; [exact Hops|].
  split; [exact Hcmds | apply Hev; reflexivity].
Qed.

End StabilityClaim.

Lemma growing_file_reads :
  window_reads 3 "/data/a.txt" (env growing_worker)
  = [Some 3; Some 4; Some 5].
Proof. vm_compute. reflexivity. Qed.

Lemma growing_file_never_settles :
  ~ consecutive_equal
      (Some 2 :: window_reads 3 "/data/a.txt" (env growing_worker)).
Proof.
  rewrite growing_file_reads.
  intros [i [c [H1 H2]]].
  destruct i as [|[|[|[|i]]]]; simpl in H1, H2; congruence.
Qed.

(** The clock of the simulated server obeys the sleep. *)
Lemma sim_clock_obeys_sleep : clock_obeys_sleep (S := Sim).
Proof.
  split.
  - intros s. simpl. lia.
  - intros p s. unfold ftp_size. simpl. unfold sim_size.
    destruct (lookup_node _ _) as [[c|cs]|]; try destruct (size_ok s);
      simpl; lia.
Qed.

(** A file that has settled at three bytes, listed when it had two: a
    server that answers SIZE at once is asked twice within the three
    seconds and the file is found stable; when each answer takes two
    seconds the guard lets one poll through, and the file is skipped. *)
Lemma slow_answers_leave_fewer_polls :
  window_reads 3 "/data/a.txt" (env settled_worker)
  = [Some 3; Some 3; Some 3] /\
  fst (stability_gate "/data/a.txt" stale_facts settled_worker) = Ok true /\
  window_reads 3 "/data/a.txt" (env slow_worker) = [Some 3] /\
  fst (stability_gate "/data/a.txt" stale_facts slow_worker) = Ok false.
Proof. repeat split; vm_compute; reflexivity. Qed.

Lemma stability_gate_needs_two_equal_reads_witness :
  (fst (download_file init_loop stale_facts "/data/a.txt" "local"
          "local/a.txt" growing_worker) = Ok init_loop /\
   fs (snd (download_file init_loop stale_facts "/data/a.txt" "local"
              "local/a.txt" growing_worker)) = fs growing_worker /\
   fs_ops (snd (download_file init_loop stale_facts "/data/a.txt" "local"
                  "local/a.txt" growing_worker)) = fs_ops growing_worker /\
   only_size_cmds "/data/a.txt" growing_worker
     (snd (download_file init_loop stale_facts "/data/a.txt" "local"
             "local/a.txt" growing_worker)) /\
   head (events (snd (download_file init_loop stale_facts "/data/a.txt"
                        "local" "local/a.txt" growing_worker)))
   = Some (FILE_UNSTABLE_TIMEOUT "/data/a.txt")) /\
  (forall more,
     stability_loop (Z.to_nat 3 + more) 0 3 "/data/a.txt" (Some 2) 1
       (record_event (DOWNLOAD_START "/data/a.txt") growing_worker)
     = stability_loop (Z.to_nat 3) 0 3 "/data/a.txt" (Some 2) 1
         (record_event (DOWNLOAD_START "/data/a.txt") growing_worker)).
Proof.
  destruct (stability_gate_needs_two_equal_reads growing_worker
              (record_event (DOWNLOAD_START "/data/a.txt") growing_worker)
              init_loop stale_facts "/data/a.txt" "local" "local/a.txt" 3 2)
    as [_ [_ [_ [_ [Hskip Henough]]]]].
  - reflexivity.
  - lia.
  - reflexivity.
  - split.
    + apply Hskip. exact growing_file_never_settles.
    + apply Henough. exact sim_clock_obeys_sleep.
Defined.

(** ** One transfer *)

Lemma temp_path_neq (p : string) : temp_path p <> p.
Proof.
  unfold temp_path. intros E.
  assert (L : String.length (p +:+ ".part") = String.length p) by congruence.
  rewrite string_length_app in L. simpl in L. lia.
Qed.

Lemma written_all blocks :
  existsb fst blocks = false -> written blocks = concat (map snd blocks).
Proof.
  induction blocks as [|[b d] rest IH]; simpl; [reflexivity|].
  destruct b; simpl; [discriminate|]. intros E. rewrite IH by exact E.
  reflexivity.
Qed.

Lemma stream_error_fails blocks final :
  stream_fails blocks final = true <-> exists e, stream_error blocks final = Some e.
Proof.
  unfold stream_fails, stream_error. destruct (existsb fst blocks); simpl.
  - split; eauto.
  - destruct final; split; eauto; try discriminate. intros [e E]. discriminate.
Qed.

Section Transfer.

Context {S : Type} `{FtpEnv S}.

(** What the callback has written when [retrbinary] is left. *)
Lemma deliver_writes temp_local blocks (w : @Worker S) c0 :
  fs w !! temp_local = Some (LFile c0) ->
  fst (deliver (_write_and_count temp_local) blocks w)
  = (if existsb fst blocks then Raise InterruptedError else Ok tt) /\
  fs (snd (deliver (_write_and_count temp_local) blocks w))
  = <[temp_local := LFile (c0 ++ written blocks)]> (fs w).
Proof.
  revert w c0. induction blocks as [|[b d] rest IH]; intros w c0 Hw; simpl.
  - split; [reflexivity|]. rewrite app_nil_r. symmetry.
    apply insert_id, Hw.
  - destruct b; simpl.
    + split; [reflexivity|]. rewrite app_nil_r. symmetry.
      apply insert_id, Hw.
    + rewrite bind_modify.
      set (w1 := set_fs _ _).
      assert (Hw1 : fs w1 !! temp_local = Some (LFile (c0 ++ d))).
      { subst w1. simpl. unfold fs_write. rewrite Hw.
        apply lookup_insert_eq. }
      destruct (IH w1 (c0 ++ d) Hw1) as [Hr Hf]. split; [exact Hr|].
      rewrite Hf. subst w1. simpl. unfold fs_write. rewrite Hw.
      rewrite insert_insert_eq, <- app_assoc. reflexivity.
Qed.

Lemma deliver_keeps {B} (proj : @Worker S -> B) temp_local blocks :
  (forall w m, proj (set_fs m w) = proj w) ->
  (forall w o, proj (record_op o w) = proj w) ->
  preserves (unchanged proj) (deliver (_write_and_count temp_local) blocks).
Proof.
  intros Hf Ho. apply preserves_deliver; [apply _|]. intros b d.
  apply preserves__write_and_count; [apply _|]. intros w.
  unfold unchanged. rewrite Hf, Ho. reflexivity.
Qed.

(** The [with open(...)] block once the file is open and the timeout
    setting is read. *)
Lemma retrieve_to_temp_streams rp lpd lp (w : @Worker S) m t blocks final s :
  fs_open_wb lpd (temp_path lp) (fs w) = Ok m ->
  int_get (per_file_timeout (settings w)) 120 = Ok t ->
  ftp_retrbinary rp (env w) = ((blocks, final), s) ->
  exists w',
    retrieve_to_temp rp lpd lp w
    = (match stream_error blocks final with
       | Some e => Raise e
       | None => Ok tt
       end, w') /\
    fs w' = <[temp_path lp := LFile (written blocks)]> (fs w) /\
    env w' = s /\
    events w' = events w /\
    settings w' = settings w.
Proof.
  intros Hopen Ht Hretr.
  pose proof (fs_open_wb_apply _ _ _ _ Hopen) as Hm. simpl in Hm.
  unfold retrieve_to_temp. unfold bind at 1. unfold fs_call. rewrite Hopen.
  rewrite bind_get. simpl settings. rewrite Ht, bind_lift.
  unfold bind at 1.
  set (w1 := set_fs m (record_op (OpOpen (temp_path lp)) w)).
  assert (Es : set_socket_timeout (socket_timeout t) w1
               = (Ok tt, if ftp_sock (env w) then
                           set_sock_timeout (Some (socket_timeout t)) w1
                         else w1)).
  { unfold set_socket_timeout. simpl. destruct (ftp_sock (env w)); reflexivity. }
  rewrite Es. set (w2 := if ftp_sock (env w) then _ else _).
  assert (E2 : env w2 = env w /\ fs w2 = m /\ events w2 = events w /\
               settings w2 = settings w).
  { subst w2. destruct (ftp_sock (env w)); repeat split. }
  destruct E2 as [Ee [Ef [Ev Est]]].
  unfold FTP_retrbinary. rewrite Ee, Hretr.
  set (w3 := set_env s (record_cmd (RETR rp) w2)).
  assert (Hw3 : fs w3 !! temp_path lp = Some (LFile [])).
  { subst w3. simpl. rewrite Ef, Hm. apply lookup_insert_eq. }
  destruct (deliver_writes (temp_path lp) blocks w3 [] Hw3) as [Hr Hf].
  pose proof (deliver_keeps env (temp_path lp) blocks ltac:(reflexivity)
                ltac:(reflexivity) w3) as Hde.
  pose proof (deliver_keeps events (temp_path lp) blocks ltac:(reflexivity)
                ltac:(reflexivity) w3) as Hdv.
  pose proof (deliver_keeps settings (temp_path lp) blocks ltac:(reflexivity)
                ltac:(reflexivity) w3) as Hds.
  unfold unchanged in Hde, Hdv, Hds.
  unfold bind. unfold stream_error.
  destruct (deliver (_write_and_count (temp_path lp)) blocks w3)
    as [r w4] eqn:Ed. simpl in Hr, Hf, Hde, Hdv, Hds.
  assert (Hfs : fs w4 = <[temp_path lp := LFile (written blocks)]> (fs w)).
  { rewrite Hf. subst w3. simpl. rewrite Ef, Hm.
    apply insert_insert_eq. }
  assert (He4 : env w4 = s) by (rewrite Hde; reflexivity).
  assert (Hv4 : events w4 = events w)
    by (rewrite Hdv; subst w3; simpl; exact Ev).
  assert (Hs4 : settings w4 = settings w)
    by (rewrite Hds; subst w3; simpl; exact Est).
  exists w4. subst r. destruct (existsb fst blocks); simpl.
  - repeat split; assumption.
  - unfold lift. destruct final as [[]|e]; simpl; repeat split; assumption.
Qed.

(** The rename when the temporary file is there. *)
Lemma publish_renames lp (w : @Worker S) c :
  fs w !! temp_path lp = Some (LFile c) ->
  (fs w !! lp <> Some LDir ->
   publish lp w
   = (Ok tt, set_fs (<[lp := LFile c]> (delete (temp_path lp) (fs w)))
               (record_op (OpReplace (temp_path lp) lp) w))) /\
  (fs w !! lp = Some LDir -> publish lp w = (Raise OSError, w)).
Proof.
  intros Ht.
  assert (E1 : fs_call (OpReplace (temp_path lp) lp)
                 (os_replace (temp_path lp) lp) w
               = match fs w !! lp with
                 | Some LDir => (Raise OSError, w)
                 | _ => (Ok tt,
                         set_fs (<[lp := LFile c]> (delete (temp_path lp) (fs w)))
                           (record_op (OpReplace (temp_path lp) lp) w))
                 end).
  { unfold fs_call, os_replace. rewrite Ht.
    destruct (fs w !! lp) as [[c'|]|]; reflexivity. }
  assert (E2 : fs w !! lp = Some LDir ->
               fs_call (OpRename (temp_path lp) lp)
                 (os_rename (temp_path lp) lp) w = (Raise OSError, w)).
  { intros Hd. unfold fs_call, os_rename, os_replace. rewrite Ht, Hd.
    reflexivity. }
  unfold publish, try_except. rewrite E1. split.
  - intros Hd. destruct (fs w !! lp) as [[c'|]|]; try reflexivity.
    congruence.
  - intros Hd. rewrite Hd. apply E2, Hd.
Qed.

Lemma never_raises_delete_remote p : never_raises (@delete_remote S _ p).
Proof. unfold delete_remote. nr. Qed.

Lemma delete_remote_keeps {B} (proj : @Worker S -> B) p :
  (forall w s, proj (set_env s w) = proj w) ->
  (forall w c, proj (record_cmd c w) = proj w) ->
  (forall w e, proj (record_event e w) = proj w) ->
  preserves (unchanged proj) (delete_remote p).
Proof.
  intros He Hc Hv. unfold delete_remote, FTP_delete.
  pres; unfold unchanged; rewrite ?He, ?Hc, ?Hv; reflexivity.
Qed.

Lemma transfer_file_unfold ls rp lpd lp (w : @Worker S) :
  transfer_file ls rp lpd lp w
  = match retrieve_to_temp rp lpd lp w with
    | (Ok _, w1) =>
        match publish lp w1 with
        | (Ok _, w2) => after_publish ls rp lp w2
        | (Raise e, w2) => (Raise e, w2)
        end
    | (Raise e, w1) => (Raise e, w1)
    end.
Proof.
  unfold transfer_file, bind.
  destruct (retrieve_to_temp rp lpd lp w) as [[[]|e] w1]; [|reflexivity].
  destruct (publish lp w1) as [[[]|e] w2]; reflexivity.
Qed.

Lemma after_publish_counts ls rp lp (w : @Worker S) :
  exists w', after_publish ls rp lp w = (Ok (add_count 1 ls), w') /\
             fs w' = fs w /\ settings w' = settings w /\
             (delete_after_download (settings w) = false -> env w' = env w).
Proof.
  unfold after_publish. rewrite bind_get, bind_emit.
  set (w1 := record_event _ w).
  destruct (delete_after_download (settings w)) eqn:Ed.
  - destruct (never_raises_delete_remote rp w1) as [[] Hn].
    pose proof (delete_remote_keeps fs rp ltac:(reflexivity)
                  ltac:(reflexivity) ltac:(reflexivity) w1) as Hf.
    pose proof (delete_remote_keeps settings rp ltac:(reflexivity)
                  ltac:(reflexivity) ltac:(reflexivity) w1) as Hs.
    destruct (delete_remote rp w1) as [r w2] eqn:E. simpl in Hn, Hf, Hs.
    subst r. rewrite (bind_eq _ _ _ _ _ E). exists w2.
    split; [reflexivity|]. split; [exact Hf|]. split; [exact Hs|].
    discriminate.
  - rewrite bind_ret. exists w1. repeat split.
Qed.

(** A stream that ends in an exception: the transfer raises it, and the
    temporary file holds what was written. *)
Lemma transfer_file_stream_error ls rp lpd lp (w : @Worker S) m t blocks
    final s e :
  fs_open_wb lpd (temp_path lp) (fs w) = Ok m ->
  int_get (per_file_timeout (settings w)) 120 = Ok t ->
  ftp_retrbinary rp (env w) = ((blocks, final), s) ->
  stream_error blocks final = Some e ->
  exists w',
    transfer_file ls rp lpd lp w = (Raise e, w') /\
    fs w' = <[temp_path lp := LFile (written blocks)]> (fs w) /\
    events w' = events w.
Proof.
  intros Hopen Ht Hretr He.
  destruct (retrieve_to_temp_streams rp lpd lp w m t blocks final s
              Hopen Ht Hretr) as [w' [E [Hf [_ [Hv _]]]]].
  rewrite He in E. exists w'. rewrite transfer_file_unfold, E.
  repeat split; assumption.
Qed.

(** A stream that ends well, onto a destination that is not a directory:
    the file is renamed into place and counted. *)
Lemma transfer_file_completes ls rp lpd lp (w : @Worker S) m t blocks s :
  fs_open_wb lpd (temp_path lp) (fs w) = Ok m ->
  int_get (per_file_timeout (settings w)) 120 = Ok t ->
  ftp_retrbinary rp (env w) = ((blocks, Ok tt), s) ->
  existsb fst blocks = false ->
  fs w !! lp <> Some LDir ->
  exists w',
    transfer_file ls rp lpd lp w = (Ok (add_count 1 ls), w') /\
    fs w' = <[lp := LFile (concat (map snd blocks))]>
              (delete (temp_path lp) (fs w)) /\
    settings w' = settings w /\
    (delete_after_download (settings w) = false -> env w' = s).
Proof.
  intros Hopen Ht Hretr Hstop Hdir.
  destruct (retrieve_to_temp_streams rp lpd lp w m t blocks (Ok tt) s
              Hopen Ht Hretr) as [w1 [E [Hf [He [_ Hs]]]]].
  unfold stream_error in E. rewrite Hstop in E.
  rewrite (written_all _ Hstop) in Hf.
  assert (Ht1 : fs w1 !! temp_path lp
                = Some (LFile (concat (map snd blocks)))).
  { rewrite Hf. apply lookup_insert_eq. }
  assert (Hd1 : fs w1 !! lp <> Some LDir).
  { rewrite Hf, lookup_insert_ne by apply temp_path_neq. exact Hdir. }
  destruct (publish_renames lp w1 _ Ht1) as [Hp _]. specialize (Hp Hd1).
  rewrite transfer_file_unfold, E, Hp.
  set (w2 := set_fs _ _).
  destruct (after_publish_counts ls rp lp w2) as [w3 [E3 [Hf3 [Hs3 He3]]]].
  exists w3. split; [exact E3|]. split.
  - rewrite Hf3. subst w2. simpl. rewrite Hf.
    rewrite delete_insert_eq. reflexivity.
  - split.
    + rewrite Hs3. subst w2. simpl. exact Hs.
    + intros Hd. rewrite He3.
      * subst w2. simpl. exact He.
      * subst w2. simpl. rewrite Hs. exact Hd.
Qed.



Lemma download_file_unfold ls f rp lpd lp (w : @Worker S) :
  download_file ls f rp lpd lp w
  = match stability_gate rp f (record_event (DOWNLOAD_START rp) w) with
    | (Ok true, w1) =>
        match transfer_file ls rp lpd lp w1 with
        | (Ok ls', w2) => (Ok ls', w2)
        | (Raise e, w2) => (Ok ls, record_event (DOWNLOAD_ERROR rp e) w2)
        end
    | (Ok false, w1) => (Ok ls, w1)
    | (Raise e, w1) => (Ok ls, record_event (DOWNLOAD_ERROR rp e) w1)
    end.
Proof.
  unfold download_file. rewrite bind_emit. unfold try_except, bind.
  destruct (stability_gate rp f _) as [[[|]|e] w1]; reflexivity.
Qed.

End Transfer.

(** ** The temporary file and the destination *)

Section TempFile.

Context {S : Type} `{FtpEnv S}.

#[global] Instance writes_via_temp_preorder : PreOrder (@writes_via_temp S).
Proof.
  split.
  - intros w. exists []. repeat split. constructor.
  - intros a b c [n1 [O1 [F1 D1]]] [n2 [O2 [F2 D2]]]. exists (n2 ++ n1).
    split; [rewrite O2, O1, app_assoc; reflexivity|]. split.
    + rewrite F2, F1. unfold replay. rewrite foldr_app. reflexivity.
    + apply Forall_app. split; assumption.
Qed.



(** C1, as the code has it: when the stream to the temporary file ends in
    an exception, a stop request seen by the write callback included, the
    handler of the download logs the error and the file is not counted; the
    destination is as it was; and the temporary file is not removed: it
    stays where it is, with the bytes written before the exception. *)
Theorem failed_stream_keeps_the_temp_file :
  forall (w w1 : @Worker S) (ls : loop_state) (f : facts)
         (remote_item_path local_path local_item_path : string)
         (m : gmap string lnode) (t : Z) (blocks : list (bool * list byte))
         (final : result unit) (s : S) (e : exn),
    stability_gate remote_item_path f
      (record_event (DOWNLOAD_START remote_item_path) w) = (Ok true, w1) ->
    fs_open_wb local_path (temp_path local_item_path) (fs w1) = Ok m ->
    int_get (per_file_timeout (settings w1)) 120 = Ok t ->
    ftp_retrbinary remote_item_path (env w1) = ((blocks, final), s) ->
    stream_error blocks final = Some e ->
    fst (download_file ls f remote_item_path local_path local_item_path w)
    = Ok ls /\
    head (events (snd (download_file ls f remote_item_path local_path
                         local_item_path w)))
    = Some (DOWNLOAD_ERROR remote_item_path e) /\
    fs (snd (download_file ls f remote_item_path local_path
               local_item_path w))
    = <[temp_path local_item_path := LFile (written blocks)]> (fs w) /\
    fs (snd (download_file ls f remote_item_path local_path
               local_item_path w)) !! temp_path local_item_path
    = Some (LFile (written blocks)) /\
    fs (snd (download_file ls f remote_item_path local_path
               local_item_path w)) !! local_item_path
    = fs w !! local_item_path.
Proof.
  intros w w1 ls f rp lpd lp m t blocks final s e Hg Hopen Ht Hretr He.
  pose proof (stability_gate_keeps fs rp f ltac:(reflexivity)
                ltac:(reflexivity) ltac:(reflexivity)
                (record_event (DOWNLOAD_START rp) w)) as Hfs.
  rewrite Hg in Hfs. unfold unchanged in Hfs. simpl in Hfs.
  destruct (transfer_file_stream_error ls rp lpd lp w1 m t blocks final s e
              Hopen Ht Hretr He) as [w2 [E [Hf Hv]]].
  rewrite download_file_unfold, Hg, E. simpl. rewrite Hf, Hfs.
  split; [reflexivity|]. split; [reflexivity|]. split; [reflexivity|].
  split; [apply lookup_insert_eq | apply lookup_insert_ne, temp_path_neq].
Qed.


(** C10, as the code has it: when the size of the remote file cannot be
    queried, the test for "already downloaded" does not apply, whatever is
    at the destination, and the code goes on to the download; when the
    stability gate lets the file through and the transfer completes, the
    existing local file is replaced by what was received and the file is
    counted. *)
Theorem unknown_remote_size_is_never_skipped :
  forall (w : @Worker S) (skip_log_limit : Z) (ls : loop_state) (f : facts)
         (remote_item_path local_path local_item_path : string) (s : S)
         (old : list byte),
    ftp_size remote_item_path (env w) = (None, s) ->
    fs w !! local_item_path = Some (LFile old) ->
    process_file skip_log_limit ls f remote_item_path local_path
      local_item_path w
    = download_file ls f remote_item_path local_path local_item_path
        (set_env s (record_cmd (SIZE remote_item_path) w)) /\
    (forall w1 m t blocks s',
       stability_gate remote_item_path f
         (record_event (DOWNLOAD_START remote_item_path)
            (set_env s (record_cmd (SIZE remote_item_path) w)))
       = (Ok true, w1) ->
       fs_open_wb local_path (temp_path local_item_path) (fs w1) = Ok m ->
       int_get (per_file_timeout (settings w1)) 120 = Ok t ->
       ftp_retrbinary remote_item_path (env w1) = ((blocks, Ok tt), s') ->
       existsb fst blocks = false ->
       fst (process_file skip_log_limit ls f remote_item_path local_path
              local_item_path w) = Ok (add_count 1 ls) /\
       fs (snd (process_file skip_log_limit ls f remote_item_path local_path
                  local_item_path w)) !! local_item_path
       = Some (LFile (concat (map snd blocks))) /\
       fs (snd (process_file skip_log_limit ls f remote_item_path local_path
                  local_item_path w)) !! temp_path local_item_path = None).
Proof.
  intros w lim ls f rp lpd lp s old Hsize Hold.
  assert (E : process_file lim ls f rp lpd lp w
              = download_file ls f rp lpd lp
                  (set_env s (record_cmd (SIZE rp) w))).
  { unfold process_file. unfold bind at 1. unfold FTP_size. rewrite Hsize.
    rewrite bind_get. reflexivity. }
  split; [exact E|].
  intros w1 m t blocks s' Hg Hopen Ht Hretr Hstop. rewrite E.
  set (w0 := set_env s (record_cmd (SIZE rp) w)) in *.
  pose proof (stability_gate_keeps fs rp f ltac:(reflexivity)
                ltac:(reflexivity) ltac:(reflexivity)
                (record_event (DOWNLOAD_START rp) w0)) as Hfs.
  rewrite Hg in Hfs. unfold unchanged in Hfs. simpl in Hfs.
  assert (Hd : fs w1 !! lp <> Some LDir) by (rewrite Hfs, Hold; discriminate).
  destruct (transfer_file_completes ls rp lpd lp w1 m t blocks s'
              Hopen Ht Hretr Hstop Hd) as [w2 [E2 [Hf _]]].
  rewrite download_file_unfold, Hg, E2. simpl. rewrite Hf.
  split; [reflexivity|]. split; [apply lookup_insert_eq|].
  rewrite lookup_insert_ne by (intros X; symmetry in X; exact (temp_path_neq _ X)).
  apply lookup_delete_eq.
Qed.

End TempFile.

Lemma failed_stream_keeps_the_temp_file_witness :
  fst (download_file init_loop listed_facts "/data/a.txt" "local"
         "local/a.txt" breaking_at_file) = Ok init_loop /\
  head (events (snd (download_file init_loop listed_facts "/data/a.txt"
                       "local" "local/a.txt" breaking_at_file)))
  = Some (DOWNLOAD_ERROR "/data/a.txt" error_temp) /\
  fs (snd (download_file init_loop listed_facts "/data/a.txt" "local"
             "local/a.txt" breaking_at_file))
  = <[temp_path "local/a.txt" := LFile (written two_blocks)]>
      (fs breaking_at_file) /\
  fs (snd (download_file init_loop listed_facts "/data/a.txt" "local"
             "local/a.txt" breaking_at_file)) !! temp_path "local/a.txt"
  = Some (LFile (written two_blocks)) /\
  fs (snd (download_file init_loop listed_facts "/data/a.txt" "local"
             "local/a.txt" breaking_at_file)) !! "local/a.txt"
  = fs breaking_at_file !! "local/a.txt".
Proof.
  apply (failed_stream_keeps_the_temp_file breaking_at_file
           (record_event (DOWNLOAD_START "/data/a.txt") breaking_at_file)
           init_loop listed_facts "/data/a.txt" "local" "local/a.txt"
           (<["local/a.txt.part" := LFile []]> (fs breaking_at_file))
           120 two_blocks (Raise error_temp) (env breaking_at_file)
           error_temp).
  - vm_compute. reflexivity.
  - vm_compute. reflexivity.
  - vm_compute. reflexivity.
  - vm_compute. reflexivity.
  - vm_compute. reflexivity.
Defined.

(** C1 as stated fails: RETR breaks off after two of the three bytes; the
    error is handled, nothing is counted and there is no destination file,
    but the temporary file is still there with the two bytes.  Likewise
    after a stop request that arrives after the first block. *)
Lemma temp_file_remains_after_failed_stream :
  fst (perform_ftp_download 10 breaking_worker) = 0 /\
  fs (snd (perform_ftp_download 10 breaking_worker)) !! "local/a.txt" = None /\
  fs (snd (perform_ftp_download 10 breaking_worker)) !! "local/a.txt.part"
  = Some (LFile [x61; x62]) /\
  head (events (snd (perform_ftp_download 10 breaking_worker)))
  = Some (DOWNLOAD_ERROR "/data/a.txt" error_temp) /\
  fst (perform_ftp_download 10 stopping_worker) = 0 /\
  fs (snd (perform_ftp_download 10 stopping_worker)) !! "local/a.txt.part"
  = Some (LFile [x61]) /\
  head (events (snd (perform_ftp_download 10 stopping_worker)))
  = Some (DOWNLOAD_ERROR "/data/a.txt" InterruptedError).
Proof. repeat split; vm_compute; reflexivity. Qed.

Lemma unknown_remote_size_is_never_skipped_witness :
  process_file 5 init_loop listed_facts "/data/a.txt" "local" "local/a.txt"
    sizeless_at_file
  = download_file init_loop listed_facts "/data/a.txt" "local" "local/a.txt"
      (set_env (env sizeless_at_file)
         (record_cmd (SIZE "/data/a.txt") sizeless_at_file)) /\
  fst (process_file 5 init_loop listed_facts "/data/a.txt" "local"
         "local/a.txt" sizeless_at_file) = Ok (add_count 1 init_loop) /\
  fs (snd (process_file 5 init_loop listed_facts "/data/a.txt" "local"
             "local/a.txt" sizeless_at_file)) !! "local/a.txt"
  = Some (LFile (concat (map snd three_blocks))) /\
  fs (snd (process_file 5 init_loop listed_facts "/data/a.txt" "local"
             "local/a.txt" sizeless_at_file)) !! temp_path "local/a.txt"
  = None.
Proof.
  destruct (unknown_remote_size_is_never_skipped sizeless_at_file 5 init_loop
              listed_facts "/data/a.txt" "local" "local/a.txt"
              (env sizeless_at_file) [x00]) as [E R].
  - vm_compute. reflexivity.
  - vm_compute. reflexivity.
  - split; [exact E|].
    apply (R (record_event (DOWNLOAD_START "/data/a.txt")
                (set_env (env sizeless_at_file)
                   (record_cmd (SIZE "/data/a.txt") sizeless_at_file)))
             (<["local/a.txt.part" := LFile []]> (fs sizeless_at_file))
             120 three_blocks (env sizeless_at_file)).
    + vm_compute. reflexivity.
    + vm_compute. reflexivity.
    + vm_compute. reflexivity.
    + vm_compute. reflexivity.
    + vm_compute. reflexivity.
Defined.


(** C10 as stated fails: the server lists the file with its size (MLSD) but
    does not answer SIZE, the local copy exists, and the stability gate is
    on.  The gate starts from the listed size, every poll fails, the wait
    times out and the file is skipped as unstable: in two cycles no RETR is
    sent and the stale local copy is still there. *)
Lemma sizeless_file_is_not_downloaded_again :
  fs gated_sizeless_worker !! "local/a.txt" = Some (LFile [x00]) /\
  List.filter is_retr
    (ftp_cmds (Nat.iter 2 (run_cycle 10) gated_sizeless_worker)) = [] /\
  fs (Nat.iter 2 (run_cycle 10) gated_sizeless_worker) !! "local/a.txt"
  = Some (LFile [x00]) /\
  List.filter
    (fun e => match e with FILE_UNSTABLE_TIMEOUT _ => true | _ => false end)
    (events (Nat.iter 2 (run_cycle 10) gated_sizeless_worker))
  = [FILE_UNSTABLE_TIMEOUT "/data/a.txt"; FILE_UNSTABLE_TIMEOUT "/data/a.txt"].
Proof. repeat split; vm_compute; reflexivity. Qed.
(** ** A second traversal *)

Lemma replace_dslash_cons c r :
  replace_dslash (String c r)
  = match r with
    | String c' r' =>
        if Ascii.eqb c "/"%char && Ascii.eqb c' "/"%char
        then String "/"%char (replace_dslash r')
        else String c (replace_dslash r)
    | EmptyString => String c EmptyString
    end.
Proof. destruct r; reflexivity. Qed.

Section SecondRun.

Context {S : Type} `{FtpEnv S}.


End SecondRun.



(** ** The session: teardown, reconnection, periodic cleanup *)

Section Session.

Context {S : Type} `{FtpEnv S}.

(** X1: [_cleanup_connections] always returns normally and leaves no
    connection behind, whatever QUIT and CLOSE answer; without a
    connection it does nothing at all; with one it sends QUIT, and CLOSE
    only when QUIT raised. *)
Theorem cleanup_always_forgets_the_connection :
  forall (w : @Worker S),
    fst (_cleanup_connections w) = Ok tt /\
    _ftp_connection (snd (_cleanup_connections w)) = None /\
    (_ftp_connection w = None -> snd (_cleanup_connections w) = w) /\
    (forall c s, _ftp_connection w = Some c ->
       ftp_quit (env w) = (Ok tt, s) ->
       ftp_cmds (snd (_cleanup_connections w)) = QUIT :: ftp_cmds w) /\
    (forall c e s, _ftp_connection w = Some c ->
       ftp_quit (env w) = (Raise e, s) ->
       ftp_cmds (snd (_cleanup_connections w))
       = CLOSE :: QUIT :: ftp_cmds w).
Proof.
  intros w. unfold _cleanup_connections. rewrite bind_get.
  destruct (_ftp_connection w) as [c|] eqn:Ec.
  - unfold bind, try_except, ftp_call, modify.
    destruct (ftp_quit (env w)) as [[[]|e] s] eqn:Eq; simpl.
    + repeat split; try discriminate.
    + destruct (ftp_close s) as [[[]|e'] s'] eqn:Ecl; simpl;
        repeat split; try discriminate.
  - simpl. repeat split; try discriminate. exact Ec.
Qed.

Lemma cleanup_forgets (w : @Worker S) :
  fst (_cleanup_connections w) = Ok tt /\
  _ftp_connection (snd (_cleanup_connections w)) = None.
Proof.
  unfold _cleanup_connections. rewrite bind_get.
  destruct (_ftp_connection w) eqn:Ec; [|split; [reflexivity | exact Ec]].
  unfold bind, try_except, ftp_call, modify.
  destruct (ftp_quit (env w)) as [[[]|e] s]; simpl; [split; reflexivity|].
  destruct (ftp_close s) as [[[]|e'] s']; split; reflexivity.
Qed.

Lemma connects_cons c l :
  connects (c :: l) = (if is_connect c then Datatypes.S (connects l)
                       else connects l).
Proof. unfold connects. simpl. destruct (is_connect c); reflexivity. Qed.

Lemma cleanup_keeps_connects :
  preserves (unchanged (fun w : @Worker S => connects (ftp_cmds w)))
    _cleanup_connections.
Proof. unfold _cleanup_connections. pres; reflexivity. Qed.

Lemma cleanup_keeps_sessions_opened :
  preserves (unchanged (@sessions_opened S)) _cleanup_connections.
Proof. unfold _cleanup_connections. pres; reflexivity. Qed.

(** One attempt: it returns the connection it leaves in place, a new one
    only after a CONNECT; when it raises there is no connection, and
    CONNECT was sent. *)
Lemma connect_attempt_spec a (w : @Worker S) :
  match connect_attempt a w with
  | (Ok c, w') =>
      _ftp_connection w' = Some c /\
      ((connects (ftp_cmds w') = connects (ftp_cmds w) /\
        sessions_opened w' = sessions_opened w /\
        _ftp_connection w = Some c) \/
       (connects (ftp_cmds w') = Datatypes.S (connects (ftp_cmds w)) /\
        sessions_opened w' = Datatypes.S (sessions_opened w) /\
        c = sessions_opened w))
  | (Raise _, w') =>
      _ftp_connection w' = None /\
      connects (ftp_cmds w') = Datatypes.S (connects (ftp_cmds w)) /\
      sessions_opened w' = sessions_opened w
  end.
Proof.
  unfold connect_attempt. rewrite bind_get.
  assert (Hnew : forall w0 : @Worker S,
    _ftp_connection w0 = None ->
    match bind (emit (CONNECT_START (a + 1))) (fun _ =>
          bind (ftp_call CONNECT ftp_connect) (fun _ =>
          bind get (fun w =>
          bind (modify (fun w1 =>
                  set_sessions_opened (Datatypes.S (sessions_opened w))
                    (set_ftp_connection (Some (sessions_opened w)) w1)))
            (fun _ => ret (sessions_opened w))))) w0 with
    | (Ok c, w') =>
        _ftp_connection w' = Some c /\
        connects (ftp_cmds w') = Datatypes.S (connects (ftp_cmds w0)) /\
        sessions_opened w' = Datatypes.S (sessions_opened w0) /\
        c = sessions_opened w0
    | (Raise _, w') =>
        _ftp_connection w' = None /\
        connects (ftp_cmds w') = Datatypes.S (connects (ftp_cmds w0)) /\
        sessions_opened w' = sessions_opened w0
    end).
  { intros w0 Hc. rewrite bind_emit. unfold bind at 1. unfold ftp_call.
    cbn [env record_event].
    destruct (ftp_connect (env w0)) as [[[]|e] s]; simpl; auto. }
  destruct (_ftp_connection w) as [c|] eqn:Ec.
  - destruct (ftp_pwd (env w)) as [[[]|e] s] eqn:Ep.
    + match goal with
      | |- match bind ?m _ w with _ => _ end =>
          assert (E : m w = (Ok (Some c), set_env s (record_cmd PWD w)))
      end.
      { unfold try_except, bind, ftp_call. rewrite Ep. reflexivity. }
      rewrite (bind_eq _ _ _ _ _ E). simpl.
      split; [exact Ec|]. left. auto.
    + set (w0 := set_env s (record_cmd PWD w)).
      destruct (cleanup_forgets w0) as [Hr Hn].
      pose proof (cleanup_keeps_connects w0) as Hk.
      pose proof (cleanup_keeps_sessions_opened w0) as Hs.
      unfold unchanged in Hk, Hs.
      destruct (_cleanup_connections w0) as [r w1] eqn:Ecl.
      simpl in Hr, Hn, Hk, Hs. subst r.
      match goal with
      | |- match bind ?m _ w with _ => _ end =>
          assert (E : m w = (Ok None, w1))
      end.
      { unfold try_except, bind at 1. unfold ftp_call. rewrite Ep.
        fold w0. rewrite (bind_eq _ _ _ _ _ Ecl). reflexivity. }
      rewrite (bind_eq _ _ _ _ _ E). cbv beta iota.
      specialize (Hnew w1 Hn).
      match goal with
      | |- match ?m w1 with _ => _ end =>
          destruct (m w1) as [[c'|e'] w2]
      end.
      * destruct Hnew as [H1 [H2 [H3 H4]]]. split; [exact H1|]. right.
        rewrite H2, H3, H4, Hk, Hs. auto.
      * destruct Hnew as [H1 [H2 H3]]. rewrite H2, H3, Hk, Hs. auto.
  - rewrite bind_ret. specialize (Hnew w Ec).
    match goal with
    | |- match ?m w with _ => _ end => destruct (m w) as [[c'|e'] w2]
    end.
    + destruct Hnew as [H1 [H2 [H3 H4]]]. split; [exact H1|]. right. auto.
    + exact Hnew.
Qed.

Lemma connect_loop_spec l : forall (w : @Worker S),
  (l = [] -> _ftp_connection w = None) ->
  exists r w',
    connect_loop l w = (Ok r, w') /\
    _ftp_connection w' = r /\
    (connects (ftp_cmds w') <= connects (ftp_cmds w) + length l)%nat /\
    (r = None ->
     connects (ftp_cmds w') = (connects (ftp_cmds w) + length l)%nat /\
     sessions_opened w' = sessions_opened w) /\
    (sessions_opened w' <= Datatypes.S (sessions_opened w))%nat.
Proof.
  induction l as [|a rest IH]; intros w Hnil.
  - exists None, w. simpl. split; [reflexivity|].
    split; [apply Hnil; reflexivity|]. repeat split; lia.
  - cbn [connect_loop]. pose proof (connect_attempt_spec a w) as Ha.
    unfold try_except, bind at 1.
    destruct (connect_attempt a w) as [[c|e] w1].
    + exists (Some c), w1. split; [reflexivity|].
      destruct Ha as [Hc Hor]. split; [exact Hc|].
      cbn [length].
      destruct Hor as [[H1 [H2 _]] | [H1 [H2 _]]]; rewrite H1, H2;
        repeat split; try lia; discriminate.
    + destruct Ha as [Hc [H1 H2]].
      rewrite bind_emit.
      set (w2 := record_event (FTP_CONNECTION e (a + 1)) w1).
      assert (Hsl : exists w3,
        bind (if a <? max_retries - 1
              then modify (fun w => set_env (time_sleep 5 (env w)) w)
              else ret tt) (fun _ => connect_loop rest) w2
        = connect_loop rest w3 /\
        _ftp_connection w3 = None /\
        connects (ftp_cmds w3) = connects (ftp_cmds w1) /\
        sessions_opened w3 = sessions_opened w1).
      { destruct (a <? max_retries - 1).
        - rewrite bind_modify. eexists. split; [reflexivity|].
          repeat split. exact Hc.
        - rewrite bind_ret. exists w2. split; [reflexivity|].
          repeat split. exact Hc. }
      destruct Hsl as [w3 [E3 [Hc3 [Hk3 Hs3]]]]. rewrite E3.
      destruct (IH w3 (fun _ => Hc3)) as [r [w' [E [Hr [Hle [Hnone Hso]]]]]].
      exists r, w'. split; [exact E|]. split; [exact Hr|].
      cbn [length]. rewrite Hk3, H1 in Hle. rewrite Hs3, H2 in Hso.
      split; [lia|]. split; [|exact Hso].
      intros Hn. destruct (Hnone Hn) as [Ha Hb].
      rewrite Ha, Hk3, H1, Hb, Hs3, H2. split; [lia | reflexivity].
Qed.

(** X2: [_get_or_create_ftp_connection] always returns normally, and what
    it returns is the connection the worker then holds; it makes at most
    three connection attempts and opens at most one session, and it gives
    up only after three failed attempts, with no session opened. *)
Theorem connection_result_is_the_stored_connection :
  forall (w : @Worker S),
    exists r,
      fst (_get_or_create_ftp_connection w) = Ok r /\
      _ftp_connection (snd (_get_or_create_ftp_connection w)) = r /\
      (connects (ftp_cmds (snd (_get_or_create_ftp_connection w)))
       <= connects (ftp_cmds w) + 3)%nat /\
      (sessions_opened (snd (_get_or_create_ftp_connection w))
       <= Datatypes.S (sessions_opened w))%nat /\
      (r = None ->
       connects (ftp_cmds (snd (_get_or_create_ftp_connection w)))
       = (connects (ftp_cmds w) + 3)%nat /\
       sessions_opened (snd (_get_or_create_ftp_connection w))
       = sessions_opened w).
Proof.
  intros w. unfold _get_or_create_ftp_connection.
  destruct (connect_loop_spec [0; 1; 2] w) as [r [w' [E [Hr [Hle [Hn Hs]]]]]];
    [discriminate|].
  rewrite E. exists r. simpl in *. auto.
Qed.

(** X3: a connection that answers PWD is reused as it is: PWD is the only
    command sent, nothing is logged, and no session is opened. *)
Theorem live_connection_is_reused :
  forall (w : @Worker S) (c : nat) (s : S),
    _ftp_connection w = Some c ->
    ftp_pwd (env w) = (Ok tt, s) ->
    _get_or_create_ftp_connection w
    = (Ok (Some c), set_env s (record_cmd PWD w)).
Proof.
  intros w c s Hc Hp. unfold _get_or_create_ftp_connection.
  cbn [connect_loop]. unfold try_except, bind at 1, connect_attempt.
  rewrite bind_get, Hc.
  match goal with
  | |- context [bind ?m _ w] =>
      assert (E : m w = (Ok (Some c), set_env s (record_cmd PWD w)))
  end.
  { unfold try_except, bind, ftp_call. rewrite Hp. reflexivity. }
  rewrite (bind_eq _ _ _ _ _ E). reflexivity.
Qed.

End Session.

Lemma live_connection_is_reused_witness :
  _get_or_create_ftp_connection first_session
  = (Ok (Some O),
     set_env (env first_session) (record_cmd PWD first_session)).
Proof.
  apply live_connection_is_reused; vm_compute; reflexivity.
Defined.

(** *** Attributes that a part of the worker does not assign *)

Section SessionFrame.

Context {S : Type} `{FtpEnv S}.
Context {B : Type} (proj : @Worker S -> B).

Hypothesis proj_env : forall w s, proj (set_env s w) = proj w.
Hypothesis proj_cmd : forall w c, proj (record_cmd c w) = proj w.
Hypothesis proj_event : forall w e, proj (record_event e w) = proj w.
Hypothesis proj_connection :
  forall w c, proj (set_ftp_connection c w) = proj w.

Ltac frame_prim :=
  unfold unchanged;
  rewrite ?proj_env, ?proj_cmd, ?proj_event, ?proj_connection; reflexivity.

Lemma cleanup_keeps : preserves (unchanged proj) _cleanup_connections.
Proof. unfold _cleanup_connections. pres; frame_prim. Qed.

Hypothesis proj_failures :
  forall w n, proj (set_connection_failures n w) = proj w.

Lemma reset_keeps : preserves (unchanged proj) _reset_connections.
Proof.
  unfold _reset_connections. pres; try frame_prim.
  - apply cleanup_keeps.
  - unfold unchanged. apply proj_failures.
Qed.

Hypothesis proj_cleanup_time :
  forall w t, proj (set_last_cleanup_time t w) = proj w.

Lemma periodic_cleanup_keeps :
  preserves (unchanged proj) _perform_periodic_cleanup.
Proof.
  unfold _perform_periodic_cleanup. pres; try frame_prim.
  - apply cleanup_keeps.
  - unfold unchanged. apply proj_cleanup_time.
Qed.

Hypothesis proj_sessions :
  forall w n, proj (set_sessions_opened n w) = proj w.

Lemma connect_loop_keeps l : preserves (unchanged proj) (connect_loop l).
Proof.
  induction l as [|a rest IH]; simpl; [pres|].
  unfold connect_attempt.
  pres; try frame_prim; try apply cleanup_keeps; try exact IH.
  unfold unchanged. rewrite proj_sessions. apply proj_connection.
Qed.

Hypothesis proj_sock : forall w t, proj (set_sock_timeout t w) = proj w.
Hypothesis proj_fs : forall w m, proj (set_fs m w) = proj w.
Hypothesis proj_op : forall w o, proj (record_op o w) = proj w.
Hypothesis proj_mlsd : forall w v, proj (set_mlsd_supported v w) = proj w.

Lemma walk_keeps depth rp lp :
  preserves (unchanged proj) (download_dir_recursive depth rp lp).
Proof.
  apply download_dir_recursive_invariant, walk_invariant_unchanged;
    assumption.
Qed.

Lemma perform_keeps depth (w : @Worker S) :
  proj (snd (perform_ftp_download depth w)) = proj w.
Proof.
  unfold perform_ftp_download.
  match goal with |- context [match ?b w with _ => _ end] => set (body := b) end.
  assert (Hb : preserves (unchanged proj) body).
  { subst body. pres; try frame_prim.
    - apply connect_loop_keeps.
    - apply walk_keeps. }
  specialize (Hb w). unfold unchanged in Hb.
  destruct (body w) as [[n|e] w1]; simpl in *; [exact Hb|].
  assert (Hh : forall ev, preserves (unchanged proj)
                 (bind (emit ev) (fun _ => _reset_connections))).
  { intros ev. pres; try frame_prim. apply reset_keeps. }
  destruct e; simpl;
    (etransitivity; [apply (Hh _ w1) | exact Hb]).
Qed.

Hypothesis proj_download_time :
  forall w t, proj (set_last_download_time t w) = proj w.
Hypothesis proj_notified :
  forall w b, proj (set_notified_no_download b w) = proj w.

(** One pass of the loop assigns the attribute only through the cycle
    number. *)
Lemma run_cycle_keeps depth (w : @Worker S) :
  proj (run_cycle depth w) = proj (set_cycle_count (_cycle_count w + 1) w).
Proof.
  unfold run_cycle, try_except, cycle_body. rewrite bind_modify.
  set (w0 := set_cycle_count (_cycle_count w + 1) w).
  match goal with
  | |- context [match ?m w0 with _ => _ end] =>
      assert (Hb : preserves (unchanged proj) m)
  end.
  { pres; try frame_prim.
    - intros w1. pose proof (perform_keeps depth w1) as Hp.
      destruct (perform_ftp_download depth w1). exact Hp.
    - unfold unchanged.
      rewrite proj_failures, proj_notified. apply proj_download_time.
    - apply periodic_cleanup_keeps. }
  assert (Hh : forall e, preserves (unchanged proj) (cycle_handler e)).
  { intros e. unfold cycle_handler. pres; try frame_prim.
    - unfold unchanged. apply proj_failures.
    - apply reset_keeps. }
  specialize (Hb w0). unfold unchanged in Hb.
  match goal with
  | |- context [match ?m w0 with _ => _ end] =>
      destruct (m w0) as [[[]|e] w1]
  end; simpl in *; [exact Hb|].
  etransitivity; [apply (Hh e w1) | exact Hb].
Qed.

End SessionFrame.

Section PeriodicCleanup.

Context {S : Type} `{FtpEnv S}.

(** X4: the periodic cleanup always returns normally; before a full hour
    has passed since the last one it changes nothing, and from 3600
    seconds on it is logged, drops the connection, and takes the time read
    at its start as the time of the last cleanup. *)
Theorem periodic_cleanup_waits_an_hour :
  forall (w : @Worker S),
    fst (_perform_periodic_cleanup w) = Ok tt /\
    (time_time (env w) - _last_cleanup_time w < 3600 ->
     snd (_perform_periodic_cleanup w) = w) /\
    (3600 <= time_time (env w) - _last_cleanup_time w ->
     _ftp_connection (snd (_perform_periodic_cleanup w)) = None /\
     _last_cleanup_time (snd (_perform_periodic_cleanup w))
     = time_time (env w) /\
     events (snd (_perform_periodic_cleanup w))
     = PERIODIC_CLEANUP :: events w).
Proof.
  intros w. unfold _perform_periodic_cleanup. rewrite bind_get.
  unfold _cleanup_interval.
  destruct (3600 <=? time_time (env w) - _last_cleanup_time w) eqn:El.
  - apply Z.leb_le in El. rewrite bind_emit.
    set (w0 := record_event PERIODIC_CLEANUP w).
    destruct (cleanup_forgets w0) as [Hr Hn].
    assert (Hev : unchanged (@events S) w0 (snd (_cleanup_connections w0))).
    { apply (cleanup_keeps (@events S)); reflexivity. }
    destruct (_cleanup_connections w0) as [r w1] eqn:E.
    simpl in Hr, Hn, Hev. subst r. rewrite (bind_eq _ _ _ _ _ E). simpl.
    split; [reflexivity|]. split; [lia|]. intros _.
    split; [exact Hn|]. split; [reflexivity|]. exact Hev.
  - apply Z.leb_gt in El. simpl. split; [reflexivity|].
    split; [reflexivity | lia].
Qed.

End PeriodicCleanup.

Section Passes.

Context {S : Type} `{FtpEnv S}.

Lemma run_cycle_failures_in_range depth (w : @Worker S) :
  0 <= _connection_failures w < _max_connection_failures ->
  0 <= _connection_failures (run_cycle depth w) < _max_connection_failures.
Proof.
  intros Hr. unfold _max_connection_failures in *.
  pose proof (kept_or_zero_cycle_body depth w) as Hk.
  unfold run_cycle, try_except.
  destruct (cycle_body depth w) as [[[]|e] w1]; simpl in *.
  - destruct Hk as [E|E]; rewrite E; lia.
  - destruct (cycle_handler_counts e w1) as [E _]. rewrite E.
    unfold _max_connection_failures.
    assert (Hr1 : 0 <= _connection_failures w1 < 3)
      by (destruct Hk as [X|X]; rewrite X; lia).
    destruct (3 <=? _connection_failures w1 + 1) eqn:El; [lia|].
    apply Z.leb_gt in El. lia.
Qed.

(** X5: between the passes of the loop the failure counter stays in the
    range 0..2: the handler that takes it to 3 resets it at once. *)
Theorem failure_counter_stays_below_three :
  forall (depth n : nat) (w : @Worker S),
    0 <= _connection_failures w < 3 ->
    0 <= _connection_failures (Nat.iter n (run_cycle depth) w) < 3.
Proof.
  intros depth n w Hr. induction n as [|n IH]; simpl; [exact Hr|].
  apply (run_cycle_failures_in_range depth _ IH).
Qed.

(** X6: every pass of the loop, failed or not, adds exactly one to the
    cycle number, and no pass changes the settings or the running flag. *)
Theorem every_pass_counts_one_cycle :
  forall (depth n : nat) (w : @Worker S),
    _cycle_count (Nat.iter n (run_cycle depth) w)
    = _cycle_count w + Z.of_nat n /\
    settings (Nat.iter n (run_cycle depth) w) = settings w /\
    is_running (Nat.iter n (run_cycle depth) w) = is_running w.
Proof.
  intros depth n w. induction n as [|n [IH1 [IH2 IH3]]].
  - simpl. repeat split. lia.
  - rewrite Nat.iter_succ.
    rewrite (run_cycle_keeps (@_cycle_count S)) by reflexivity.
    rewrite (run_cycle_keeps (@settings S)) by reflexivity.
    rewrite (run_cycle_keeps (@is_running S)) by reflexivity.
    cbn [_cycle_count settings is_running set_cycle_count].
    rewrite IH1, IH2, IH3. repeat split. lia.
Qed.

End Passes.

Lemma failure_counter_stays_below_three_witness :
  0 <= _connection_failures (Nat.iter 4 (run_cycle 10) bad_interval_worker)
  < 3.
Proof.
  apply (failure_counter_stays_below_three 10 4 bad_interval_worker).
  change (_connection_failures bad_interval_worker) with 0. lia.
Defined.

Section MissingKey.

Context {S : Type} `{FtpEnv S}.

Lemma reset_after_key_error (w : @Worker S) :
  let w' := snd (bind (emit (FTP_GENERAL_ERROR KeyError))
                   (fun _ => _reset_connections) w) in
  _ftp_connection w' = None /\
  _connection_failures w' = 0 /\
  fs w' = fs w /\
  events w'
  = CONNECTION_RESET (_connection_failures w)
      :: FTP_GENERAL_ERROR KeyError :: events w.
Proof.
  rewrite bind_emit. set (w0 := record_event _ w). cbv zeta.
  destruct (_reset_connections_zeroes w0) as [Hz Hc].
  split; [exact Hc|]. split; [exact Hz|].
  split.
  { exact (reset_keeps (@fs S) ltac:(reflexivity) ltac:(reflexivity)
             ltac:(reflexivity) ltac:(reflexivity) ltac:(reflexivity) w0). }
  unfold _reset_connections. rewrite bind_get, bind_emit.
  set (w1 := record_event _ w0).
  pose proof (cleanup_keeps (@events S) ltac:(reflexivity) ltac:(reflexivity)
                ltac:(reflexivity) w1) as Hev.
  destruct (never_raises__cleanup_connections w1) as [[] Hr].
  destruct (_cleanup_connections w1) as [r w2] eqn:E. simpl in Hr, Hev.
  subst r. rewrite (bind_eq _ _ _ _ _ E). simpl. exact Hev.
Qed.

(** X12: when the settings lack the remote or the local path, the lookup
    fails after the connection has been made: the download returns 0, the
    error is logged, the connection just made is dropped again, the
    failure counter is set to zero, and no local file is touched. *)
Theorem missing_path_setting_resets_the_session :
  forall (depth : nat) (w w1 : @Worker S) (c : nat),
    _get_or_create_ftp_connection w = (Ok (Some c), w1) ->
    remote_path (settings w1) = None \/ local_path (settings w1) = None ->
    fst (perform_ftp_download depth w) = 0 /\
    _ftp_connection (snd (perform_ftp_download depth w)) = None /\
    _connection_failures (snd (perform_ftp_download depth w)) = 0 /\
    fs (snd (perform_ftp_download depth w)) = fs w1 /\
    events (snd (perform_ftp_download depth w))
    = CONNECTION_RESET (_connection_failures w1)
        :: FTP_GENERAL_ERROR KeyError :: CONNECT_SUCCESS :: events w1.
Proof.
  intros depth w w1 c Hc Hmiss. unfold perform_ftp_download.
  rewrite (bind_eq _ _ _ _ _ Hc). rewrite bind_emit, bind_get.
  cbn [settings record_event].
  set (w2 := record_event CONNECT_SUCCESS w1).
  pose proof (reset_after_key_error w2) as Hr. cbv zeta in Hr.
  assert (E : forall k : string -> string -> @M S Z,
    bind (setting (remote_path (settings w1)))
      (fun rp => bind (setting (local_path (settings w1))) (k rp)) w2
    = (Raise KeyError, w2)).
  { intros k. destruct Hmiss as [Hm|Hm]; rewrite Hm.
    - reflexivity.
    - destruct (remote_path (settings w1)); reflexivity. }
  rewrite E. cbn [fst snd]. split; [reflexivity|]. exact Hr.
Qed.

End MissingKey.

Lemma missing_path_setting_resets_the_session_witness :
  fst (perform_ftp_download 10 no_path_worker) = 0 /\
  _ftp_connection (snd (perform_ftp_download 10 no_path_worker)) = None /\
  _connection_failures (snd (perform_ftp_download 10 no_path_worker)) = 0 /\
  fs (snd (perform_ftp_download 10 no_path_worker))
  = fs (snd (_get_or_create_ftp_connection no_path_worker)) /\
  events (snd (perform_ftp_download 10 no_path_worker))
  = CONNECTION_RESET
      (_connection_failures
         (snd (_get_or_create_ftp_connection no_path_worker)))
      :: FTP_GENERAL_ERROR KeyError :: CONNECT_SUCCESS
      :: events (snd (_get_or_create_ftp_connection no_path_worker)).
Proof.
  apply (missing_path_setting_resets_the_session 10 no_path_worker
           (snd (_get_or_create_ftp_connection no_path_worker)) O).
  - vm_compute. reflexivity.
  - left. vm_compute. reflexivity.
Defined.

(** ** More about the traversal *)

(** *** Relations that every step but the deletions and the completion
    records respects *)

Section WalkSteps.

Context {S : Type} `{FtpEnv S}.
Context (R : @Worker S -> @Worker S -> Prop) `{!PreOrder R}.

Hypothesis step_cmd :
  forall w s c, is_dele c = false -> R w (set_env s (record_cmd c w)).
Hypothesis step_env : forall w s, R w (set_env s w).
Hypothesis step_event :
  forall w e, is_complete e = false -> R w (record_event e w).
Hypothesis step_sock : forall w t, R w (set_sock_timeout t w).
Hypothesis step_fs : forall w m o, R w (set_fs m (record_op o w)).
Hypothesis step_flag : forall w v, R w (set_mlsd_supported v w).

Ltac steps_step :=
  lazymatch goal with
  | |- PreOrder _ => pres_step
  | |- preserves _ _ => pres_step
  | |- _ _ (set_env _ (record_cmd _ _)) => apply step_cmd; reflexivity
  | |- _ _ (set_env _ _) => apply step_env
  | |- _ _ (record_event _ _) => apply step_event; reflexivity
  | |- _ _ (set_sock_timeout _ _) => apply step_sock
  | |- _ _ (set_fs _ (record_op _ _)) => apply step_fs
  | |- _ _ (set_mlsd_supported _ _) => apply step_flag
  end.

Ltac steps := repeat steps_step.

Lemma steps_try_mlsd : preserves R try_mlsd.
Proof. unfold try_mlsd, FTP_mlsd. steps. Qed.

Lemma steps_probe_type name : preserves R (probe_type name).
Proof. unfold probe_type, FTP_cwd. steps. Qed.

Lemma steps_classify_names names : preserves R (classify_names names).
Proof.
  induction names as [|name rest IH]; simpl; steps.
  - exact IH.
  - apply steps_probe_type.
  - exact IH.
Qed.

Lemma steps_list_directory : preserves R list_directory.
Proof.
  unfold list_directory, nlst_items, FTP_nlst. steps.
  - apply steps_try_mlsd.
  - apply steps_classify_names.
Qed.

Lemma steps_enter_directory rp lp : preserves R (enter_directory rp lp).
Proof.
  unfold enter_directory, FTP_cwd. steps. apply steps_list_directory.
Qed.

Lemma steps_stability_loop ticks start wait p prev cnt :
  preserves R (stability_loop ticks start wait p prev cnt).
Proof.
  revert prev cnt. induction ticks as [|t IH]; intros prev cnt; simpl; steps.
  apply IH.
Qed.

Lemma steps_stability_gate p f : preserves R (stability_gate p f).
Proof.
  unfold stability_gate, initial_size. steps. apply steps_stability_loop.
Qed.

Lemma steps_retrieve_to_temp rp lpd lp :
  preserves R (retrieve_to_temp rp lpd lp).
Proof.
  unfold retrieve_to_temp. steps.
  apply preserves_FTP_retrbinary; [apply _ | |].
  - intros. apply step_cmd. reflexivity.
  - intros b d. apply preserves__write_and_count; [apply _|].
    intros w0. apply step_fs.
Qed.

Lemma steps_publish lp : preserves R (publish lp).
Proof. unfold publish. steps. Qed.

(** The rest of the traversal, for a relation that the two places that may
    delete a remote file respect as well. *)
Hypothesis step_after_publish :
  forall ls rp lp, preserves R (after_publish ls rp lp).
Hypothesis step_skip_file :
  forall lim ls rp rs, preserves R (skip_file lim ls rp rs).

Lemma steps_download_file ls f rp lpd lp :
  preserves R (download_file ls f rp lpd lp).
Proof.
  unfold download_file, transfer_file. steps.
  - apply steps_stability_gate.
  - apply steps_retrieve_to_temp.
  - apply steps_publish.
  - apply step_after_publish.
Qed.

Lemma steps_process_item self lim rp lp ls it :
  (forall a b, preserves R (self a b)) ->
  preserves R (process_item self lim rp lp ls it).
Proof.
  intros Hself. unfold process_item, process_file. destruct it as [name f].
  steps; first [apply step_skip_file | apply steps_download_file
               | apply Hself].
Qed.

Lemma steps_items_loop self lim rp lp ls items w :
  (forall a b, preserves R (self a b)) ->
  R w (snd (items_loop self lim rp lp ls items w)).
Proof.
  intros Hself. revert ls w.
  induction items as [|it rest IH]; intros ls w; simpl; [reflexivity|].
  pose proof (steps_process_item self lim rp lp ls it Hself w) as Hp.
  destruct (process_item self lim rp lp ls it w) as [[ls'|e] w1]; simpl in *.
  - transitivity w1; [exact Hp | apply IH].
  - exact Hp.
Qed.

Lemma steps_download_dir_recursive depth :
  forall rp lp, preserves R (download_dir_recursive depth rp lp).
Proof.
  induction depth as [|d IH]; intros rp lp w; simpl; [reflexivity|].
  unfold dir_body.
  pose proof (steps_enter_directory rp lp w) as He.
  destruct (enter_directory rp lp w) as [[[items lim]|e] w1]; simpl in *.
  - pose proof (steps_items_loop (download_dir_recursive d) lim rp lp
                  init_loop items w1 IH) as Hl.
    destruct (items_loop (download_dir_recursive d) lim rp lp init_loop
                items w1) as [[ls [e|]] w2]; simpl in *.
    + transitivity w1; [exact He|]. transitivity w2; [exact Hl|].
      apply step_event. reflexivity.
    + transitivity w1; assumption.
  - transitivity w1; [exact He | apply step_event; reflexivity].
Qed.

End WalkSteps.

(** *** The count that the traversal returns *)

Section WalkCount.

Context {S : Type} `{FtpEnv S}.

Local Notation "'Rc'" := (unchanged (@completed S)).

Lemma completed_event (w : @Worker S) e :
  is_complete e = false -> completed (record_event e w) = completed w.
Proof.
  intros He. unfold completed, completes. simpl. rewrite He. reflexivity.
Qed.

Ltac rc_prim :=
  intros; first [reflexivity | apply completed_event; assumption].

Lemma counted_ret ls : counted ls (@ret S _ ls).
Proof. intros w. simpl. lia. Qed.

Lemma counted_bind {A} ls (m : @M S A) k :
  preserves Rc m -> (forall a, counted ls (k a)) -> counted ls (bind m k).
Proof.
  intros Hm Hk w. unfold bind. specialize (Hm w). unfold unchanged in Hm.
  destruct (m w) as [[a|e] w1]; simpl in Hm; [|exact Hm].
  specialize (Hk a w1). destruct (k a w1) as [[ls'|e] w2]; lia.
Qed.

Lemma counted_try_except ls (m : @M S loop_state) h :
  counted ls m -> (forall e, counted ls (h e)) -> counted ls (try_except m h).
Proof.
  intros Hm Hh w. unfold try_except. specialize (Hm w).
  destruct (m w) as [[ls'|e] w1]; [exact Hm|].
  specialize (Hh e w1). destruct (h e w1) as [[ls'|e'] w2]; lia.
Qed.

Lemma completed_delete_remote p : preserves Rc (@delete_remote S _ p).
Proof. unfold delete_remote, FTP_delete. pres; rc_prim. Qed.

Lemma counted_skip_file lim ls rp rs : counted ls (skip_file lim ls rp rs).
Proof.
  unfold skip_file. apply counted_bind; [pres; rc_prim|]. intros _.
  apply counted_bind; [pres|]. intros w0.
  apply counted_bind; [pres; apply completed_delete_remote|]. intros _.
  intros w. simpl. lia.
Qed.

Lemma counted_after_publish ls rp lp : counted ls (after_publish ls rp lp).
Proof.
  intros w. unfold after_publish. rewrite bind_get, bind_emit.
  set (w1 := record_event _ w).
  assert (E1 : completed w1 = completed w + 1).
  { unfold completed, completes, w1. simpl. lia. }
  match goal with
  | |- match bind ?m _ w1 with _ => _ end =>
      assert (Hp : preserves Rc m) by (pres; apply completed_delete_remote);
      assert (Hn : never_raises m)
        by (nr; apply never_raises_delete_remote);
      specialize (Hp w1); destruct (Hn w1) as [[] Hr];
      destruct (m w1) as [r w2] eqn:E
  end.
  simpl in Hr, Hp. subst r. rewrite (bind_eq _ _ _ _ _ E). simpl.
  unfold unchanged in Hp. lia.
Qed.

Lemma counted_download_file ls f rp lpd lp :
  counted ls (download_file ls f rp lpd lp).
Proof.
  unfold download_file. apply counted_bind; [pres; rc_prim|]. intros _.
  apply counted_try_except.
  - apply counted_bind;
      [apply steps_stability_gate; try apply _; rc_prim|].
    intros [|]; [|apply counted_ret].
    unfold transfer_file.
    apply counted_bind;
      [apply steps_retrieve_to_temp; try apply _; rc_prim|].
    intros _.
    apply counted_bind; [apply steps_publish; try apply _; rc_prim|].
    intros _. apply counted_after_publish.
  - intros e. apply counted_bind; [pres; rc_prim|]. intros _.
    apply counted_ret.
Qed.

Lemma counted_process_file lim ls f rp lpd lp :
  counted ls (process_file lim ls f rp lpd lp).
Proof.
  unfold process_file. apply counted_bind; [pres; rc_prim|]. intros rs.
  apply counted_bind; [pres|]. intros w0.
  destruct rs as [n|]; [|apply counted_download_file].
  destruct (local_size_matches lp n (fs w0));
    [apply counted_skip_file | apply counted_download_file].
Qed.

Lemma counted_process_item self lim rp lp ls it :
  (forall a b, counts_its_completions (self a b)) ->
  counted ls (process_item self lim rp lp ls it).
Proof.
  intros Hself. unfold process_item. destruct it as [name f].
  destruct (is_dot name); [apply counted_ret|].
  destruct (fact_type f).
  - apply counted_process_file.
  - intros w. unfold bind. specialize (Hself (remote_join rp name)
                                         (os_path_join lp name) w).
    destruct (self _ _ w) as [[n|e] w1]; simpl; [lia | exact Hself].
  - apply counted_ret.
Qed.

Lemma items_loop_counted self lim rp lp :
  (forall a b, counts_its_completions (self a b)) ->
  forall items ls (w : @Worker S),
    completed (snd (items_loop self lim rp lp ls items w)) - completed w
    = count (fst (fst (items_loop self lim rp lp ls items w))) - count ls.
Proof.
  intros Hself. induction items as [|it rest IH]; intros ls w.
  - simpl. lia.
  - cbn [items_loop].
    pose proof (counted_process_item self lim rp lp ls it Hself w) as Hp.
    destruct (process_item self lim rp lp ls it w) as [[ls1|e] w1].
    + specialize (IH ls1 w1). lia.
    + simpl. lia.
Qed.

Lemma dir_body_counted self rp lp (w : @Worker S) :
  (forall a b, counts_its_completions (self a b)) ->
  completed (snd (dir_body self rp lp w))
  = completed w + fst (dir_body self rp lp w).
Proof.
  intros Hself. unfold dir_body.
  assert (He : preserves Rc (enter_directory rp lp))
    by (apply steps_enter_directory; try apply _; rc_prim).
  specialize (He w). unfold unchanged in He.
  destruct (enter_directory rp lp w) as [[[items lim]|e] w1]; simpl in He.
  - pose proof (items_loop_counted self lim rp lp Hself items init_loop w1)
      as Hl.
    destruct (items_loop self lim rp lp init_loop items w1)
      as [[ls [e|]] w2]; simpl in *.
    + change (completed (record_event (PROCESS_DIR_ERROR rp e) w2))
        with (completed w2). lia.
    + lia.
  - simpl.
    change (completed (record_event (PROCESS_DIR_ERROR rp e) w1))
      with (completed w1). lia.
Qed.

Lemma download_dir_recursive_counted depth :
  forall rp lp, counts_its_completions (@download_dir_recursive S _ depth rp lp).
Proof.
  induction depth as [|d IH]; intros rp lp w; simpl; [reflexivity|].
  pose proof (dir_body_counted (download_dir_recursive d) rp lp w IH) as Hd.
  destruct (dir_body (download_dir_recursive d) rp lp w) as [n w1].
  simpl in Hd. exact Hd.
Qed.

#[global] Instance events_grow_preorder : PreOrder (@events_grow S).
Proof.
  split.
  - intros w. exists []. reflexivity.
  - intros a b c [n1 H1] [n2 H2]. exists (n2 ++ n1).
    unfold events_since in *. rewrite H2, H1. apply app_assoc.
Qed.

Lemma events_grow_walk : walk_invariant (@events_grow S).
Proof.
  split; try (intros; exists []; reflexivity).
  - apply _.
  - intros w e. exists [e]. reflexivity.
  - unfold try_mlsd, FTP_mlsd.
    pres; first [exists []; reflexivity | eexists [_]; reflexivity].
Qed.

Lemma completes_app l1 l2 : completes (l1 ++ l2) = completes l1 + completes l2.
Proof.
  unfold completes. rewrite List.filter_app, length_app. lia.
Qed.

(** X7: the number that [download_dir_recursive] returns is the number of
    completion records among the events that this call logged; when the
    call raises it has logged none. *)
Theorem returned_count_is_the_number_of_completed_downloads :
  forall (depth : nat) (remote_path local_path : string) (w : @Worker S),
    exists new,
      events (snd (download_dir_recursive depth remote_path local_path w))
      = new ++ events w /\
      match fst (download_dir_recursive depth remote_path local_path w) with
      | Ok n => n = completes new
      | Raise _ => completes new = 0
      end.
Proof.
  intros depth rp lp w.
  pose proof (download_dir_recursive_counted depth rp lp w) as Hc.
  destruct (download_dir_recursive_invariant _ events_grow_walk depth rp lp w)
    as [new Hnew].
  exists new. split; [exact Hnew|].
  unfold events_since in Hnew. unfold completed in Hc.
  destruct (download_dir_recursive depth rp lp w) as [[n|e] w1];
    simpl in *; rewrite Hnew, completes_app in Hc; lia.
Qed.

End WalkCount.

(** *** Remote files are deleted only on request *)

Section RemoteFilesKept.

Context {S : Type} `{FtpEnv S}.

#[global] Instance keeps_remote_files_preorder :
  PreOrder (@keeps_remote_files S).
Proof.
  split.
  - intros w _. split; reflexivity.
  - intros a b c Hab Hbc Hd. destruct (Hab Hd) as [E1 E2].
    destruct Hbc as [E3 E4]; [rewrite E1; exact Hd|].
    split; congruence.
Qed.

Ltac kept_prim := intros; intros _; split; reflexivity.

Lemma kept_cmd (w : @Worker S) s c :
  is_dele c = false -> keeps_remote_files w (set_env s (record_cmd c w)).
Proof.
  intros Hc _. split; [reflexivity|]. simpl. rewrite Hc. reflexivity.
Qed.

Lemma kept_after_publish ls rp lp :
  preserves (@keeps_remote_files S) (after_publish ls rp lp).
Proof.
  intros w Hd. unfold after_publish. rewrite bind_get, bind_emit, Hd.
  rewrite bind_ret. split; reflexivity.
Qed.

Lemma kept_skip_file lim ls rp rs :
  preserves (@keeps_remote_files S) (skip_file lim ls rp rs).
Proof.
  intros w Hd. unfold skip_file.
  destruct (skip_logs_shown ls <? lim).
  - rewrite bind_emit, bind_get. cbn [settings record_event]. rewrite Hd.
    rewrite bind_ret. split; reflexivity.
  - rewrite bind_ret, bind_get, Hd, bind_ret. split; reflexivity.
Qed.

Lemma kept_walk depth rp lp :
  preserves (@keeps_remote_files S) (download_dir_recursive depth rp lp).
Proof.
  apply steps_download_dir_recursive; try apply _; try kept_prim.
  - intros. apply kept_cmd. assumption.
  - apply kept_after_publish.
  - apply kept_skip_file.
Qed.

Lemma kept_cleanup : preserves (@keeps_remote_files S) _cleanup_connections.
Proof.
  unfold _cleanup_connections. pres; first [apply kept_cmd; reflexivity | kept_prim].
Qed.

Lemma kept_reset : preserves (@keeps_remote_files S) _reset_connections.
Proof.
  unfold _reset_connections. pres; try kept_prim. apply kept_cleanup.
Qed.

Lemma kept_connect_loop l :
  preserves (@keeps_remote_files S) (connect_loop l).
Proof.
  induction l as [|a rest IH]; simpl; [pres|].
  unfold connect_attempt.
  pres; first [apply kept_cmd; reflexivity | apply kept_cleanup
              | exact IH | kept_prim].
Qed.

Lemma kept_perform depth (w : @Worker S) :
  keeps_remote_files w (snd (perform_ftp_download depth w)).
Proof.
  unfold perform_ftp_download.
  match goal with |- context [match ?b w with _ => _ end] => set (body := b) end.
  assert (Hb : preserves (@keeps_remote_files S) body).
  { subst body. pres; try kept_prim.
    - apply kept_connect_loop.
    - apply kept_walk. }
  specialize (Hb w). destruct (body w) as [[n|e] w1]; simpl in *; [exact Hb|].
  assert (Hh : forall ev, preserves (@keeps_remote_files S)
                 (bind (emit ev) (fun _ => _reset_connections))).
  { intros ev. pres; try kept_prim. apply kept_reset. }
  destruct e; simpl; (etransitivity; [exact Hb | apply Hh]).
Qed.

Lemma kept_run_cycle depth (w : @Worker S) :
  keeps_remote_files w (run_cycle depth w).
Proof.
  unfold run_cycle.
  assert (Hc : preserves (@keeps_remote_files S)
                 (try_except (cycle_body depth) cycle_handler)).
  { unfold cycle_body, cycle_handler, _perform_periodic_cleanup.
    pres; try kept_prim; try apply kept_cleanup; try apply kept_reset.
    intros w0. pose proof (kept_perform depth w0) as Hp.
    destruct (perform_ftp_download depth w0). exact Hp. }
  apply Hc.
Qed.

(** X8: as long as the settings do not ask for deletion after download,
    no pass of the loop sends a DELE, whatever the server answers and
    whichever files are downloaded or skipped. *)
Theorem no_remote_file_is_deleted_unless_configured :
  forall (depth n : nat) (w : @Worker S),
    delete_after_download (settings w) = false ->
    List.filter is_dele (ftp_cmds (Nat.iter n (run_cycle depth) w))
    = List.filter is_dele (ftp_cmds w).
Proof.
  intros depth n w Hd.
  assert (Hk : keeps_remote_files w (Nat.iter n (run_cycle depth) w)).
  { induction n as [|n IH]; simpl; [reflexivity|].
    etransitivity; [exact IH | apply kept_run_cycle]. }
  apply Hk, Hd.
Qed.

End RemoteFilesKept.

Lemma no_remote_file_is_deleted_unless_configured_witness :
  List.filter is_dele (ftp_cmds (Nat.iter 2 (run_cycle 10) fresh_worker))
  = List.filter is_dele (ftp_cmds fresh_worker).
Proof.
  apply (no_remote_file_is_deleted_unless_configured 10 2 fresh_worker).
  reflexivity.
Defined.

(** *** Failures stay with the entry they belong to *)

Section Containment.

Context {S : Type} `{FtpEnv S}.

Lemma never_raises_process_file lim ls f rp lpd lp :
  never_raises (@process_file S _ lim ls f rp lpd lp).
Proof.
  unfold process_file, skip_file, download_file.
  nr; apply never_raises_delete_remote.
Qed.

Lemma never_raises_process_item self lim rp lp ls it :
  (forall a b, never_raises (self a b)) ->
  never_raises (@process_item S _ self lim rp lp ls it).
Proof.
  intros Hself. unfold process_item. destruct it as [name f].
  nr; first [apply never_raises_process_file | apply Hself].
Qed.

Lemma items_loop_runs_to_its_end self lim rp lp :
  (forall a b, never_raises (self a b)) ->
  forall items ls (w : @Worker S),
    snd (fst (items_loop self lim rp lp ls items w)) = None.
Proof.
  intros Hself. induction items as [|it rest IH]; intros ls w;
    [reflexivity|].
  cbn [items_loop].
  destruct (never_raises_process_item self lim rp lp ls it Hself w)
    as [ls1 H1].
  destruct (process_item self lim rp lp ls it w) as [[ls'|e] w1];
    [apply IH | discriminate].
Qed.

(** X9: below the recursion limit the loop over the entries of a directory
    always runs to its end: a failure of SIZE, of the stability check, of
    the transfer, of the rename or of a deletion, or any failure inside a
    subdirectory, is handled where it occurs and the next entry is
    processed. *)
Theorem a_failing_entry_does_not_end_the_loop :
  forall (depth : nat) (skip_log_limit : Z) (remote_path local_path : string)
         (ls : loop_state) (items : list item) (w : @Worker S),
    snd (fst (items_loop (download_dir_recursive (Datatypes.S depth))
                skip_log_limit remote_path local_path ls items w))
    = None.
Proof.
  intros depth lim rp lp ls items w.
  apply items_loop_runs_to_its_end.
  intros a b w0. apply download_dir_recursive_returns.
Qed.

(** X11: when the settings ask for deletion after download, a file whose
    local copy has the size that SIZE reports is deleted on the server
    without being transferred: the sizes are compared, not the contents;
    it is not counted and the local files are not touched. *)
Theorem skipped_file_is_deleted_remotely :
  forall (w : @Worker S) (skip_log_limit : Z) (ls : loop_state) (f : facts)
         (remote_item_path local_path local_item_path : string)
         (content : list byte) (s s' : S),
    delete_after_download (settings w) = true ->
    fs w !! local_item_path = Some (LFile content) ->
    ftp_size remote_item_path (env w)
    = (Some (Z.of_nat (length content)), s) ->
    ftp_delete remote_item_path s = (Ok tt, s') ->
    exists ls' w',
      process_file skip_log_limit ls f remote_item_path local_path
        local_item_path w = (Ok ls', w') /\
      count ls' = count ls /\
      fs w' = fs w /\
      env w' = s' /\
      ftp_cmds w'
      = DELE remote_item_path :: SIZE remote_item_path :: ftp_cmds w.
Proof.
  intros w lim ls f rp lpd lp content s s' Hd Hlp Hsize Hdel.
  unfold process_file.
  assert (Es : FTP_size rp w
               = (Ok (Some (Z.of_nat (length content))),
                  set_env s (record_cmd (SIZE rp) w))).
  { unfold FTP_size. rewrite Hsize. reflexivity. }
  rewrite (bind_eq _ _ _ _ _ Es), bind_get.
  cbn [fs set_env record_cmd].
  assert (Em : local_size_matches lp (Z.of_nat (length content)) (fs w)
               = true).
  { unfold local_size_matches, os_path_exists, os_path_getsize. rewrite Hlp.
    rewrite bool_decide_eq_true_2 by (eexists; reflexivity).
    simpl. apply Z.eqb_refl. }
  rewrite Em. unfold skip_file.
  assert (Edel : forall w1 : @Worker S,
    env w1 = s ->
    delete_remote rp w1
    = (Ok tt, record_event (DELETE_REMOTE rp)
                (set_env s' (record_cmd (DELE rp) w1)))).
  { intros w1 E1. unfold delete_remote, try_except, bind, FTP_delete,
      ftp_call, emit, modify. rewrite E1, Hdel. reflexivity. }
  destruct (skip_logs_shown ls <? lim).
  - rewrite bind_emit, bind_get. cbn [settings record_event set_env record_cmd].
    rewrite Hd.
    rewrite (bind_eq _ _ _ _ _
               (Edel (record_event (DOWNLOAD_SKIPPED rp
                                      (Z.of_nat (length content)))
                        (set_env s (record_cmd (SIZE rp) w))) eq_refl)).
    eexists _, _. split; [reflexivity|]. repeat split.
  - rewrite bind_ret, bind_get. cbn [settings set_env record_cmd].
    rewrite Hd.
    rewrite (bind_eq _ _ _ _ _
               (Edel (set_env s (record_cmd (SIZE rp) w)) eq_refl)).
    eexists _, _. split; [reflexivity|]. repeat split.
Qed.

End Containment.

Lemma skipped_file_is_deleted_remotely_witness :
  exists ls' w',
    process_file 5 init_loop plain_file "/data/a.txt" "local" "local/a.txt"
      deleting_worker = (Ok ls', w') /\
    count ls' = count init_loop /\
    fs w' = fs deleting_worker /\
    env w' = snd (ftp_delete "/data/a.txt" (env deleting_worker)) /\
    ftp_cmds w'
    = DELE "/data/a.txt" :: SIZE "/data/a.txt" :: ftp_cmds deleting_worker.
Proof.
  apply (skipped_file_is_deleted_remotely deleting_worker 5 init_loop
           plain_file "/data/a.txt" "local" "local/a.txt" (bytes 3)
           (env deleting_worker));
    vm_compute; reflexivity.
Defined.

(** ** Remote paths *)

Lemma has_dslash_cons c r :
  has_dslash (String c r)
  = match r with
    | String c' _ =>
        (Ascii.eqb c "/"%char && Ascii.eqb c' "/"%char) || has_dslash r
    | EmptyString => false
    end.
Proof. destruct r; reflexivity. Qed.

Lemma no_slash_no_dslash n : has_slash n = false -> has_dslash n = false.
Proof.
  induction n as [|c r IH]; [reflexivity|]. simpl has_slash. intros Hs.
  apply orb_false_iff in Hs. destruct Hs as [Hc Hr].
  rewrite has_dslash_cons. destruct r as [|c' r']; [reflexivity|].
  rewrite Hc. simpl. exact (IH Hr).
Qed.

(** A string without a double slash is left as it is. *)
Lemma replace_dslash_clean s : has_dslash s = false -> replace_dslash s = s.
Proof.
  induction s as [|c r IH]; [reflexivity|].
  rewrite has_dslash_cons, replace_dslash_cons.
  destruct r as [|c' r']; [reflexivity|].
  intros Hd. apply orb_false_iff in Hd. destruct Hd as [Hp Hr].
  rewrite Hp, (IH Hr). reflexivity.
Qed.

Lemma clean_append_name p n :
  has_dslash p = false -> ends_with_slash p = true -> has_slash n = false ->
  has_dslash (p +:+ n) = false.
Proof.
  intros Hp He Hn. induction p as [|c r IH]; [discriminate|].
  rewrite string_app_cons, has_dslash_cons.
  rewrite has_dslash_cons in Hp.
  destruct r as [|c' r'].
  - rewrite string_app_nil_l. destruct n as [|x n']; [reflexivity|].
    pose proof (no_slash_no_dslash _ Hn) as Hd.
    simpl in Hn. apply orb_false_iff in Hn. destruct Hn as [Hx Hn'].
    rewrite Hx, andb_false_r, orb_false_l. exact Hd.
  - rewrite string_app_cons. apply orb_false_iff in Hp.
    destruct Hp as [Hpair Hr]. rewrite Hpair, orb_false_l.
    rewrite <- string_app_cons. apply IH; [exact Hr | exact He].
Qed.

Lemma clean_append_slash_name p n :
  has_dslash p = false -> ends_with_slash p = false -> has_slash n = false ->
  has_dslash (p +:+ "/" +:+ n) = false.
Proof.
  intros Hp He Hn. induction p as [|c r IH].
  - rewrite string_app_nil_l.
    change ("/" +:+ n) with (String "/"%char n).
    apply (clean_append_name "/" n); [reflexivity | reflexivity | exact Hn].
  - rewrite string_app_cons, has_dslash_cons.
    rewrite has_dslash_cons in Hp.
    destruct r as [|c' r'].
    + rewrite string_app_nil_l.
      change ("/" +:+ n) with (String "/"%char n).
      simpl in He. rewrite He. simpl.
      apply (clean_append_name "/" n); [reflexivity | reflexivity | exact Hn].
    + rewrite string_app_cons. apply orb_false_iff in Hp.
      destruct Hp as [Hpair Hr]. rewrite Hpair, orb_false_l.
      rewrite <- string_app_cons. apply IH; [exact Hr | exact He].
Qed.

Lemma replace_dslash_junction p n :
  has_dslash p = false -> ends_with_slash p = true -> has_slash n = false ->
  replace_dslash (p +:+ "/" +:+ n) = p +:+ n.
Proof.
  intros Hp He Hn. induction p as [|c r IH]; [discriminate|].
  rewrite !string_app_cons, replace_dslash_cons.
  rewrite has_dslash_cons in Hp.
  destruct r as [|c' r'].
  - rewrite !string_app_nil_l. change ("/" +:+ n) with (String "/"%char n).
    simpl in He. rewrite He. simpl.
    rewrite (replace_dslash_clean n (no_slash_no_dslash n Hn)).
    apply Ascii.eqb_eq in He. subst c. reflexivity.
  - rewrite string_app_cons. apply orb_false_iff in Hp.
    destruct Hp as [Hpair Hr]. rewrite Hpair.
    rewrite <- string_app_cons. f_equal. apply IH; [exact Hr | exact He].
Qed.

(** X10: for a directory path without a double slash and a name without a
    slash, the remote path of the entry has no double slash: a trailing
    slash of the directory, as in the root [/], is absorbed, and otherwise
    the two are joined by one slash. *)
Theorem remote_join_of_clean_parts_is_clean :
  forall (remote_path name : string),
    has_dslash remote_path = false ->
    has_slash name = false ->
    remote_join remote_path name
    = (if ends_with_slash remote_path then remote_path +:+ name
       else remote_path +:+ "/" +:+ name) /\
    has_dslash (remote_join remote_path name) = false.
Proof.
  intros p n Hp Hn. unfold remote_join.
  destruct (ends_with_slash p) eqn:He.
  - rewrite (replace_dslash_junction p n Hp He Hn).
    split; [reflexivity | apply clean_append_name; assumption].
  - pose proof (clean_append_slash_name p n Hp He Hn) as Hc.
    rewrite (replace_dslash_clean _ Hc). split; [reflexivity | exact Hc].
Qed.

Lemma remote_join_of_clean_parts_is_clean_witness :
  remote_join "/" "data"
  = (if ends_with_slash "/" then "/" +:+ "data" else "/" +:+ "/" +:+ "data") /\
  has_dslash (remote_join "/" "data") = false.
Proof.
  apply (remote_join_of_clean_parts_is_clean "/" "data"); reflexivity.
Defined.

(** ** The notification policy *)

Section Parsing.

Context `{Builtins}.

Lemma dt_time_of_spec h m t :
  dt_time_of h m = Some t <->
  0 <= h <= 23 /\ 0 <= m <= 59 /\ t = mk_time h m 0 0.
Proof.
  unfold dt_time_of.
  destruct ((0 <=? h) && (h <=? 23) && (0 <=? m) && (m <=? 59)) eqn:E.
  - rewrite !andb_true_iff, !Z.leb_le in E.
    split; [intros [= <-]; repeat split; lia | intros [_ [_ ->]]; reflexivity].
  - split; [discriminate|]. intros [Hh [Hm _]].
    assert (X : (0 <=? h) && (h <=? 23) && (0 <=? m) && (m <=? 59) = true).
    { rewrite !andb_true_iff, !Z.leb_le. lia. }
    congruence.
Qed.

(** X13: [parse_time_str] gives a time exactly for a string of two fields
    around one colon that [int] reads as an hour from 0 to 23 and a minute
    from 0 to 59, and then the time of that hour and minute; everything
    else, a value that is not a string included, gives [None]. *)
Theorem parse_time_str_reads_hours_and_minutes :
  forall (v : pystr) (t : dt_time),
    parse_time_str v = Some t <->
    exists s a b,
      v = StrVal s /\ str_split ":" s = [a; b] /\
      int_of_str a = Some (hour t) /\ int_of_str b = Some (minute t) /\
      0 <= hour t <= 23 /\ 0 <= minute t <= 59 /\
      second t = 0 /\ microsecond t = 0.
Proof.
  intros v t. split.
  - destruct v as [|s|]; simpl; try discriminate.
    destruct (str_split ":" s) as [|a [|b [|c l]]] eqn:Es; try discriminate.
    destruct (int_of_str a) as [h|] eqn:Ea; [|discriminate].
    destruct (int_of_str b) as [m|] eqn:Eb; [|discriminate].
    intros Ht. apply dt_time_of_spec in Ht. destruct Ht as [Hh [Hm ->]].
    exists s, a, b. simpl. auto 10.
  - intros [s [a [b [-> [Es [Ea [Eb [Hh [Hm [Hs Hu]]]]]]]]]].
    simpl. rewrite Es, Ea, Eb. apply dt_time_of_spec.
    destruct t as [h m sec us]. simpl in *. subst. auto.
Qed.

(** *** Recipients *)

Lemma rstrip_cons c r :
  rstrip (String c r)
  = match rstrip r with
    | EmptyString => if isspace c then EmptyString else String c EmptyString
    | r' => String c r'
    end.
Proof. reflexivity. Qed.

Lemma rstrip_idem s : rstrip (rstrip s) = rstrip s.
Proof.
  induction s as [|c r IH]; [reflexivity|].
  rewrite rstrip_cons. destruct (rstrip r) as [|c' r'] eqn:Er.
  - destruct (isspace c) eqn:Ec; [reflexivity|].
    rewrite rstrip_cons. simpl. rewrite Ec. reflexivity.
  - rewrite rstrip_cons, IH. reflexivity.
Qed.

Lemma lstrip_head s :
  match lstrip s with
  | String c _ => isspace c = false
  | EmptyString => True
  end.
Proof.
  induction s as [|c r IH]; simpl; [exact I|].
  destruct (isspace c) eqn:Ec; [exact IH | exact Ec].
Qed.

Lemma rstrip_keeps_head c r :
  isspace c = false -> exists r', rstrip (String c r) = String c r'.
Proof.
  intros Hc. rewrite rstrip_cons. destruct (rstrip r).
  - rewrite Hc. eauto.
  - eauto.
Qed.

Lemma strip_head s :
  match strip s with
  | String c _ => isspace c = false
  | EmptyString => True
  end.
Proof.
  unfold strip. pose proof (lstrip_head s) as Hl.
  destruct (lstrip s) as [|c r]; [exact I|].
  destruct (rstrip_keeps_head c r Hl) as [r' ->]. exact Hl.
Qed.

Lemma strip_idem s : strip (strip s) = strip s.
Proof.
  pose proof (strip_head s) as Hh. unfold strip at 1.
  destruct (strip s) as [|c r] eqn:Es; [reflexivity|].
  simpl lstrip. rewrite Hh. rewrite <- Es. unfold strip. apply rstrip_idem.
Qed.

(** X14: every recipient taken from the [email_to] entry is a non-empty
    string with no white space at either end, and it is a stripped field
    of the entry; an absent or empty entry gives no recipient. *)
Theorem recipients_are_stripped_and_not_empty :
  forall (email_to : option string) (a : string),
    (In a (recipients email_to) ->
     a <> "" /\ strip a = a /\
     exists field, In field (str_split ";" (default "" email_to)) /\
                   a = strip field) /\
    recipients None = [] /\ recipients (Some "") = [].
Proof.
  intros v a. split; [|split; reflexivity].
  unfold recipients. intros Hin. apply List.filter_In in Hin.
  destruct Hin as [Hin Hne]. apply List.in_map_iff in Hin.
  destruct Hin as [field [<- Hf]].
  apply negb_true_iff, bool_decide_eq_false in Hne.
  split; [exact Hne|]. split; [apply strip_idem|].
  exists field. split; [exact Hf | reflexivity].
Qed.

End Parsing.

Lemma parsing_examples :
  parse_time_str (StrVal "08:30") = Some (mk_time 8 30 0 0) /\
  parse_time_str (StrVal "24:00") = None /\
  parse_time_str (StrVal "8") = None /\
  recipients (Some " ops@example.org ; ;admin@example.org")
  = ["ops@example.org"; "admin@example.org"].
Proof. repeat split; vm_compute; reflexivity. Qed.

Section Policy.

Context `{Builtins}.
Context {S : Type} `{FtpEnv S}.
Context {E : Type} `{MailEnv E}.

Local Notation "'Notifier'" := (@Notifier S E).

Lemma nbind_get {B} (k : Notifier -> N B) (n : Notifier) :
  nbind nget k n = k n n.
Proof. reflexivity. Qed.

Lemma nbind_ret {A B} (a : A) (k : A -> N B) (n : Notifier) :
  nbind (nret a) k n = k a n.
Proof. reflexivity. Qed.

Lemma nbind_lift {A B} (r : result A) (k : A -> N B) (n : Notifier) :
  nbind (nlift r) k n = match r with
                        | Ok a => k a n
                        | Raise e => (Raise e, n)
                        end.
Proof. unfold nbind, nlift. destruct r; reflexivity. Qed.

Lemma nbind_eq {A B} (m : N A) (k : A -> N B) (n n1 : Notifier) a :
  m n = (Ok a, n1) -> nbind m k n = k a n1.
Proof. intros Em. unfold nbind. rewrite Em. reflexivity. Qed.

Lemma nbind_raise_eq {A B} (m : N A) (k : A -> N B) (n n1 : Notifier) e :
  m n = (Raise e, n1) -> nbind m k n = (Raise e, n1).
Proof. intros Em. unfold nbind. rewrite Em. reflexivity. Qed.

(** X15: on a day that is not among the configured weekdays, outside the
    working hours, or during the lunch break, the check returns at once:
    nothing is read further, sent or logged. *)
Theorem no_check_outside_the_schedule :
  forall (n : Notifier) (today : string),
    weekday_map (now_weekday (mail_env n)) = Some today ->
    (default [] (weekdays (monitor_settings n)) <> [] /\
     today ∉ default [] (weekdays (monitor_settings n))) \/
    in_work (monitor_settings n) (now_time (mail_env n)) = false \/
    in_lunch (monitor_settings n) (now_time (mail_env n)) = true ->
    check_monitoring_and_notify n = (Ok tt, n).
Proof.
  intros n today Hday Hout. unfold check_monitoring_and_notify, ntry.
  rewrite nbind_get, nbind_lift, Hday.
  destruct (negb (bool_decide (default [] (weekdays (monitor_settings n))
                               = []))
            && negb (bool_decide
                       (today ∈ default [] (weekdays (monitor_settings n)))))
    eqn:Ed; [reflexivity|].
  destruct Hout as [[Hne Hnot] | [Hw | Hl]].
  - rewrite bool_decide_eq_false_2 in Ed by exact Hne.
    rewrite bool_decide_eq_false_2 in Ed by exact Hnot. discriminate.
  - rewrite Hw. reflexivity.
  - rewrite Hl, orb_true_r. reflexivity.
Qed.

(** X16: once the worker is marked as notified, or while the time since
    the last download does not exceed the threshold, the check contacts
    no mail server and leaves the worker as it is. *)
Theorem no_mail_twice_or_before_the_threshold :
  forall (n : Notifier),
    notified_no_download (the_worker n) = true \/
    (exists t, int_get (notify_threshold (monitor_settings n)) 15 = Ok t /\
               time_time (env (the_worker n))
               - last_download_time (the_worker n) <= t * 60) ->
    fst (check_monitoring_and_notify n) = Ok tt /\
    smtp_cmds (snd (check_monitoring_and_notify n)) = smtp_cmds n /\
    the_worker (snd (check_monitoring_and_notify n)) = the_worker n /\
    last_notification_time (snd (check_monitoring_and_notify n))
    = last_notification_time n /\
    mail_env (snd (check_monitoring_and_notify n)) = mail_env n.
Proof.
  intros n Hq. unfold check_monitoring_and_notify, ntry.
  rewrite nbind_get, nbind_lift.
  destruct (weekday_map (now_weekday (mail_env n))) as [today|];
    [|repeat split].
  match goal with |- context [if ?c then _ else _] => destruct c end;
    [repeat split|].
  match goal with |- context [if ?c then _ else _] => destruct c end;
    [repeat split|].
  rewrite nbind_lift.
  destruct (int_get (notify_threshold (monitor_settings n)) 15) as [t|e]
    eqn:Et; [|repeat split].
  assert (Ec : (t * 60 <? time_time (env (the_worker n))
                          - last_download_time (the_worker n))
               && negb (notified_no_download (the_worker n)) = false).
  { destruct Hq as [Hn | [t' [Ht' Hle]]].
    - rewrite Hn. apply andb_false_r.
    - injection Ht' as <-. apply andb_false_iff. left.
      apply Z.ltb_ge. exact Hle. }
  rewrite Ec. repeat split.
Qed.

End Policy.

Lemma no_check_outside_the_schedule_witness :
  check_monitoring_and_notify overdue_on_saturday
  = (Ok tt, overdue_on_saturday).
Proof.
  apply (no_check_outside_the_schedule overdue_on_saturday "Sat").
  - reflexivity.
  - left. split; [discriminate|].
    refine (bool_decide_eq_false_1 _ _). vm_compute. reflexivity.
Defined.

Lemma no_mail_twice_or_before_the_threshold_witness :
  let n := snd (check_monitoring_and_notify overdue_on_tuesday) in
  fst (check_monitoring_and_notify n) = Ok tt /\
  smtp_cmds (snd (check_monitoring_and_notify n)) = smtp_cmds n /\
  the_worker (snd (check_monitoring_and_notify n)) = the_worker n /\
  last_notification_time (snd (check_monitoring_and_notify n))
  = last_notification_time n /\
  mail_env (snd (check_monitoring_and_notify n)) = mail_env n.
Proof.
  apply (no_mail_twice_or_before_the_threshold
           (snd (check_monitoring_and_notify overdue_on_tuesday))).
  left. vm_compute. reflexivity.
Defined.

Section Sending.

Context `{Builtins}.
Context {S : Type} `{FtpEnv S}.
Context {E : Type} `{MailEnv E}.

Local Notation "'Notifier'" := (@Notifier S E).

Lemma session_frame_refl (n : Notifier) : session_frame n n.
Proof. repeat split. Qed.

Lemma session_frame_trans (a b c : Notifier) :
  session_frame a b -> session_frame b c -> session_frame a c.
Proof.
  intros [A1 [A2 [A3 A4]]] [B1 [B2 [B3 B4]]].
  repeat split; congruence.
Qed.

Lemma smtp_call_frame c op (n : Notifier) :
  session_frame n (snd (smtp_call c op n)).
Proof.
  unfold smtp_call. destruct (op (mail_env n)). repeat split.
Qed.

Lemma nbind_frame {A B} (m : N A) (k : A -> N B) (n : Notifier) :
  (forall n0, session_frame n0 (snd (m n0))) ->
  (forall a n0, session_frame n0 (snd (k a n0))) ->
  session_frame n (snd (nbind m k n)).
Proof.
  intros Hm Hk. unfold nbind. specialize (Hm n).
  destruct (m n) as [[a|e] n1]; simpl in *; [|exact Hm].
  apply (session_frame_trans _ n1); [exact Hm | apply Hk].
Qed.

Lemma smtp_session_frame use_ssl host port user pwd from_addr to_addrs m
    (n : Notifier) :
  session_frame n
    (snd (smtp_session use_ssl host port user pwd from_addr to_addrs m n)).
Proof.
  unfold smtp_session.
  repeat (apply nbind_frame; [intros ? | intros ? ?]);
    try apply smtp_call_frame.
  - destruct use_ssl; [apply session_frame_refl|].
    unfold ntry.
    match goal with
    | |- session_frame ?k _ =>
        pose proof (smtp_call_frame STARTTLS smtp_starttls k) as Hs;
        destruct (smtp_call STARTTLS smtp_starttls k) as [[[]|e] n']
    end; exact Hs.
  - destruct user as [u|]; [|apply session_frame_refl].
    destruct (bool_decide (u = ""));
      [apply session_frame_refl | apply smtp_call_frame].
Qed.

(** X17: [send_email_notification] always returns normally.  Either the
    whole session went through: then the mail is logged as sent to the
    recipients of the settings, the worker is marked as notified and the
    time is recorded.  Or the settings were incomplete, and no command was
    sent, or a step failed: then the failure is logged and the worker is
    left as it was, not marked, so that the next check tries again. *)
Theorem only_a_delivered_mail_marks_the_worker :
  forall (m : mail) (n : Notifier),
    fst (send_email_notification m n) = Ok tt /\
    ((the_worker (snd (send_email_notification m n))
      = set_notified_no_download true (the_worker n) /\
      last_notification_time (snd (send_email_notification m n))
      = Some (time_time (env (the_worker n))) /\
      notices (snd (send_email_notification m n))
      = EMAIL_SENT (recipients (email_to (monitor_settings n)))
          :: notices n /\
      head (smtp_cmds (snd (send_email_notification m n)))
      = Some SMTP_QUIT) \/
     (the_worker (snd (send_email_notification m n)) = the_worker n /\
      last_notification_time (snd (send_email_notification m n))
      = last_notification_time n /\
      ((notices (snd (send_email_notification m n))
        = EMAIL_NOTIFICATION_SKIPPED :: notices n /\
        smtp_cmds (snd (send_email_notification m n)) = smtp_cmds n) \/
       exists e,
         notices (snd (send_email_notification m n))
         = EMAIL_SEND_FAILED e :: notices n))).
Proof.
  intros m n. unfold send_email_notification, ntry.
  rewrite nbind_get, nbind_lift.
  destruct (int_get (smtp_port (monitor_settings n)) 587) as [port|e].
  2:{ simpl. split; [reflexivity|]. right. repeat split. right. eauto. }
  assert (Hskip :
    fst (note EMAIL_NOTIFICATION_SKIPPED n) = Ok tt /\
    the_worker (snd (note EMAIL_NOTIFICATION_SKIPPED n)) = the_worker n /\
    last_notification_time (snd (note EMAIL_NOTIFICATION_SKIPPED n))
    = last_notification_time n /\
    notices (snd (note EMAIL_NOTIFICATION_SKIPPED n))
    = EMAIL_NOTIFICATION_SKIPPED :: notices n /\
    smtp_cmds (snd (note EMAIL_NOTIFICATION_SKIPPED n)) = smtp_cmds n)
    by (repeat split).
  destruct (smtp_host (monitor_settings n)) as [host|];
    [|simpl; split; [reflexivity|]; right; repeat split; left; split;
      reflexivity].
  destruct (email_from (monitor_settings n)) as [from_addr|];
    [|simpl; split; [reflexivity|]; right; repeat split; left; split;
      reflexivity].
  match goal with |- context [if ?c then _ else _] => destruct c end;
    [simpl; split; [reflexivity|]; right; repeat split; left; split;
     reflexivity|].
  pose proof (smtp_session_frame (smtp_ssl (monitor_settings n)) host port
                (smtp_user (monitor_settings n))
                (smtp_pass (monitor_settings n)) from_addr
                (recipients (email_to (monitor_settings n))) m n) as Hf.
  assert (Hq : forall n1,
    smtp_session (smtp_ssl (monitor_settings n)) host port
      (smtp_user (monitor_settings n)) (smtp_pass (monitor_settings n))
      from_addr (recipients (email_to (monitor_settings n))) m n
    = (Ok tt, n1) -> head (smtp_cmds n1) = Some SMTP_QUIT).
  { intros n1. unfold smtp_session, nbind.
    repeat match goal with
           | |- context [match ?x ?y with _ => _ end] =>
               destruct (x y) as [[[]|?] ?]; try discriminate
           end.
    unfold smtp_call.
    match goal with
    | |- context [smtp_quit ?e] => destruct (smtp_quit e) as [[[]|?] ?]
    end; [|discriminate].
    intros [= <-]. reflexivity. }
  destruct (smtp_session _ _ _ _ _ _ _ _ n) as [[[]|e] n1] eqn:Es.
  - specialize (Hq n1 eq_refl). destruct Hf as [F1 [F2 [F3 F4]]].
    simpl in F1, F2, F3, F4.
    rewrite (nbind_eq _ _ _ _ _ Es). simpl. split; [reflexivity|]. left.
    rewrite F1, F4. repeat split. exact Hq.
  - destruct Hf as [F1 [F2 [F3 F4]]]. simpl in F1, F2, F3, F4.
    rewrite (nbind_raise_eq _ _ _ _ _ Es). simpl. split; [reflexivity|].
    right. rewrite F1, F3, F4. repeat split. right. eauto.
Qed.

(** X18: a failure of STARTTLS is ignored: the session goes on over the
    connection as it is, and the login and the mail are sent. *)
Theorem mail_is_sent_when_starttls_fails :
  forall (n : Notifier) (host : string) (port : Z) (user : string)
         (pwd : option string) (from_addr : string)
         (to_addrs : list string) (m : mail) (x : exn)
         (e1 e2 e3 e4 e5 e6 : E),
    user <> "" ->
    smtp_connect false host port (mail_env n) = (Ok tt, e1) ->
    smtp_ehlo e1 = (Ok tt, e2) ->
    smtp_starttls e2 = (Raise x, e3) ->
    smtp_login user pwd e3 = (Ok tt, e4) ->
    smtp_sendmail from_addr to_addrs m e4 = (Ok tt, e5) ->
    smtp_quit e5 = (Ok tt, e6) ->
    exists n',
      smtp_session false host port (Some user) pwd from_addr to_addrs m n
      = (Ok tt, n') /\
      mail_env n' = e6 /\
      smtp_cmds n'
      = [SMTP_QUIT; SENDMAIL from_addr to_addrs m; LOGIN user pwd; STARTTLS;
         EHLO; SMTP_CONNECT false host port] ++ smtp_cmds n.
Proof.
  intros n host port user pwd from_addr to_addrs m x e1 e2 e3 e4 e5 e6
    Hu Hc He Hs Hl Hm Hq.
  unfold smtp_session, nbind, ntry, smtp_call. simpl.
  rewrite Hc. simpl. rewrite He. simpl. rewrite Hs. simpl.
  rewrite (bool_decide_eq_false_2 _ Hu). simpl. rewrite Hl. simpl.
  rewrite Hm. simpl. rewrite Hq. eexists. repeat split.
Qed.

End Sending.

Lemma mail_is_sent_when_starttls_fails_witness :
  exists n',
    smtp_session false "mail.example.org" 587 (Some "monitor")
      (Some "secret") "monitor@example.org" ["ops@example.org"]
      (NoDownloads 15 60) overdue_on_tuesday
    = (Ok tt, n') /\
    mail_env n' = tuesday_morning /\
    smtp_cmds n'
    = [SMTP_QUIT;
       SENDMAIL "monitor@example.org" ["ops@example.org"] (NoDownloads 15 60);
       LOGIN "monitor" (Some "secret"); STARTTLS; EHLO;
       SMTP_CONNECT false "mail.example.org" 587]
      ++ smtp_cmds overdue_on_tuesday.
Proof.
  apply (mail_is_sent_when_starttls_fails overdue_on_tuesday
           "mail.example.org" 587 "monitor" (Some "secret")
           "monitor@example.org" ["ops@example.org"] (NoDownloads 15 60)
           error_temp tuesday_morning tuesday_morning tuesday_morning
           tuesday_morning tuesday_morning tuesday_morning);
    first [discriminate | reflexivity].
Defined.

(** ** The settings manager *)

Section SettingsFacts.

Context {A : Type}.
Variable _values_equal : pyvalue A -> pyvalue A -> bool.

Lemma lookup_deep_merge (b o : gmap string (pyvalue A)) k :
  _deep_merge_dicts b o !! k = merge_entry (b !! k) (o !! k).
Proof.
  unfold _deep_merge_dicts. rewrite lookup_merge.
  destruct (b !! k), (o !! k); reflexivity.
Qed.

Lemma merge_value_dict (mb mo : gmap string (pyvalue A)) :
  merge_value (Dict mb) (Dict mo) = Dict (_deep_merge_dicts mb mo).
Proof. reflexivity. Qed.

Lemma merge_value_leaf (b : pyvalue A) a : merge_value b (Leaf a) = Leaf a.
Proof. destruct b; reflexivity. Qed.

Lemma deep_merge_empty (b : gmap string (pyvalue A)) :
  _deep_merge_dicts b ∅ = b.
Proof.
  apply map_eq. intros k. rewrite lookup_deep_merge, lookup_empty.
  reflexivity.
Qed.

Lemma get_parts_lookup (cur : pyvalue A) parts dflt :
  get_parts cur parts dflt = default dflt (lookup_path cur parts).
Proof.
  revert cur. induction parts as [|p rest IH]; intros cur; [reflexivity|].
  simpl. destruct cur as [a|m]; [reflexivity|].
  destruct (m !! p); [apply IH | reflexivity].
Qed.

Lemma str_split_not_nil sep s : str_split sep s <> [].
Proof.
  destruct s as [|c r]; simpl; [discriminate|].
  destruct (Ascii.eqb c sep); [discriminate|].
  destruct (str_split sep r); discriminate.
Qed.

(** A leaf of the override shows through the merge. *)
Lemma merge_keeps_override_leaf parts :
  forall (b o : gmap string (pyvalue A)) a,
    parts <> [] ->
    lookup_path (Dict o) parts = Some (Leaf a) ->
    lookup_path (Dict (_deep_merge_dicts b o)) parts = Some (Leaf a).
Proof.
  induction parts as [|p rest IH]; intros b o a Hne Hl; [congruence|].
  simpl in *. rewrite lookup_deep_merge.
  destruct (o !! p) as [vo|]; [|discriminate]. simpl.
  destruct rest as [|q rest'].
  - simpl in *. injection Hl as ->.
    destruct (b !! p) as [vb|]; [rewrite merge_value_leaf|]; reflexivity.
  - destruct vo as [x|mo]; [discriminate|].
    destruct (b !! p) as [[y|mb]|]; try exact Hl.
    rewrite merge_value_dict. apply IH; [discriminate | exact Hl].
Qed.

(** X19: after [_deep_merge_dicts(base, override)], a dotted path that
    leads to a value that is not a dictionary in the override leads to
    that value in the result, whatever the base holds there. *)
Theorem the_override_wins_along_a_path :
  forall (base override : gmap string (pyvalue A)) (dotted_key : string)
         (a : A) (dflt : pyvalue A),
    lookup_path (Dict override) (str_split "." dotted_key) = Some (Leaf a) ->
    _get_from_dict (_deep_merge_dicts base override) dotted_key dflt
    = Leaf a.
Proof.
  intros b o key a dflt Hl. unfold _get_from_dict.
  rewrite get_parts_lookup.
  rewrite (merge_keeps_override_leaf _ b o a (str_split_not_nil _ _) Hl).
  reflexivity.
Qed.

Lemma lookup_path_set_parts rest :
  forall (data : gmap string (pyvalue A)) p v,
    lookup_path (Dict (set_parts data p rest v)) (p :: rest) = Some v.
Proof.
  induction rest as [|q rest' IH]; intros data p v.
  - simpl. rewrite lookup_insert_eq. reflexivity.
  - cbn [set_parts]. cbn [lookup_path]. rewrite lookup_insert_eq.
    apply IH.
Qed.

(** X20: what [set_setting] stores under a key, dotted or not, is what
    [get_setting] then returns for that key, when the value is not a
    dictionary: whatever the defaults and the earlier overrides hold, and
    whatever else lay on the dotted path. *)
Theorem get_setting_returns_what_set_setting_stored :
  forall (st : @Manager A) (key : string) (a : A) (dflt : pyvalue A),
    get_setting key dflt (set_setting _values_equal key (Leaf a) st)
    = Leaf a.
Proof.
  intros st key a dflt. unfold get_setting, set_setting. cbn [_settings].
  destruct (has_char "." key) eqn:Hd; cbn [negb].
  - unfold _get_from_dict, _set_in_dict. rewrite get_parts_lookup.
    pose proof (str_split_not_nil "." key) as Hne.
    destruct (str_split "." key) as [|p rest]; [congruence|].
    rewrite (merge_keeps_override_leaf (p :: rest) _ _ a);
      [reflexivity | discriminate | apply lookup_path_set_parts].
  - rewrite lookup_deep_merge, lookup_insert_eq. simpl.
    destruct (_defaults st !! key); [rewrite merge_value_leaf|]; reflexivity.
Qed.

(** X22: without a configuration file, with one that cannot be read, or
    with one that holds something other than a dictionary,
    [load_settings] leaves the manager with no overrides and with the
    defaults as its settings. *)
Theorem load_settings_falls_back_to_the_defaults :
  forall (st : @Manager A) (a : A),
    load_settings NoFile st
    = mkManager (_defaults st) ∅ (_defaults st) /\
    load_settings Unreadable st
    = mkManager (_defaults st) ∅ (_defaults st) /\
    load_settings (Loaded (Leaf a)) st
    = mkManager (_defaults st) ∅ (_defaults st) /\
    load_settings (Loaded (Dict ∅)) st
    = mkManager (_defaults st) ∅ (_defaults st).
Proof.
  intros st a. unfold load_settings. rewrite deep_merge_empty.
  repeat split.
Qed.

Lemma lookup_compute_overrides (d f : gmap string (pyvalue A)) k :
  _compute_overrides _values_equal d f !! k
  = f !! k ≫= override_entry _values_equal d k.
Proof.
  unfold _compute_overrides. cbn [overrides_of].
  rewrite map_lookup_imap. reflexivity.
Qed.

(** A leaf of the full settings, after the overrides were computed and
    merged back into the defaults. *)
Lemma overrides_round_trip parts :
  forall (d f : gmap string (pyvalue A)) a,
    parts <> [] ->
    lookup_path (Dict f) parts = Some (Leaf a) ->
    lookup_path
      (Dict (_deep_merge_dicts d (_compute_overrides _values_equal d f)))
      parts = Some (Leaf a) \/
    exists pre post dv fv,
      parts = pre ++ post /\ pre <> [] /\
      lookup_path (Dict d) pre = Some dv /\
      lookup_path (Dict f) pre = Some fv /\
      _values_equal dv fv = true /\
      lookup_path
        (Dict (_deep_merge_dicts d (_compute_overrides _values_equal d f)))
        pre = Some dv.
Proof.
  induction parts as [|p rest IH]; intros d f a Hne Hl; [congruence|].
  cbn [lookup_path] in Hl |- *.
  rewrite lookup_deep_merge, lookup_compute_overrides.
  destruct (f !! p) as [v|] eqn:Ef; [|discriminate]. cbn [mbind option_bind].
  unfold override_entry.
  destruct (d !! p) as [[y|dd]|] eqn:Ed.
  - destruct (_values_equal (Leaf y) v) eqn:Ev; cbn [merge_entry].
    + right. exists [p], rest, (Leaf y), v.
      cbn [lookup_path]. rewrite Ed, Ef, lookup_deep_merge,
        lookup_compute_overrides, Ef, Ed.
      cbn [mbind option_bind]. unfold override_entry. rewrite Ed, Ev.
      repeat split. discriminate.
    + left. exact Hl.
  - destruct v as [x|ff].
    + destruct rest as [|q rest']; [|discriminate]. injection Hl as ->.
      destruct (_values_equal (Dict dd) (Leaf a)) eqn:Ev; cbn [merge_entry].
      * right. exists [p], [], (Dict dd), (Leaf a).
        cbn [lookup_path]. rewrite Ed, Ef, lookup_deep_merge,
          lookup_compute_overrides, Ef, Ed.
        cbn [mbind option_bind]. unfold override_entry. rewrite Ed, Ev.
        repeat split. discriminate.
      * left. reflexivity.
    + destruct rest as [|q rest']; [discriminate|].
      assert (Hsub : forall parts0,
        match merge_entry (Some (Dict dd))
                (let sub := overrides_of _values_equal (Dict ff) dd in
                 if decide (sub = ∅) then None else Some (Dict sub)) with
        | Some v0 => lookup_path v0 parts0
        | None => None
        end
        = lookup_path
            (Dict (_deep_merge_dicts dd
                     (_compute_overrides _values_equal dd ff))) parts0).
      { intros parts0. cbv zeta. unfold _compute_overrides.
        destruct (decide (overrides_of _values_equal (Dict ff) dd = ∅))
          as [E0|E0]; cbn [merge_entry].
        - rewrite E0, deep_merge_empty. reflexivity.
        - rewrite merge_value_dict. reflexivity. }
      rewrite Hsub.
      destruct (IH dd ff a ltac:(discriminate) Hl)
        as [Hok | [pre [post [dv [fv [E1 [E2 [E3 [E4 [E5 E6]]]]]]]]]].
      * left. exact Hok.
      * right. exists (p :: pre), post, dv, fv.
        cbn [lookup_path]. rewrite Ed, Ef, lookup_deep_merge,
          lookup_compute_overrides, Ef, Ed.
        cbn [mbind option_bind]. unfold override_entry. rewrite Ed.
        rewrite Hsub. rewrite E1. repeat split; try assumption.
        discriminate.
  - cbn [merge_entry]. left. exact Hl.
Qed.

(** X21: when [save_settings(settings)] has written its file, a dotted
    path that led to a value that is not a dictionary in [settings] leads
    to that value in the settings of the manager, unless that value, or a
    value on the way to it, was taken for equal to the default at its
    place: then what is read back there is the default. *)
Theorem saved_settings_read_back_up_to_the_defaults :
  forall (st : @Manager A) (full : gmap string (pyvalue A))
         (dotted_key : string) (a : A),
    lookup_path (Dict full) (str_split "." dotted_key) = Some (Leaf a) ->
    fst (save_settings _values_equal (Some full) true st) = true /\
    (lookup_path
       (Dict (_settings (snd (save_settings _values_equal (Some full) true
                                st))))
       (str_split "." dotted_key) = Some (Leaf a) \/
     exists pre post dv fv,
       str_split "." dotted_key = pre ++ post /\ pre <> [] /\
       lookup_path (Dict (_defaults st)) pre = Some dv /\
       lookup_path (Dict full) pre = Some fv /\
       _values_equal dv fv = true /\
       lookup_path
         (Dict (_settings (snd (save_settings _values_equal (Some full) true
                                  st))))
         pre = Some dv).
Proof.
  intros st full key a Hl. split; [reflexivity|]. cbn [save_settings snd _settings].
  apply overrides_round_trip; [apply str_split_not_nil | exact Hl].
Qed.

(** X23: after [update_settings(new_settings)], a dotted path that led to
    a value that is not a dictionary in [new_settings] leads to that value
    in the settings of the manager, unless that value, or a value on the
    way to it in the merged settings, was taken for equal to the default
    at its place: then the default is what is read there. *)
Theorem updated_settings_take_effect :
  forall (st : @Manager A) (new_settings : gmap string (pyvalue A))
         (dotted_key : string) (a : A),
    lookup_path (Dict new_settings) (str_split "." dotted_key)
    = Some (Leaf a) ->
    lookup_path
      (Dict (_settings (update_settings _values_equal new_settings st)))
      (str_split "." dotted_key) = Some (Leaf a) \/
    exists pre post dv fv,
      str_split "." dotted_key = pre ++ post /\ pre <> [] /\
      lookup_path (Dict (_defaults st)) pre = Some dv /\
      lookup_path (Dict (_deep_merge_dicts (_settings st) new_settings)) pre
      = Some fv /\
      _values_equal dv fv = true /\
      lookup_path
        (Dict (_settings (update_settings _values_equal new_settings st)))
        pre = Some dv.
Proof.
  intros st new key a Hl. unfold update_settings. cbn [_settings].
  apply overrides_round_trip; [apply str_split_not_nil|].
  apply merge_keeps_override_leaf; [apply str_split_not_nil | exact Hl].
Qed.

(** X24: [_compute_overrides] keeps the overrides small: it stores an
    entry only for a key of the full settings; where both sides hold a
    dictionary it stores the overrides computed inside, and only when
    there are some; elsewhere it stores the value itself, and, when the
    defaults have the key, only if the value was not taken for equal to
    the default. *)
Theorem overrides_hold_only_what_differs :
  forall (defaults full : gmap string (pyvalue A)) (k : string)
         (v : pyvalue A),
    _compute_overrides _values_equal defaults full !! k = Some v ->
    exists fv,
      full !! k = Some fv /\
      match defaults !! k, fv with
      | Some (Dict dd), Dict ff =>
          v = Dict (_compute_overrides _values_equal dd ff) /\
          _compute_overrides _values_equal dd ff <> ∅
      | Some dval, _ => v = fv /\ _values_equal dval fv = false
      | None, _ => v = fv
      end.
Proof.
  intros d f k v. rewrite lookup_compute_overrides.
  destruct (f !! k) as [fv|]; [|discriminate]. cbn [mbind option_bind].
  intros Hv. exists fv. split; [reflexivity|]. revert Hv.
  unfold override_entry. destruct (d !! k) as [[y|dd]|].
  - destruct (_values_equal (Leaf y) fv) eqn:Ev; [discriminate|].
    intros [= <-]. destruct fv; split; auto.
  - destruct fv as [x|ff].
    + destruct (_values_equal (Dict dd) (Leaf x)) eqn:Ev; [discriminate|].
      intros [= <-]. split; auto.
    + cbv zeta. unfold _compute_overrides.
      destruct (decide (overrides_of _values_equal (Dict ff) dd = ∅));
        [discriminate|].
      intros [= <-]. split; auto.
  - intros [= <-]. destruct fv; reflexivity.
Qed.

End SettingsFacts.

Lemma the_override_wins_along_a_path_witness :
  _get_from_dict (_deep_merge_dicts default_sections edited_sections)
    "FTPConnection.ftp_port" (Leaf PNone)
  = Leaf (PStr "2121").
Proof.
  apply (the_override_wins_along_a_path default_sections edited_sections
           "FTPConnection.ftp_port" (PStr "2121") (Leaf PNone)).
  vm_compute. reflexivity.
Defined.

Lemma saved_settings_read_back_up_to_the_defaults_witness :
  fst (save_settings strict_equal (Some edited_sections) true fresh_manager)
  = true /\
  (lookup_path
     (Dict (_settings (snd (save_settings strict_equal (Some edited_sections)
                              true fresh_manager))))
     (str_split "." "FTPConnection.interval") = Some (Leaf (PInt 30)) \/
   exists pre post dv fv,
     str_split "." "FTPConnection.interval" = pre ++ post /\ pre <> [] /\
     lookup_path (Dict (_defaults fresh_manager)) pre = Some dv /\
     lookup_path (Dict edited_sections) pre = Some fv /\
     strict_equal dv fv = true /\
     lookup_path
       (Dict (_settings (snd (save_settings strict_equal
                                (Some edited_sections) true fresh_manager))))
       pre = Some dv).
Proof.
  apply (saved_settings_read_back_up_to_the_defaults strict_equal
           fresh_manager edited_sections "FTPConnection.interval" (PInt 30)).
  vm_compute. reflexivity.
Defined.

Lemma updated_settings_take_effect_witness :
  lookup_path
    (Dict (_settings (update_settings strict_equal edited_sections
                        fresh_manager)))
    (str_split "." "FTPConnection.ftp_port") = Some (Leaf (PStr "2121")) \/
  exists pre post dv fv,
    str_split "." "FTPConnection.ftp_port" = pre ++ post /\ pre <> [] /\
    lookup_path (Dict (_defaults fresh_manager)) pre = Some dv /\
    lookup_path
      (Dict (_deep_merge_dicts (_settings fresh_manager) edited_sections)) pre
    = Some fv /\
    strict_equal dv fv = true /\
    lookup_path
      (Dict (_settings (update_settings strict_equal edited_sections
                          fresh_manager)))
      pre = Some dv.
Proof.
  apply (updated_settings_take_effect strict_equal fresh_manager
           edited_sections "FTPConnection.ftp_port" (PStr "2121")).
  vm_compute. reflexivity.
Defined.

Lemma overrides_hold_only_what_differs_witness :
  exists fv,
    edited_sections !! "FTPConnection" = Some fv /\
    match default_sections !! "FTPConnection", fv with
    | Some (Dict dd), Dict ff =>
        Dict (<["ftp_port" := Leaf (PStr "2121")]>
                (<["interval" := Leaf (PInt 30)]> ∅))
        = Dict (_compute_overrides strict_equal dd ff) /\
        _compute_overrides strict_equal dd ff <> ∅
    | Some dval, _ =>
        Dict (<["ftp_port" := Leaf (PStr "2121")]>
                (<["interval" := Leaf (PInt 30)]> ∅)) = fv /\
        strict_equal dval fv = false
    | None, _ =>
        Dict (<["ftp_port" := Leaf (PStr "2121")]>
                (<["interval" := Leaf (PInt 30)]> ∅)) = fv
    end.
Proof.
  apply (overrides_hold_only_what_differs strict_equal default_sections
           edited_sections "FTPConnection").
  vm_compute. reflexivity.
Defined.
